(** * Outbound message actions: dispatch, target resolution, directory cache

    A shallow embedding of

      - [src/infra/outbound/directory-cache.ts]      (module [DirectoryCache]),
      - [src/infra/outbound/message-action-spec.ts]  (module [ActionSpec]),
      - the target resolver    ([resolveMessagingTarget] and its helpers),
      - the action runner      ([runMessageAction], [handleBroadcastAction],
        [handleSendAction], [handlePollAction], [handlePluginAction]),

    followed by the properties proved about them.

    Modelling conventions.
      - JavaScript strings are [string]; the model covers the ASCII fragment:
        [trim] removes the six ASCII white-space characters and [toLowerCase]
        folds [A-Z] only.  Regular expressions of the source are written out
        as the string tests they denote.
      - A thrown [Error] is its message; a rejected promise is a thrown error.
      - [async] code is run sequentially, one resolution at a time: every
        computation is a function from the state (outside world, the
        process-wide directory cache, a ghost log of collaborator calls) to an
        outcome and a new state.
      - [Date.now()] reads the clock of the outside world.
      - Code of other modules of the repository (channel plugins, parameter
        readers, policy, dispatch services) is kept abstract in the class
        [Externals]. *)

From Stdlib Require Import ZArith Ascii String List Bool Lia.
From stdpp Require Import base option list gmap strings.

Set Warnings "-register-all".

Local Open Scope string_scope.
Local Open Scope Z_scope.

(* ===================================================================== *)
(** * JavaScript string primitives used by the sources                    *)
(* ===================================================================== *)

(** The strings of the embedding are strings of ASCII characters, one
    [ascii] per character; on these the definitions below are the
    JavaScript ones.  Letters and white space beyond ASCII, which
    [toLowerCase] and [trim] of JavaScript also fold and strip, are outside
    the embedding. *)
Module Js.

(** The lower-case form of an ASCII character: [A-Z] are folded. *)
Definition lowerChar (c : ascii) : ascii :=
  let n := nat_of_ascii c in
  if ((65 <=? n)%nat && (n <=? 90)%nat)%bool then ascii_of_nat (n + 32) else c.

(** [s.toLowerCase()], for a string of ASCII characters *)
Fixpoint toLowerCase (s : string) : string :=
  match s with
  | EmptyString => EmptyString
  | String c r => String (lowerChar c) (toLowerCase r)
  end.

Fixpoint trimStart (s : string) : string :=
  match s with
  | EmptyString => EmptyString
  | String c r => if Ascii.is_space c then trimStart r else s
  end.

Definition trimEnd (s : string) : string :=
  String.rev (trimStart (String.rev s)).

(** [s.trim()], for a string of ASCII characters: the white space is
    tab, line feed, vertical tab, form feed, carriage return and space *)
Definition trim (s : string) : string := trimEnd (trimStart s).

(** Truthiness of a string: [Boolean(s)], [!s] is its negation. *)
Definition truthy (s : string) : bool :=
  match s with EmptyString => false | _ => true end.

(** [s.startsWith(p)] *)
Definition startsWith (p s : string) : bool := String.prefix p s.

(** [s.endsWith(p)] *)
Definition endsWith (p s : string) : bool :=
  String.prefix (String.rev p) (String.rev s).

(** [s.includes(p)] *)
Fixpoint includes (p s : string) : bool :=
  String.prefix p s ||
  match s with
  | EmptyString => false
  | String _ r => includes p r
  end.

(** [s.slice(n)] for [0 <= n] *)
Fixpoint slice (n : nat) (s : string) : string :=
  match n, s with
  | O, _ => s
  | S k, String _ r => slice k r
  | S _, EmptyString => EmptyString
  end.

(** [/^p/i.test(s)] for a literal, lower-case, ASCII [p]. *)
Definition startsWithCI (p s : string) : bool :=
  String.prefix p (toLowerCase s).

Definition isDigit (c : ascii) : bool :=
  let n := nat_of_ascii c in ((48 <=? n)%nat && (n <=? 57)%nat)%bool.

Definition isAlnumCI (c : ascii) : bool :=
  let n := nat_of_ascii c in
  (isDigit c
   || ((65 <=? n)%nat && (n <=? 90)%nat)
   || ((97 <=? n)%nat && (n <=? 122)%nat))%bool.

Fixpoint allChars (f : ascii -> bool) (s : string) : bool :=
  match s with
  | EmptyString => true
  | String c r => f c && allChars f r
  end.

(** [/^C{n,}$/.test(s)] for a character class [C]. *)
Definition atLeast (n : nat) (f : ascii -> bool) (s : string) : bool :=
  ((n <=? String.length s)%nat && allChars f s)%bool.

End Js.

(* ===================================================================== *)
(** * message-action-spec.ts                                              *)
(* ===================================================================== *)

(** [ChannelMessageActionName]: the keys the [Record] type of
    [MESSAGE_ACTION_TARGET_MODE] ranges over. *)
Inductive ChannelMessageActionName : Type :=
  | a_send | a_broadcast | a_poll | a_react | a_reactions | a_read | a_edit
  | a_delete | a_pin | a_unpin | a_list_pins | a_permissions | a_thread_create
  | a_thread_list | a_thread_reply | a_search | a_sticker | a_member_info
  | a_role_info | a_emoji_list | a_emoji_upload | a_sticker_upload | a_role_add
  | a_role_remove | a_channel_info | a_channel_list | a_channel_create
  | a_channel_edit | a_channel_delete | a_channel_move | a_category_create
  | a_category_edit | a_category_delete | a_voice_status | a_event_list
  | a_event_create | a_timeout | a_kick | a_ban.

#[global] Instance ChannelMessageActionName_eq_dec :
  EqDecision ChannelMessageActionName.
Proof. solve_decision. Defined.

Module ActionSpec.

Inductive MessageActionTargetMode : Type := to | channelId | none.

#[global] Instance MessageActionTargetMode_eq_dec :
  EqDecision MessageActionTargetMode.
Proof. solve_decision. Defined.

(** The action's name as it is spelled in the source. *)
Definition actionName (a : ChannelMessageActionName) : string :=
  match a with
  | a_send => "send" | a_broadcast => "broadcast" | a_poll => "poll"
  | a_react => "react" | a_reactions => "reactions" | a_read => "read"
  | a_edit => "edit" | a_delete => "delete" | a_pin => "pin"
  | a_unpin => "unpin" | a_list_pins => "list-pins"
  | a_permissions => "permissions" | a_thread_create => "thread-create"
  | a_thread_list => "thread-list" | a_thread_reply => "thread-reply"
  | a_search => "search" | a_sticker => "sticker"
  | a_member_info => "member-info" | a_role_info => "role-info"
  | a_emoji_list => "emoji-list" | a_emoji_upload => "emoji-upload"
  | a_sticker_upload => "sticker-upload" | a_role_add => "role-add"
  | a_role_remove => "role-remove" | a_channel_info => "channel-info"
  | a_channel_list => "channel-list" | a_channel_create => "channel-create"
  | a_channel_edit => "channel-edit" | a_channel_delete => "channel-delete"
  | a_channel_move => "channel-move" | a_category_create => "category-create"
  | a_category_edit => "category-edit" | a_category_delete => "category-delete"
  | a_voice_status => "voice-status" | a_event_list => "event-list"
  | a_event_create => "event-create" | a_timeout => "timeout"
  | a_kick => "kick" | a_ban => "ban"
  end.

(** The object literal, entry by entry, in source order. *)
Definition MESSAGE_ACTION_TARGET_MODE
  : list (ChannelMessageActionName * MessageActionTargetMode) :=
  [ (a_send, to); (a_broadcast, none); (a_poll, to); (a_react, to);
    (a_reactions, to); (a_read, to); (a_edit, to); (a_delete, to);
    (a_pin, to); (a_unpin, to); (a_list_pins, to); (a_permissions, to);
    (a_thread_create, to); (a_thread_list, none); (a_thread_reply, to);
    (a_search, none); (a_sticker, to); (a_member_info, none);
    (a_role_info, none); (a_emoji_list, none); (a_emoji_upload, none);
    (a_sticker_upload, none); (a_role_add, none); (a_role_remove, none);
    (a_channel_info, channelId); (a_channel_list, none);
    (a_channel_create, none); (a_channel_edit, channelId);
    (a_channel_delete, channelId); (a_channel_move, channelId);
    (a_category_create, none); (a_category_edit, none);
    (a_category_delete, none); (a_voice_status, none); (a_event_list, none);
    (a_event_create, none); (a_timeout, none); (a_kick, none);
    (a_ban, none) ].

(** [MESSAGE_ACTION_TARGET_MODE[action]]: property lookup; a missing key
    reads as [undefined]. *)
Fixpoint lookupMode (tbl : list (ChannelMessageActionName * MessageActionTargetMode))
    (a : ChannelMessageActionName) : option MessageActionTargetMode :=
  match tbl with
  | [] => None
  | (k, m) :: rest => if decide (k = a) then Some m else lookupMode rest a
  end.

(** Number of entries of the table whose key is [a]. *)
Definition entriesFor (a : ChannelMessageActionName) : nat :=
  length (filter (fun e => e.1 = a) MESSAGE_ACTION_TARGET_MODE).

(** [MESSAGE_ACTION_TARGET_MODE[action] !== "none"] ([undefined] differs
    from ["none"]). *)
Definition actionRequiresTarget (action : ChannelMessageActionName) : bool :=
  match lookupMode MESSAGE_ACTION_TARGET_MODE action with
  | Some none => false
  | _ => true
  end.

End ActionSpec.

(* ===================================================================== *)
(** * directory-cache.ts                                                  *)
(* ===================================================================== *)

(** [ChannelId] is a string; a directory lists users or groups. *)
Definition ChannelId := string.

Inductive ChannelDirectoryEntryKind : Type := k_user | k_group.

#[global] Instance ChannelDirectoryEntryKind_eq_dec :
  EqDecision ChannelDirectoryEntryKind.
Proof. solve_decision. Defined.

Definition kindName (k : ChannelDirectoryEntryKind) : string :=
  match k with k_user => "user" | k_group => "group" end.

(** A configuration object.  [cfg_ref] stands for the identity of the
    JavaScript object ([===] on objects compares references);
    [cfg_broadcast_enabled] is [cfg.tools?.message?.broadcast?.enabled]. *)
Record ClawdbotConfig : Type := {
  cfg_ref : positive;
  cfg_broadcast_enabled : option bool
}.

Module DirectoryCache.

Inductive Source : Type := src_cache | src_live.

Definition sourceName (s : Source) : string :=
  match s with src_cache => "cache" | src_live => "live" end.

Record DirectoryCacheKey : Type := {
  channel : ChannelId;
  accountId : option string;
  kind : ChannelDirectoryEntryKind;
  source : Source
}.

(** [`${key.channel}:${key.accountId ?? "default"}:${key.kind}:${key.source}`] *)
Definition buildDirectoryCacheKey (key : DirectoryCacheKey) : string :=
  channel key +:+ ":" +:+ default "default" (accountId key) +:+ ":"
    +:+ kindName (kind key) +:+ ":" +:+ sourceName (source key).

Section Cache.
Context {T : Type}.

Record CacheEntry : Type := {
  value : T;
  fetchedAt : Z
}.

(** The fields of a [DirectoryCache<T>] instance. *)
Record t : Type := {
  cache : gmap string CacheEntry;
  lastConfigRef : option positive;
  ttlMs : Z
}.

(** [new DirectoryCache<T>(ttlMs)] *)
Definition create (ttl : Z) : t :=
  {| cache := ∅; lastConfigRef := None; ttlMs := ttl |}.

Definition withCache (m : gmap string CacheEntry) (c : t) : t :=
  {| cache := m; lastConfigRef := lastConfigRef c; ttlMs := ttlMs c |}.

(** [if (this.lastConfigRef && this.lastConfigRef !== cfg) this.cache.clear();
     this.lastConfigRef = cfg;] *)
Definition resetIfConfigChanged (cfg : ClawdbotConfig) (c : t) : t :=
  let m :=
    match lastConfigRef c with
    | Some r => if decide (r = cfg_ref cfg) then cache c else ∅
    | None => cache c
    end in
  {| cache := m; lastConfigRef := Some (cfg_ref cfg); ttlMs := ttlMs c |}.

(** [get(key, cfg)], with [now] the value of [Date.now()]. *)
Definition get (now : Z) (key : string) (cfg : ClawdbotConfig) (c : t)
  : option T * t :=
  let c := resetIfConfigChanged cfg c in
  match cache c !! key with
  | None => (None, c)
  | Some entry =>
      if now - fetchedAt entry >? ttlMs c
      then (None, withCache (delete key (cache c)) c)
      else (Some (value entry), c)
  end.

(** [set(key, value, cfg)], with [now] the value of [Date.now()]. *)
Definition set (now : Z) (key : string) (v : T) (cfg : ClawdbotConfig)
    (c : t) : t :=
  let c := resetIfConfigChanged cfg c in
  withCache (<[key := {| value := v; fetchedAt := now |}]> (cache c)) c.

(** [clearMatching(match)] *)
Definition clearMatching (matches : string -> bool) (c : t) : t :=
  withCache (filter (fun kv => matches kv.1 = false) (cache c)) c.

(** [clear(cfg?)] *)
Definition clear (cfg : option ClawdbotConfig) (c : t) : t :=
  {| cache := ∅;
     lastConfigRef :=
       match cfg with
       | Some g => Some (cfg_ref g)
       | None => lastConfigRef c
       end;
     ttlMs := ttlMs c |}.

(** The operations a client of the class can perform. *)
Inductive Op : Type :=
  | OpGet (now : Z) (key : string) (cfg : ClawdbotConfig)
  | OpSet (now : Z) (key : string) (v : T) (cfg : ClawdbotConfig)
  | OpClearMatching (matches : string -> bool)
  | OpClear (cfg : option ClawdbotConfig).

Definition runOp (o : Op) (c : t) : t :=
  match o with
  | OpGet now key cfg => (get now key cfg c).2
  | OpSet now key v cfg => set now key v cfg c
  | OpClearMatching f => clearMatching f c
  | OpClear cfg => clear cfg c
  end.

(** The states an instance can be in: a fresh instance, then any
    sequence of method calls. *)
Inductive reachable (ttl : Z) : t -> Prop :=
  | reach_new : reachable ttl (create ttl)
  | reach_op o c : reachable ttl c -> reachable ttl (runOp o c).

End Cache.

Arguments CacheEntry : clear implicits.
Arguments t : clear implicits.
Arguments Op : clear implicits.

End DirectoryCache.

(* ===================================================================== *)
(** * Values, completions and the collaborators outside the sources       *)
(* ===================================================================== *)

(** A JavaScript value, as far as the runner looks into one. *)
Inductive Value : Type :=
  | VUndefined
  | VNull
  | VBool (b : bool)
  | VNum (n : Z)
  | VStr (s : string)
  | VArr (items : list Value)
  | VObj (fields : list (string * Value)).

(** [Record<string, unknown>]: the parameter mapping of a request. *)
Abbreviation Params := (gmap string Value).

(** [params[key]]: a missing key reads as [undefined]. *)
Definition getParam (params : Params) (key : string) : Value :=
  default VUndefined (params !! key).

(** Truthiness of a value ([!v] is its negation). *)
Definition truthyValue (v : Value) : bool :=
  match v with
  | VUndefined | VNull => false
  | VBool b => b
  | VNum n => negb (n =? 0)
  | VStr s => Js.truthy s
  | VArr _ | VObj _ => true
  end.

(** How a call completes: normally with a value, or by throwing an [Error]
    with the given message (for a promise: by rejecting). *)
Inductive Completion (A : Type) : Type :=
  | Normal (a : A)
  | Throw (message : string).
Arguments Normal {A} a.
Arguments Throw {A} message.

(** The double quote character that the error messages contain. *)
Definition dquote : string := String (ascii_of_nat 34) EmptyString.

(** A (non-null) object that the runner only passes on. *)
Record JsObject : Type := { obj_fields : list (string * Value) }.

Definition ChannelThreadingToolContext := JsObject.
Definition OutboundSendDeps := JsObject.
Definition CrossContextDecoration := JsObject.
Definition MessageSendResult := JsObject.
Definition MessagePollResult := JsObject.

Record MessageActionRunnerGateway : Type := {
  gw_url : option string;
  gw_token : option string;
  gw_timeoutMs : option Z;
  gw_clientName : string;
  gw_clientDisplayName : option string;
  gw_mode : string
}.

Record ChannelDirectoryEntry : Type := {
  entry_kind : ChannelDirectoryEntryKind;
  entry_id : string;
  entry_name : option string;
  entry_handle : option string
}.

(** Argument of the directory listing functions of a channel plugin
    ([limit] is always [undefined]; the [runtime] used for logging is left
    out). *)
Record DirectoryListArgs : Type := {
  dl_cfg : ClawdbotConfig;
  dl_accountId : option string;
  dl_query : option string
}.

Inductive DirectoryFn : Type :=
  | listPeers | listPeersLive | listGroups | listGroupsLive.

#[global] Instance DirectoryFn_eq_dec : EqDecision DirectoryFn.
Proof. solve_decision. Defined.

(** [plugin.directory]: each listing function is optional. *)
Record ChannelDirectory (World : Type) : Type := {
  dir_listPeers :
    option (DirectoryListArgs -> World -> Completion (list ChannelDirectoryEntry) * World);
  dir_listPeersLive :
    option (DirectoryListArgs -> World -> Completion (list ChannelDirectoryEntry) * World);
  dir_listGroups :
    option (DirectoryListArgs -> World -> Completion (list ChannelDirectoryEntry) * World);
  dir_listGroupsLive :
    option (DirectoryListArgs -> World -> Completion (list ChannelDirectoryEntry) * World)
}.
Arguments dir_listPeers {World} _.
Arguments dir_listPeersLive {World} _.
Arguments dir_listGroups {World} _.
Arguments dir_listGroupsLive {World} _.

(** Options object of [readStringParam]; an option that is not passed is
    [None]. *)
Record ReadStringOpts : Type := {
  rs_required : option bool;
  rs_trim : option bool;
  rs_allowEmpty : option bool
}.
Definition noOpts : ReadStringOpts :=
  {| rs_required := None; rs_trim := None; rs_allowEmpty := None |}.

(** [AgentToolResult<unknown>] *)
Record AgentToolResult : Type := {
  tr_details : option Value;
  tr_content : option Value
}.

(** Result of [parseReplyDirectives]. *)
Record ReplyDirectives : Type := {
  rd_text : string;
  rd_replyToId : option string;
  rd_mediaUrls : option (list string);
  rd_mediaUrl : option string
}.

Record AppliedDecoration : Type := {
  ad_message : string;
  ad_embeds : option (list Value)
}.

Inductive HandledBy : Type := hb_plugin | hb_core | hb_dry_run.

Record BuildDecorationArgs : Type := {
  bd_cfg : ClawdbotConfig;
  bd_channel : ChannelId;
  bd_target : option string;
  bd_toolContext : ChannelThreadingToolContext;
  bd_accountId : option string
}.

(** The [ctx] object handed to the send, poll and plugin dispatch
    services. *)
Record DispatchCtx : Type := {
  dc_cfg : ClawdbotConfig;
  dc_channel : ChannelId;
  dc_params : Params;
  dc_accountId : option string;
  dc_gateway : option MessageActionRunnerGateway;
  dc_toolContext : option ChannelThreadingToolContext;
  dc_deps : option OutboundSendDeps;
  dc_dryRun : bool;
  (** [{ sessionKey, agentId }] *)
  dc_mirror : option (string * option string)
}.

Record ExecuteSendArgs : Type := {
  es_ctx : DispatchCtx;
  es_to : option string;
  es_message : string;
  es_mediaUrl : option string;
  es_gifPlayback : bool;
  es_bestEffort : option bool
}.

Record ExecuteSendResult : Type := {
  sr_handledBy : HandledBy;
  sr_payload : Value;
  sr_toolResult : option AgentToolResult;
  sr_sendResult : option MessageSendResult
}.

Record ExecutePollArgs : Type := {
  ep_ctx : DispatchCtx;
  ep_to : option string;
  ep_question : option string;
  ep_options : list string;
  ep_maxSelections : nat;
  ep_durationHours : option Z
}.

Record ExecutePollResult : Type := {
  pr_handledBy : HandledBy;
  pr_payload : Value;
  pr_toolResult : option AgentToolResult;
  pr_pollResult : option MessagePollResult
}.

Record DispatchActionArgs : Type := {
  da_channel : ChannelId;
  da_action : ChannelMessageActionName;
  da_cfg : ClawdbotConfig;
  da_params : Params;
  da_accountId : option string;
  da_gateway : option MessageActionRunnerGateway;
  da_toolContext : option ChannelThreadingToolContext;
  da_dryRun : bool
}.

(** Everything the sources import from modules that are not part of them.
    A function that performs I/O takes the outside world and returns the
    new one; a synchronous function that can throw returns a completion. *)
Class Externals : Type := {
  World : Type;
  (** [Date.now()] *)
  dateNow : World -> Z;
  (** [JSON.parse]; [None] is a [SyntaxError]. *)
  JSON_parse : string -> option Value;
  (** agents/pi-embedded-messaging *)
  normalizeTargetForProvider : ChannelId -> string -> option string;
  (** channels/plugins: [getChannelPlugin(channel)?.directory] *)
  getChannelPluginDirectory : ChannelId -> option (ChannelDirectory World);
  (** channels/plugins/message-actions; [None] is the [null] of an
      unhandled action. *)
  dispatchChannelMessageAction :
    DispatchActionArgs -> World -> Completion (option AgentToolResult) * World;
  (** outbound/channel-target *)
  normalizeChannelTargetInput : string -> string;
  applyTargetToParams :
    ChannelMessageActionName -> Params -> Completion Params;
  (** agents/tools/common *)
  readStringParam : Params -> string -> ReadStringOpts -> Completion (option string);
  (** called with [{ required: true }] only *)
  readStringArrayParam : Params -> string -> Completion (option (list string));
  (** called with [{ integer: true }] only *)
  readNumberParam : Params -> string -> Completion (option Z);
  (** auto-reply/reply/reply-directives *)
  parseReplyDirectives : string -> ReplyDirectives;
  (** outbound/channel-selection *)
  resolveMessageChannelSelection :
    ClawdbotConfig -> option string -> World -> Completion ChannelId * World;
  listConfiguredMessageChannels :
    ClawdbotConfig -> World -> Completion (list ChannelId) * World;
  (** outbound/outbound-policy *)
  shouldApplyCrossContextMarker : ChannelMessageActionName -> bool;
  buildCrossContextDecoration :
    BuildDecorationArgs -> World -> Completion (option CrossContextDecoration) * World;
  applyCrossContextDecoration :
    string -> CrossContextDecoration -> bool -> AppliedDecoration;
  enforceCrossContextPolicy :
    ChannelId -> ChannelMessageActionName -> Params ->
    option ChannelThreadingToolContext -> ClawdbotConfig -> Completion unit;
  (** outbound/outbound-send-service *)
  executeSendAction :
    ExecuteSendArgs -> World -> Completion ExecuteSendResult * World;
  executePollAction :
    ExecutePollArgs -> World -> Completion ExecutePollResult * World
}.

(** A call to a collaborator that the ghost log records. *)
Inductive Event : Type :=
  | EvDirectory (channel : ChannelId) (fn : DirectoryFn) (args : DirectoryListArgs)
  | EvSend (args : ExecuteSendArgs)
  | EvPoll (args : ExecutePollArgs)
  | EvDispatch (args : DispatchActionArgs).

Definition isDirectoryEvent (e : Event) : bool :=
  match e with EvDirectory _ _ _ => true | _ => false end.

Definition isDispatchEvent (e : Event) : bool :=
  match e with EvDirectory _ _ _ => false | _ => true end.

(** ** The state and the monad of the embedding *)

Section Monad.
Context `{E : Externals}.

(** [st_cache] is the module-level [directoryCache] of the resolver;
    [st_log] lists the collaborator calls made so far, latest first. *)
Record State : Type := {
  st_world : World;
  st_cache : DirectoryCache.t (list ChannelDirectoryEntry);
  st_log : list Event
}.

Definition M (A : Type) : Type := State -> Completion A * State.

Definition ret {A} (a : A) : M A := fun s => (Normal a, s).

Definition throw {A} (message : string) : M A := fun s => (Throw message, s).

Definition bind {A B} (m : M A) (k : A -> M B) : M B :=
  fun s =>
    match m s with
    | (Normal a, s') => k a s'
    | (Throw e, s') => (Throw e, s')
    end.

(** [try { body } catch (err) { handler(err.message) }] *)
Definition tryCatch {A} (body : M A) (handler : string -> M A) : M A :=
  fun s =>
    match body s with
    | (Normal a, s') => (Normal a, s')
    | (Throw e, s') => handler e s'
    end.

(** A synchronous call that may throw. *)
Definition lift {A} (c : Completion A) : M A := fun s => (c, s).

(** An awaited call to a collaborator; [ev] is what the log records. *)
Definition await {A} (ev : option Event)
    (call : World -> Completion A * World) : M A :=
  fun s =>
    let (r, w) := call (st_world s) in
    (r, {| st_world := w;
           st_cache := st_cache s;
           st_log := match ev with
                     | Some e => e :: st_log s
                     | None => st_log s
                     end |}).

(** The state with the shared cache replaced. *)
Definition setCache (c : DirectoryCache.t (list ChannelDirectoryEntry))
    (s : State) : State :=
  {| st_world := st_world s; st_cache := c; st_log := st_log s |}.

(** [directoryCache.get(key, cfg)] and [directoryCache.set(key, value, cfg)]
    on the shared cache, at the current time. *)
Definition cacheGet (key : string) (cfg : ClawdbotConfig)
  : M (option (list ChannelDirectoryEntry)) :=
  fun s =>
    let (r, c) := DirectoryCache.get (dateNow (st_world s)) key cfg (st_cache s) in
    (Normal r, setCache c s).

Definition cacheSet (key : string) (v : list ChannelDirectoryEntry)
    (cfg : ClawdbotConfig) : M unit :=
  fun s =>
    (Normal tt,
     setCache (DirectoryCache.set (dateNow (st_world s)) key v cfg (st_cache s)) s).

(** [for (const x of xs) { acc = body(acc, x) }] *)
Fixpoint forOf {A B} (body : B -> A -> M B) (xs : list A) (acc : B) : M B :=
  match xs with
  | [] => ret acc
  | x :: rest => bind (body acc x) (fun acc' => forOf body rest acc')
  end.

End Monad.

Declare Scope js_scope.
Delimit Scope js_scope with js.
Notation "x <- m ;; k" := (bind m (fun x => k))
  (at level 100, m at next level, right associativity) : js_scope.
Notation "m ;;; k" := (bind m (fun _ => k))
  (at level 100, right associativity) : js_scope.

Local Open Scope js_scope.

(* ===================================================================== *)
(** * The target resolver                                                 *)
(* ===================================================================== *)

Inductive TargetResolveKind : Type := trk_user | trk_group | trk_channel.

#[global] Instance TargetResolveKind_eq_dec : EqDecision TargetResolveKind.
Proof. solve_decision. Defined.

Inductive TargetSource : Type := from_normalized | from_directory.

Record ResolvedMessagingTarget : Type := {
  rt_to : string;
  rt_kind : TargetResolveKind;
  rt_display : option string;
  rt_source : TargetSource
}.

(** [{ ok: true, target }] or [{ ok: false, error, candidates? }] *)
Inductive ResolveMessagingTargetResult : Type :=
  | ResolveOk (target : ResolvedMessagingTarget)
  | ResolveFail (error : string) (candidates : option (list ChannelDirectoryEntry)).

Definition CACHE_TTL_MS : Z := 30 * 60 * 1000.

Definition normalizeQuery (value : string) : string :=
  Js.toLowerCase (Js.trim value).

(** [value.replace(/^(channel|group|user):/i, "").replace(/^[@#]/, "").trim()] *)
Definition stripTargetPrefixes (value : string) : string :=
  let v1 :=
    if Js.startsWithCI "channel:" value then Js.slice 8 value
    else if Js.startsWithCI "group:" value then Js.slice 6 value
    else if Js.startsWithCI "user:" value then Js.slice 5 value
    else value in
  let v2 :=
    if (Js.startsWith "@" v1 || Js.startsWith "#" v1)%bool
    then Js.slice 1 v1 else v1 in
  Js.trim v2.

Definition preserveTargetCase (channel : ChannelId) (raw normalized : string)
  : string :=
  if negb (String.eqb channel "slack") then normalized
  else
    let trimmed := Js.trim raw in
    if (Js.startsWithCI "channel:" trimmed || Js.startsWithCI "user:" trimmed)%bool
    then trimmed
    else if Js.startsWith "#" trimmed
    then "channel:" +:+ Js.trim (Js.slice 1 trimmed)
    else if Js.startsWith "@" trimmed
    then "user:" +:+ Js.trim (Js.slice 1 trimmed)
    else trimmed.

Definition detectTargetKind (raw : string) (preferred : option TargetResolveKind)
  : TargetResolveKind :=
  match preferred with
  | Some p => p
  | None =>
      let trimmed := Js.trim raw in
      if negb (Js.truthy trimmed) then trk_group
      else if (Js.startsWith "@" trimmed
               || Js.startsWith "<@" trimmed
               || Js.startsWithCI "user:" trimmed)%bool
      then trk_user
      else if (Js.startsWith "#" trimmed
               || Js.startsWithCI "channel:" trimmed
               || Js.startsWithCI "group:" trimmed)%bool
      then trk_group
      else trk_group
  end.

(** [/^\+?\d{3,}$/.test(s)] *)
Definition looksLikePhone (s : string) : bool :=
  Js.atLeast 3 Js.isDigit (if Js.startsWith "+" s then Js.slice 1 s else s).

Definition looksLikeId (channel : ChannelId) (normalized : string) : bool :=
  if negb (Js.truthy normalized) then false
  else
    let raw := Js.trim normalized in
    if String.eqb channel "discord" then
      let candidate := stripTargetPrefixes raw in
      Js.atLeast 6 Js.isDigit candidate
    else if String.eqb channel "slack" then
      let candidate := stripTargetPrefixes raw in
      Js.atLeast 8 Js.isAlnumCI candidate
    else if String.eqb channel "msteams" then
      (Js.startsWithCI "conversation:" raw
       || Js.startsWithCI "user:" raw
       || Js.includes "@thread" raw)%bool
    else if String.eqb channel "telegram" then
      (Js.startsWithCI "telegram:" raw || Js.startsWith "@" raw)%bool
    else if String.eqb channel "whatsapp" then
      let candidate := stripTargetPrefixes raw in
      (Js.includes "@" candidate
       || looksLikePhone candidate
       || Js.endsWith "@g.us" (Js.toLowerCase candidate))%bool
    else Js.truthy raw.

(** The outcome of [resolveMatch]. *)
Inductive MatchResult : Type :=
  | MatchNone
  | MatchSingle (entry : ChannelDirectoryEntry)
  | MatchAmbiguous (entries : list ChannelDirectoryEntry).

Section Resolver.
Context `{E : Externals}.

Definition normalizeDirectoryEntryId (channel : ChannelId)
    (entry : ChannelDirectoryEntry) : string :=
  default (Js.trim (entry_id entry))
          (normalizeTargetForProvider channel (entry_id entry)).

(** [field ? stripTargetPrefixes(field) : ""] *)
Definition strippedOrEmpty (field : option string) : string :=
  match field with
  | Some s => if Js.truthy s then stripTargetPrefixes s else ""
  | None => ""
  end.

Definition matchesDirectoryEntry (channel : ChannelId)
    (entry : ChannelDirectoryEntry) (query : string) : bool :=
  let query := normalizeQuery query in
  if negb (Js.truthy query) then false
  else
    let id := stripTargetPrefixes (normalizeDirectoryEntryId channel entry) in
    let name := strippedOrEmpty (entry_name entry) in
    let handle := strippedOrEmpty (entry_handle entry) in
    let candidates :=
      List.filter Js.truthy (List.map normalizeQuery [id; name; handle]) in
    existsb (fun value => (String.eqb value query || Js.includes query value)%bool)
            candidates.

Definition resolveMatch (channel : ChannelId)
    (entries : list ChannelDirectoryEntry) (query : string) : MatchResult :=
  let matches :=
    List.filter (fun entry => matchesDirectoryEntry channel entry query) entries in
  match matches with
  | [] => MatchNone
  | [entry] => MatchSingle entry
  | _ => MatchAmbiguous matches
  end.

(** The listing function [listDirectoryEntries] picks, with its tag. *)
Definition pickDirectoryFn (directory : ChannelDirectory World)
    (kind : ChannelDirectoryEntryKind) (useLive : bool)
  : option (DirectoryFn *
            (DirectoryListArgs -> World ->
             Completion (list ChannelDirectoryEntry) * World)) :=
  match kind with
  | k_user =>
      if useLive then
        match dir_listPeersLive directory with
        | Some f => Some (listPeersLive, f)
        | None => (fun f => (listPeers, f)) <$> dir_listPeers directory
        end
      else (fun f => (listPeers, f)) <$> dir_listPeers directory
  | k_group =>
      if useLive then
        match dir_listGroupsLive directory with
        | Some f => Some (listGroupsLive, f)
        | None => (fun f => (listGroups, f)) <$> dir_listGroups directory
        end
      else (fun f => (listGroups, f)) <$> dir_listGroups directory
  end.

Definition listDirectoryEntries (cfg : ClawdbotConfig) (channel : ChannelId)
    (accountId : option string) (kind : ChannelDirectoryEntryKind)
    (query : option string) (source : DirectoryCache.Source)
  : M (list ChannelDirectoryEntry) :=
  match getChannelPluginDirectory channel with
  | None => ret []
  | Some directory =>
      let useLive :=
        match source with
        | DirectoryCache.src_live => true
        | DirectoryCache.src_cache => false
        end in
      match pickDirectoryFn directory kind useLive with
      | None => ret []
      | Some (tag, fn) =>
          let args :=
            {| dl_cfg := cfg; dl_accountId := accountId; dl_query := query |} in
          await (Some (EvDirectory channel tag args)) (fn args)
      end
  end.

Definition getDirectoryEntries (cfg : ClawdbotConfig) (channel : ChannelId)
    (accountId : option string) (kind : ChannelDirectoryEntryKind)
    (query : option string) (preferLiveOnMiss : bool)
  : M (list ChannelDirectoryEntry) :=
  let cacheKey :=
    DirectoryCache.buildDirectoryCacheKey
      {| DirectoryCache.channel := channel;
         DirectoryCache.accountId := accountId;
         DirectoryCache.kind := kind;
         DirectoryCache.source := DirectoryCache.src_cache |} in
  cached <- cacheGet cacheKey cfg ;;
  match cached with
  | Some entries => ret entries
  | None =>
      entries <- listDirectoryEntries cfg channel accountId kind query
                   DirectoryCache.src_cache ;;
      if ((0 <? length entries)%nat || negb preferLiveOnMiss)%bool then
        cacheSet cacheKey entries cfg ;;;
        ret entries
      else
        let liveKey :=
          DirectoryCache.buildDirectoryCacheKey
            {| DirectoryCache.channel := channel;
               DirectoryCache.accountId := accountId;
               DirectoryCache.kind := kind;
               DirectoryCache.source := DirectoryCache.src_live |} in
        liveEntries <- listDirectoryEntries cfg channel accountId kind query
                         DirectoryCache.src_live ;;
        cacheSet liveKey liveEntries cfg ;;;
        ret liveEntries
  end.

Definition resolveMessagingTarget (cfg : ClawdbotConfig) (channel : ChannelId)
    (input : string) (accountId : option string)
    (preferredKind : option TargetResolveKind)
  : M ResolveMessagingTargetResult :=
  let raw := normalizeChannelTargetInput input in
  if negb (Js.truthy raw) then
    ret (ResolveFail "Target is required" None)
  else
    let kind := detectTargetKind raw preferredKind in
    let normalized := default raw (normalizeTargetForProvider channel raw) in
    if looksLikeId channel normalized then
      let directTarget := preserveTargetCase channel raw normalized in
      ret (ResolveOk {| rt_to := directTarget;
                        rt_kind := kind;
                        rt_display := Some (stripTargetPrefixes raw);
                        rt_source := from_normalized |})
    else
      let query := stripTargetPrefixes raw in
      entries <- getDirectoryEntries cfg channel accountId
                   (if decide (kind = trk_user) then k_user else k_group)
                   (Some query) true ;;
      match resolveMatch channel entries query with
      | MatchSingle entry =>
          ret (ResolveOk
                 {| rt_to := normalizeDirectoryEntryId channel entry;
                    rt_kind := kind;
                    rt_display :=
                      Some (match entry_name entry with
                            | Some n => n
                            | None =>
                                match entry_handle entry with
                                | Some h => h
                                | None => stripTargetPrefixes (entry_id entry)
                                end
                            end);
                    rt_source := from_directory |})
      | MatchAmbiguous entries =>
          ret (ResolveFail
                 ("Ambiguous target " +:+ dquote +:+ raw +:+ dquote
                    +:+ ". Provide a unique name or an explicit id.")
                 (Some entries))
      | MatchNone =>
          ret (ResolveFail
                 ("Unknown target " +:+ dquote +:+ raw +:+ dquote
                    +:+ " for " +:+ channel +:+ ".")
                 None)
      end.

Definition resolveChannelTarget := resolveMessagingTarget.

(** [lookupDirectoryDisplay]: the label of a known id, from the cached
    snapshot only. *)
Definition lookupDirectoryDisplay (cfg : ClawdbotConfig) (channel : ChannelId)
    (targetId : string) (accountId : option string) : M (option string) :=
  let normalized := default targetId (normalizeTargetForProvider channel targetId) in
  candidates <- getDirectoryEntries cfg channel accountId k_group None false ;;
  let entry :=
    List.find (fun candidate =>
                 String.eqb (normalizeDirectoryEntryId channel candidate) normalized)
              candidates in
  ret (match entry with
       | Some e =>
           match entry_name e with
           | Some n => Some n
           | None => entry_handle e
           end
       | None => None
       end).

(** [resetDirectoryCache(params?)] *)
Definition resetDirectoryCache (channel : option ChannelId)
    (accountId : option string) : M unit :=
  fun s =>
    let c :=
      match channel with
      | Some channelKey =>
          if Js.truthy channelKey then
            let accountKey := default "default" accountId in
            DirectoryCache.clearMatching
              (fun key =>
                 if negb (Js.startsWith (channelKey +:+ ":") key) then false
                 else if negb (from_option Js.truthy false accountId) then true
                 else Js.startsWith (channelKey +:+ ":" +:+ accountKey +:+ ":") key)
              (st_cache s)
          else DirectoryCache.clear None (st_cache s)
      | None => DirectoryCache.clear None (st_cache s)
      end in
    (Normal tt, setCache c s).

End Resolver.

(* ===================================================================== *)
(** * The message action runner                                           *)
(* ===================================================================== *)

Record RunMessageActionParams : Type := {
  in_cfg : ClawdbotConfig;
  in_action : ChannelMessageActionName;
  in_params : Params;
  in_defaultAccountId : option string;
  in_toolContext : option ChannelThreadingToolContext;
  in_gateway : option MessageActionRunnerGateway;
  in_deps : option OutboundSendDeps;
  in_sessionKey : option string;
  in_agentId : option string;
  in_dryRun : option bool
}.

(** [{ ...input, action, params }] *)
Definition withActionParams (input : RunMessageActionParams)
    (action : ChannelMessageActionName) (params : Params)
  : RunMessageActionParams :=
  {| in_cfg := in_cfg input;
     in_action := action;
     in_params := params;
     in_defaultAccountId := in_defaultAccountId input;
     in_toolContext := in_toolContext input;
     in_gateway := in_gateway input;
     in_deps := in_deps input;
     in_sessionKey := in_sessionKey input;
     in_agentId := in_agentId input;
     in_dryRun := in_dryRun input |}.

(** The request with its [dryRun] field replaced. *)
Definition withDryRun (input : RunMessageActionParams) (flag : option bool)
  : RunMessageActionParams :=
  {| in_cfg := in_cfg input;
     in_action := in_action input;
     in_params := in_params input;
     in_defaultAccountId := in_defaultAccountId input;
     in_toolContext := in_toolContext input;
     in_gateway := in_gateway input;
     in_deps := in_deps input;
     in_sessionKey := in_sessionKey input;
     in_agentId := in_agentId input;
     in_dryRun := flag |}.

(** One element of [payload.results] of a broadcast. *)
Record BroadcastOutcome : Type := {
  bo_channel : ChannelId;
  bo_to : string;
  bo_ok : bool;
  bo_error : option string;
  bo_result : option MessageSendResult
}.

Inductive MessageActionRunResult : Type :=
  | RunSend (channel : ChannelId) (to : option string) (handledBy : HandledBy)
      (payload : Value) (toolResult : option AgentToolResult)
      (sendResult : option MessageSendResult) (dryRun : bool)
  | RunBroadcast (channel : ChannelId) (handledBy : HandledBy)
      (results : list BroadcastOutcome) (dryRun : bool)
  | RunPoll (channel : ChannelId) (to : option string) (handledBy : HandledBy)
      (payload : Value) (toolResult : option AgentToolResult)
      (pollResult : option MessagePollResult) (dryRun : bool)
  | RunAction (channel : ChannelId) (action : ChannelMessageActionName)
      (handledBy : HandledBy) (payload : Value)
      (toolResult : option AgentToolResult) (dryRun : bool).

Record ResolvedActionContext : Type := {
  rc_cfg : ClawdbotConfig;
  rc_params : Params;
  rc_channel : ChannelId;
  rc_accountId : option string;
  rc_dryRun : bool;
  rc_gateway : option MessageActionRunnerGateway;
  rc_input : RunMessageActionParams
}.

(** The context with its resolved [dryRun] flag replaced. *)
Definition ctxWithDryRun (ctx : ResolvedActionContext) (flag : bool)
  : ResolvedActionContext :=
  {| rc_cfg := rc_cfg ctx;
     rc_params := rc_params ctx;
     rc_channel := rc_channel ctx;
     rc_accountId := rc_accountId ctx;
     rc_dryRun := flag;
     rc_gateway := rc_gateway ctx;
     rc_input := rc_input ctx |}.

(** Truthiness of an optional string ([undefined] is falsy). *)
Definition truthyOpt (o : option string) : bool := from_option Js.truthy false o.

(** [obj.key] on the fields of an object literal. *)
Fixpoint lookupField (key : string) (fields : list (string * Value)) : option Value :=
  match fields with
  | [] => None
  | (k, v) :: rest => if String.eqb k key then Some v else lookupField key rest
  end.

Definition isTextBlock (block : Value) : bool :=
  match block with
  | VObj fields =>
      match lookupField "type" fields, lookupField "text" fields with
      | Some (VStr ty), Some (VStr _) => String.eqb ty "text"
      | _, _ => false
      end
  | _ => false
  end.

(** The result object itself, as a value. *)
Definition toolResultValue (result : AgentToolResult) : Value :=
  VObj (from_option (fun v => [("content", v)]) [] (tr_content result)
        ++ from_option (fun v => [("details", v)]) [] (tr_details result)).

Definition readBooleanParam (params : Params) (key : string) : option bool :=
  match getParam params key with
  | VBool b => Some b
  | VStr raw =>
      let trimmed := Js.toLowerCase (Js.trim raw) in
      if String.eqb trimmed "true" then Some true
      else if String.eqb trimmed "false" then Some false
      else None
  | _ => None
  end.

(** [typeof v === "string" && v.trim()] as a boolean. *)
Definition nonBlankString (v : Value) : bool :=
  match v with
  | VStr s => Js.truthy (Js.trim s)
  | _ => false
  end.

Definition resolveGateway (input : RunMessageActionParams)
  : option MessageActionRunnerGateway :=
  match in_gateway input with
  | None => None
  | Some g =>
      Some {| gw_url := gw_url g;
              gw_token := gw_token g;
              gw_timeoutMs := gw_timeoutMs g;
              gw_clientName := gw_clientName g;
              gw_clientDisplayName := gw_clientDisplayName g;
              gw_mode := gw_mode g |}
  end.

Section Runner.
Context `{E : Externals}.

Definition extractToolPayload (result : AgentToolResult) : Value :=
  let contentOrResult :=
    match tr_content result with
    | Some VUndefined | Some VNull | None => toolResultValue result
    | Some c => c
    end in
  let details :=
    match tr_details result with
    | Some VUndefined | None => None
    | Some d => Some d
    end in
  match details with
  | Some d => d
  | None =>
      let textBlock :=
        match tr_content result with
        | Some (VArr blocks) => List.find isTextBlock blocks
        | _ => None
        end in
      let text :=
        match textBlock with
        | Some (VObj fields) =>
            match lookupField "text" fields with
            | Some (VStr t) => Some t
            | _ => None
            end
        | _ => None
        end in
      match text with
      | Some t =>
          if Js.truthy t then default (VStr t) (JSON_parse t)
          else contentOrResult
      | None => contentOrResult
      end
  end.

(** Returns the decorated message and the updated [params]. *)
Definition applyCrossContextMessageDecoration (params : Params)
    (message : string) (decoration : CrossContextDecoration)
    (preferEmbeds : bool) : string * Params :=
  let applied := applyCrossContextDecoration message decoration preferEmbeds in
  let params := <["message" := VStr (ad_message applied)]> params in
  let params :=
    match ad_embeds applied with
    | Some (e :: es) => <["embeds" := VArr (e :: es)]> params
    | _ => params
    end in
  (ad_message applied, params).

Definition parseButtonsParam (params : Params) : Completion Params :=
  match getParam params "buttons" with
  | VStr raw =>
      let trimmed := Js.trim raw in
      if negb (Js.truthy trimmed) then Normal (delete "buttons" params)
      else
        match JSON_parse trimmed with
        | Some v => Normal (<["buttons" := v]> params)
        | None => Throw "--buttons must be valid JSON"
        end
  | _ => Normal params
  end.

Definition resolveChannel (cfg : ClawdbotConfig) (params : Params)
  : M ChannelId :=
  channelHint <- lift (readStringParam params "channel" noOpts) ;;
  await None (resolveMessageChannelSelection cfg channelHint).

(** Returns the updated [args]. *)
Definition resolveActionTarget (cfg : ClawdbotConfig) (channel : ChannelId)
    (action : ChannelMessageActionName) (args : Params)
    (accountId : option string) : M Params :=
  let toRaw :=
    match getParam args "to" with VStr s => Js.trim s | _ => "" end in
  args <-
    (if Js.truthy toRaw then
       resolved <- resolveChannelTarget cfg channel toRaw accountId None ;;
       match resolved with
       | ResolveOk target => ret (<["to" := VStr (rt_to target)]> args)
       | ResolveFail error _ => throw error
       end
     else ret args) ;;
  let channelIdRaw :=
    match getParam args "channelId" with VStr s => Js.trim s | _ => "" end in
  if Js.truthy channelIdRaw then
    resolved <- resolveChannelTarget cfg channel channelIdRaw accountId
                  (Some trk_group) ;;
    match resolved with
    | ResolveOk target =>
        if decide (rt_kind target = trk_user) then
          throw ("Channel id " +:+ dquote +:+ channelIdRaw +:+ dquote
                   +:+ " resolved to a user target.")
        else
          let to := rt_to target in
          let stripped :=
            if Js.startsWithCI "channel:" to then Js.slice 8 to
            else if Js.startsWithCI "group:" to then Js.slice 6 to
            else to in
          ret (<["channelId" := VStr stripped]> args)
    | ResolveFail error _ => throw error
    end
  else ret args.

(** [cond && input.toolContext ? await buildCrossContextDecoration(..) : null] *)
Definition decorationFor (action : ChannelMessageActionName)
    (ctx : ResolvedActionContext) (to : option string)
  : M (option CrossContextDecoration) :=
  match shouldApplyCrossContextMarker action, in_toolContext (rc_input ctx) with
  | true, Some toolContext =>
      await None
        (buildCrossContextDecoration
           {| bd_cfg := rc_cfg ctx;
              bd_channel := rc_channel ctx;
              bd_target := to;
              bd_toolContext := toolContext;
              bd_accountId := rc_accountId ctx |})
  | _, _ => ret None
  end.

Definition handleSendAction (ctx : ResolvedActionContext)
  : M MessageActionRunResult :=
  let params := rc_params ctx in
  let input := rc_input ctx in
  let action := a_send in
  to <- lift (readStringParam params "to"
                {| rs_required := Some true; rs_trim := None;
                   rs_allowEmpty := None |}) ;;
  mediaHint <- lift (readStringParam params "media"
                       {| rs_required := None; rs_trim := Some false;
                          rs_allowEmpty := None |}) ;;
  message <- lift (readStringParam params "message"
                     {| rs_required := Some (negb (truthyOpt mediaHint));
                        rs_trim := None;
                        rs_allowEmpty := Some true |}) ;;
  let message := default "" message in
  let parsed := parseReplyDirectives message in
  let message := rd_text parsed in
  let params := <["message" := VStr message]> params in
  let params :=
    match rd_replyToId parsed with
    | Some replyToId =>
        if (negb (truthyValue (getParam params "replyTo"))
            && Js.truthy replyToId)%bool
        then <["replyTo" := VStr replyToId]> params
        else params
    | None => params
    end in
  let params :=
    if negb (truthyValue (getParam params "media")) then
      let first := mediaUrls ← rd_mediaUrls parsed; head mediaUrls in
      <["media" :=
          if truthyOpt first then VStr (default "" first)
          else if truthyOpt (rd_mediaUrl parsed)
               then VStr (default "" (rd_mediaUrl parsed))
               else VUndefined]> params
    else params in
  decoration <- decorationFor action ctx to ;;
  let '(message, params) :=
    match decoration with
    | Some d => applyCrossContextMessageDecoration params message d true
    | None => (message, params)
    end in
  mediaUrl <- lift (readStringParam params "media"
                      {| rs_required := None; rs_trim := Some false;
                         rs_allowEmpty := None |}) ;;
  let gifPlayback := default false (readBooleanParam params "gifPlayback") in
  let bestEffort := readBooleanParam params "bestEffort" in
  let args :=
    {| es_ctx :=
         {| dc_cfg := rc_cfg ctx;
            dc_channel := rc_channel ctx;
            dc_params := params;
            dc_accountId := rc_accountId ctx;
            dc_gateway := rc_gateway ctx;
            dc_toolContext := in_toolContext input;
            dc_deps := in_deps input;
            dc_dryRun := rc_dryRun ctx;
            dc_mirror :=
              match in_sessionKey input with
              | Some sessionKey =>
                  if (Js.truthy sessionKey && negb (rc_dryRun ctx))%bool
                  then Some (sessionKey, in_agentId input)
                  else None
              | None => None
              end |};
       es_to := to;
       es_message := message;
       es_mediaUrl := if truthyOpt mediaUrl then mediaUrl else None;
       es_gifPlayback := gifPlayback;
       es_bestEffort := bestEffort |} in
  send <- await (Some (EvSend args)) (executeSendAction args) ;;
  ret (RunSend (rc_channel ctx) to (sr_handledBy send) (sr_payload send)
         (sr_toolResult send) (sr_sendResult send) (rc_dryRun ctx)).

Definition handlePollAction (ctx : ResolvedActionContext)
  : M MessageActionRunResult :=
  let params := rc_params ctx in
  let input := rc_input ctx in
  let action := a_poll in
  to <- lift (readStringParam params "to"
                {| rs_required := Some true; rs_trim := None;
                   rs_allowEmpty := None |}) ;;
  question <- lift (readStringParam params "pollQuestion"
                      {| rs_required := Some true; rs_trim := None;
                         rs_allowEmpty := None |}) ;;
  options <- lift (readStringArrayParam params "pollOption") ;;
  let options := default [] options in
  if (length options <? 2)%nat then
    throw "pollOption requires at least two values"
  else
    let allowMultiselect := default false (readBooleanParam params "pollMulti") in
    durationHours <- lift (readNumberParam params "pollDurationHours") ;;
    let maxSelections :=
      if allowMultiselect then Nat.max 2 (length options) else 1%nat in
    decoration <- decorationFor action ctx to ;;
    let params :=
      match decoration with
      | Some d =>
          let base :=
            match getParam params "message" with VStr m => m | _ => "" end in
          (applyCrossContextMessageDecoration params base d true).2
      | None => params
      end in
    let args :=
      {| ep_ctx :=
           {| dc_cfg := rc_cfg ctx;
              dc_channel := rc_channel ctx;
              dc_params := params;
              dc_accountId := rc_accountId ctx;
              dc_gateway := rc_gateway ctx;
              dc_toolContext := in_toolContext input;
              dc_deps := None;
              dc_dryRun := rc_dryRun ctx;
              dc_mirror := None |};
         ep_to := to;
         ep_question := question;
         ep_options := options;
         ep_maxSelections := maxSelections;
         ep_durationHours := durationHours |} in
    poll <- await (Some (EvPoll args)) (executePollAction args) ;;
    ret (RunPoll (rc_channel ctx) to (pr_handledBy poll) (pr_payload poll)
           (pr_toolResult poll) (pr_pollResult poll) (rc_dryRun ctx)).

Definition handlePluginAction (ctx : ResolvedActionContext)
  : M MessageActionRunResult :=
  let channel := rc_channel ctx in
  let action := in_action (rc_input ctx) in
  if rc_dryRun ctx then
    ret (RunAction channel action hb_dry_run
           (VObj [("ok", VBool true); ("dryRun", VBool true);
                  ("channel", VStr channel);
                  ("action", VStr (ActionSpec.actionName action))])
           None true)
  else
    let args :=
      {| da_channel := channel;
         da_action := action;
         da_cfg := rc_cfg ctx;
         da_params := rc_params ctx;
         da_accountId := rc_accountId ctx;
         da_gateway := rc_gateway ctx;
         da_toolContext := in_toolContext (rc_input ctx);
         da_dryRun := rc_dryRun ctx |} in
    handled <- await (Some (EvDispatch args)) (dispatchChannelMessageAction args) ;;
    match handled with
    | None =>
        throw ("Message action " +:+ ActionSpec.actionName action
                 +:+ " not supported for channel " +:+ channel +:+ ".")
    | Some result =>
        ret (RunAction channel action hb_plugin (extractToolPayload result)
               (Some result) (rc_dryRun ctx))
    end.

End Runner.

Section Orchestrator.
Context `{E : Externals}.

(** The body of the two loops of [handleBroadcastAction]: the [try] block
    and its [catch], yielding the element pushed onto [results].  [self] is
    [runMessageAction]. *)
Definition broadcastPair (self : RunMessageActionParams -> M MessageActionRunResult)
    (input : RunMessageActionParams) (params : Params)
    (targetChannel : ChannelId) (target : string) : M BroadcastOutcome :=
  tryCatch
    (resolved <- resolveChannelTarget (in_cfg input) targetChannel target None None ;;
     match resolved with
     | ResolveFail error _ => throw error
     | ResolveOk resolvedTarget =>
         sendResult <-
           self (withActionParams input a_send
                   (<["target" := VStr (rt_to resolvedTarget)]>
                      (<["channel" := VStr targetChannel]> params))) ;;
         ret {| bo_channel := targetChannel;
                bo_to := rt_to resolvedTarget;
                bo_ok := true;
                bo_error := None;
                bo_result :=
                  match sendResult with
                  | RunSend _ _ _ _ _ sendResult _ => sendResult
                  | _ => None
                  end |}
     end)
    (fun err =>
       ret {| bo_channel := targetChannel;
              bo_to := target;
              bo_ok := false;
              bo_error := Some err;
              bo_result := None |}).

(** The nested [for ... of] loops, [results] being the array built so far. *)
Definition broadcastLoop (self : RunMessageActionParams -> M MessageActionRunResult)
    (input : RunMessageActionParams) (params : Params)
    (targetChannels : list ChannelId) (rawTargets : list string)
  : M (list BroadcastOutcome) :=
  forOf
    (fun results targetChannel =>
       forOf
         (fun results target =>
            outcome <- broadcastPair self input params targetChannel target ;;
            ret ((results ++ [outcome])%list))
         rawTargets results)
    targetChannels [].

(** The statements of [handleBroadcastAction] before its loops: the
    feature gate, then [rawTargets] and [targetChannels]. *)
Definition broadcastPlan (input : RunMessageActionParams) (params : Params)
  : M (list string * list ChannelId) :=
  let broadcastEnabled :=
    match cfg_broadcast_enabled (in_cfg input) with
    | Some false => false
    | _ => true
    end in
  if negb broadcastEnabled then
    throw "Broadcast is disabled. Set tools.message.broadcast.enabled to true."
  else
    rawTargets <- lift (readStringArrayParam params "targets") ;;
    let rawTargets := default [] rawTargets in
    if (length rawTargets =? 0)%nat then
      throw "Broadcast requires at least one target in --targets."
    else
      channelHint <- lift (readStringParam params "channel" noOpts) ;;
      configured <- await None (listConfiguredMessageChannels (in_cfg input)) ;;
      if (length configured =? 0)%nat then
        throw "Broadcast requires at least one configured channel."
      else
        targetChannels <-
          match channelHint with
          | Some hint =>
              if (Js.truthy hint
                  && negb (String.eqb (Js.toLowerCase (Js.trim hint)) "all"))%bool
              then
                channel <- resolveChannel (in_cfg input)
                             {[ "channel" := VStr hint ]} ;;
                ret [channel]
              else ret configured
          | None => ret configured
          end ;;
        ret (rawTargets, targetChannels).

Definition handleBroadcastActionWith
    (self : RunMessageActionParams -> M MessageActionRunResult)
    (input : RunMessageActionParams) (params : Params)
  : M MessageActionRunResult :=
  plan <- broadcastPlan input params ;;
  let '(rawTargets, targetChannels) := plan in
  results <- broadcastLoop self input params targetChannels rawTargets ;;
  ret (RunBroadcast
         (List.hd "discord" targetChannels)
         (if default false (in_dryRun input) then hb_dry_run else hb_core)
         results
         (default false (in_dryRun input))).

(** [runMessageAction], with the handler of the [broadcast] action as a
    parameter. *)
Definition runMessageActionWith
    (broadcast : RunMessageActionParams -> Params -> M MessageActionRunResult)
    (input : RunMessageActionParams) : M MessageActionRunResult :=
  let cfg := in_cfg input in
  params <- lift (parseButtonsParam (in_params input)) ;;
  let action := in_action input in
  if decide (action = a_broadcast) then broadcast input params
  else
    params <- lift (applyTargetToParams action params) ;;
    (if ActionSpec.actionRequiresTarget action then
       let hasTarget :=
         (nonBlankString (getParam params "to")
          || nonBlankString (getParam params "channelId"))%bool in
       if negb hasTarget then
         throw ("Action " +:+ ActionSpec.actionName action
                  +:+ " requires a target.")
       else ret tt
     else ret tt) ;;;
    channel <- resolveChannel cfg params ;;
    accountId <- lift (readStringParam params "accountId" noOpts) ;;
    let accountId :=
      match accountId with
      | Some a => Some a
      | None => in_defaultAccountId input
      end in
    let dryRun :=
      match in_dryRun input with
      | Some flag => flag
      | None => default false (readBooleanParam params "dryRun")
      end in
    params <- resolveActionTarget cfg channel action params accountId ;;
    lift (enforceCrossContextPolicy channel action params
            (in_toolContext input) cfg) ;;;
    let gateway := resolveGateway input in
    let ctx :=
      {| rc_cfg := cfg;
         rc_params := params;
         rc_channel := channel;
         rc_accountId := accountId;
         rc_dryRun := dryRun;
         rc_gateway := gateway;
         rc_input := input |} in
    if decide (action = a_send) then handleSendAction ctx
    else if decide (action = a_poll) then handlePollAction ctx
    else handlePluginAction ctx.

(** The recursion of the source is one level deep: [handleBroadcastAction]
    calls [runMessageAction] with the action [send] only, and that call
    never reaches the broadcast handler again.  [runSingleAction] is
    [runMessageAction] for these calls; [runMessageAction_unfold] below
    shows that the definitions satisfy the recursive equations of the
    source. *)
Definition runSingleAction : RunMessageActionParams -> M MessageActionRunResult :=
  runMessageActionWith
    (fun _ _ => throw "unreachable: nested broadcast").

Definition handleBroadcastAction
  : RunMessageActionParams -> Params -> M MessageActionRunResult :=
  handleBroadcastActionWith runSingleAction.

Definition runMessageAction
  : RunMessageActionParams -> M MessageActionRunResult :=
  runMessageActionWith handleBroadcastAction.

End Orchestrator.

(* ===================================================================== *)
(** * A closed instance of the collaborators, used to run the embedding   *)
(* ===================================================================== *)

(** The channels [discord] and [slack] are configured.  The outside world is
    a clock; every awaited call takes a few milliseconds.  The discord
    directory lists one user and three groups, the slack directory exists
    and is empty. *)
Module Demo.

Definition entry (k : ChannelDirectoryEntryKind) (id name : string)
  : ChannelDirectoryEntry :=
  {| entry_kind := k; entry_id := id; entry_name := Some name;
     entry_handle := None |}.

Definition general := entry k_group "channel:100000000000000001" "general".
Definition generalDev := entry k_group "channel:100000000000000002" "general-dev".
Definition random := entry k_group "channel:100000000000000003" "random".
Definition alice := entry k_user "user:200000000000000001" "alice".

Definition listing (entries : list ChannelDirectoryEntry)
  : DirectoryListArgs -> Z -> Completion (list ChannelDirectoryEntry) * Z :=
  fun _ w => (Normal entries, w + 7).

Definition discordDirectory : ChannelDirectory Z :=
  {| dir_listPeers := Some (listing [alice]);
     dir_listPeersLive := None;
     dir_listGroups := Some (listing [general; generalDev; random]);
     dir_listGroupsLive := Some (listing [general; generalDev; random]) |}.

Definition slackDirectory : ChannelDirectory Z :=
  {| dir_listPeers := Some (listing []);
     dir_listPeersLive := Some (listing []);
     dir_listGroups := Some (listing []);
     dir_listGroupsLive := Some (listing []) |}.

Definition readString (params : Params) (key : string) (opts : ReadStringOpts)
  : Completion (option string) :=
  let required := default false (rs_required opts) in
  let missing : Completion (option string) :=
    if required then Throw (key +:+ " required") else Normal None in
  match getParam params key with
  | VStr raw =>
      let value := if default true (rs_trim opts) then Js.trim raw else raw in
      if (negb (Js.truthy value) && negb (default false (rs_allowEmpty opts)))%bool
      then missing
      else Normal (Some value)
  | _ => missing
  end.

Definition stringsOf (items : list Value) : list string :=
  omap (fun v => match v with VStr s => Some s | _ => None end) items.

Definition readStringArray (params : Params) (key : string)
  : Completion (option (list string)) :=
  match getParam params key with
  | VArr items => Normal (Some (stringsOf items))
  | VStr s => Normal (Some [s])
  | _ => Throw (key +:+ " required")
  end.

Definition applyTarget (action : ChannelMessageActionName) (params : Params)
  : Completion Params :=
  match getParam params "target" with
  | VStr target =>
      match ActionSpec.lookupMode ActionSpec.MESSAGE_ACTION_TARGET_MODE action with
      | Some ActionSpec.to => Normal (<["to" := VStr target]> (delete "target" params))
      | Some ActionSpec.channelId =>
          Normal (<["channelId" := VStr target]> (delete "target" params))
      | _ => Normal params
      end
  | _ => Normal params
  end.

Definition selectChannel (cfg : ClawdbotConfig) (hint : option string) (w : Z)
  : Completion ChannelId * Z :=
  match hint with
  | Some h =>
      if (String.eqb h "discord" || String.eqb h "slack")%bool
      then (Normal h, w + 1)
      else (Throw ("Unknown channel: " +:+ h), w + 1)
  | None => (Throw "Channel is required when multiple channels are configured", w + 1)
  end.

#[export] Instance externals : Externals :=
  {| World := Z;
     dateNow := fun w => w;
     JSON_parse := fun s => if String.eqb s "[]" then Some (VArr []) else None;
     normalizeTargetForProvider := fun _ _ => None;
     getChannelPluginDirectory := fun channel =>
       if String.eqb channel "discord" then Some discordDirectory
       else if String.eqb channel "slack" then Some slackDirectory
       else None;
     dispatchChannelMessageAction := fun _ w => (Normal None, w + 3);
     normalizeChannelTargetInput := Js.trim;
     applyTargetToParams := applyTarget;
     readStringParam := readString;
     readStringArrayParam := readStringArray;
     readNumberParam := fun params key =>
       Normal (match getParam params key with VNum n => Some n | _ => None end);
     parseReplyDirectives := fun text =>
       {| rd_text := text; rd_replyToId := None; rd_mediaUrls := None;
          rd_mediaUrl := None |};
     resolveMessageChannelSelection := selectChannel;
     listConfiguredMessageChannels := fun _ w => (Normal ["discord"; "slack"], w + 1);
     shouldApplyCrossContextMarker := fun _ => false;
     buildCrossContextDecoration := fun _ w => (Normal None, w + 1);
     applyCrossContextDecoration := fun message _ _ =>
       {| ad_message := message; ad_embeds := None |};
     enforceCrossContextPolicy := fun _ _ _ _ _ => Normal tt;
     executeSendAction := fun args w =>
       (Normal {| sr_handledBy := hb_core;
                  sr_payload := VObj [("ok", VBool true)];
                  sr_toolResult := None;
                  sr_sendResult := Some {| obj_fields := [("ok", VBool true)] |} |},
        w + 5);
     executePollAction := fun args w =>
       (Normal {| pr_handledBy := hb_core;
                  pr_payload := VObj [("ok", VBool true)];
                  pr_toolResult := None;
                  pr_pollResult := None |},
        w + 5) |}.

Definition cfg1 : ClawdbotConfig :=
  {| cfg_ref := 1; cfg_broadcast_enabled := None |}.

(** A second configuration object with the same content. *)
Definition cfg2 : ClawdbotConfig :=
  {| cfg_ref := 2; cfg_broadcast_enabled := None |}.

(** The state of a fresh process at time [now]. *)
Definition start (now : Z) : State :=
  {| st_world := now;
     st_cache := DirectoryCache.create CACHE_TTL_MS;
     st_log := [] |}.

Definition minutes (n : Z) : Z := n * 60 * 1000.

(** The same process, at a later time. *)
Definition later (now : Z) (s : State) : State :=
  {| st_world := now; st_cache := st_cache s; st_log := st_log s |}.

Definition request (action : ChannelMessageActionName) (params : Params)
    (dryRun : option bool) : RunMessageActionParams :=
  {| in_cfg := cfg1;
     in_action := action;
     in_params := params;
     in_defaultAccountId := None;
     in_toolContext := None;
     in_gateway := None;
     in_deps := None;
     in_sessionKey := Some "session";
     in_agentId := None;
     in_dryRun := dryRun |}.

(** A broadcast of two targets to the two configured channels: the
    identifier resolves on both, the name is unknown on both. *)
Definition broadcastParams : Params :=
  {[ "targets" := VArr [VStr "123456789"; VStr "nobody"];
     "message" := VStr "hi" ]}.

Definition broadcastRequest : RunMessageActionParams :=
  request a_broadcast broadcastParams None.

(** A broadcast with a channel hint that names no channel. *)
Definition hintedParams : Params :=
  {[ "targets" := VArr [VStr "123456789"]; "channel" := VStr "bogus";
     "message" := VStr "hi" ]}.

(** A send to a discord identifier, with and without a message. *)
Definition sendParams : Params :=
  {[ "target" := VStr "123456789"; "channel" := VStr "discord";
     "message" := VStr "hi" ]}.

Definition sendParamsNoMessage : Params :=
  {[ "target" := VStr "123456789"; "channel" := VStr "discord" ]}.

(** The context of a handler for [action] on discord. *)
Definition context (action : ChannelMessageActionName) (params : Params)
    (dryRun : bool) : ResolvedActionContext :=
  {| rc_cfg := cfg1;
     rc_params := params;
     rc_channel := "discord";
     rc_accountId := None;
     rc_dryRun := dryRun;
     rc_gateway := None;
     rc_input := request action params (Some dryRun) |}.

End Demo.

(* ===================================================================== *)
(** * Vocabulary of the statements                                        *)
(* ===================================================================== *)

(** The key [getDirectoryEntries] builds for a source. *)
Definition directoryKey (channel : ChannelId) (accountId : option string)
    (kind : ChannelDirectoryEntryKind) (source : DirectoryCache.Source) : string :=
  DirectoryCache.buildDirectoryCacheKey
    {| DirectoryCache.channel := channel; DirectoryCache.accountId := accountId;
       DirectoryCache.kind := kind; DirectoryCache.source := source |}.

(** The directory kind [resolveMessagingTarget] asks for:
    [kind === "user" ? "user" : "group"]. *)
Definition directoryKindOf (kind : TargetResolveKind) : ChannelDirectoryEntryKind :=
  if decide (kind = trk_user) then k_user else k_group.

Section RunVocabulary.
Context `{E : Externals}.

(** The pairs of a broadcast run one after the other, each yielding its
    outcome: [pairsRun self input params pairs s outcomes s'] runs the loop
    body on [pairs] in order, from state [s] to state [s']. *)
Inductive pairsRun (self : RunMessageActionParams -> M MessageActionRunResult)
    (input : RunMessageActionParams) (params : Params)
  : list (ChannelId * string) -> State -> list BroadcastOutcome -> State -> Prop :=
  | pairsRun_nil s : pairsRun self input params [] s [] s
  | pairsRun_cons channel target rest s outcome s1 outcomes s2 :
      broadcastPair self input params channel target s = (Normal outcome, s1) ->
      pairsRun self input params rest s1 outcomes s2 ->
      pairsRun self input params ((channel, target) :: rest) s
               (outcome :: outcomes) s2.

(** The request of the nested send of a pair. *)
Definition nestedSend (input : RunMessageActionParams) (params : Params)
    (targetChannel : ChannelId) (to : string) : RunMessageActionParams :=
  withActionParams input a_send
    (<["target" := VStr to]> (<["channel" := VStr targetChannel]> params)).

(** A pair fails with [message] in one of three ways: the resolution
    throws, the resolution reports a failure, or the nested send throws. *)
Definition pairFails (self : RunMessageActionParams -> M MessageActionRunResult)
    (input : RunMessageActionParams) (params : Params)
    (targetChannel : ChannelId) (target : string) (s : State)
    (message : string) (s' : State) : Prop :=
  resolveChannelTarget (in_cfg input) targetChannel target None None s
  = (Throw message, s')
  \/ (exists candidates,
        resolveChannelTarget (in_cfg input) targetChannel target None None s
        = (Normal (ResolveFail message candidates), s'))
  \/ (exists resolved s1,
        resolveChannelTarget (in_cfg input) targetChannel target None None s
        = (Normal (ResolveOk resolved), s1)
        /\ self (nestedSend input params targetChannel (rt_to resolved)) s1
           = (Throw message, s')).

(** A pair succeeds when the resolution returns [resolved] and the nested
    send returns [result]. *)
Definition pairSucceeds (self : RunMessageActionParams -> M MessageActionRunResult)
    (input : RunMessageActionParams) (params : Params)
    (targetChannel : ChannelId) (target : string) (s : State)
    (resolved : ResolvedMessagingTarget) (result : MessageActionRunResult)
    (s' : State) : Prop :=
  exists s1,
    resolveChannelTarget (in_cfg input) targetChannel target None None s
    = (Normal (ResolveOk resolved), s1)
    /\ self (nestedSend input params targetChannel (rt_to resolved)) s1
       = (Normal result, s').

(** The outcome list a sequence of pairs is recorded as: from state [s],
    the first pair either succeeds, and its outcome is [ok] with the
    destination its target resolved to, or fails, and its outcome carries
    the raw target and the error message; the next pair starts in the state
    the first one ended in. *)
Inductive pairsRecorded (self : RunMessageActionParams -> M MessageActionRunResult)
    (input : RunMessageActionParams) (params : Params)
  : list (ChannelId * string) -> State -> list BroadcastOutcome -> State -> Prop :=
  | recorded_nil s : pairsRecorded self input params [] s [] s
  | recorded_ok channel target rest s resolved result s1 outcomes s2 :
      pairSucceeds self input params channel target s resolved result s1 ->
      pairsRecorded self input params rest s1 outcomes s2 ->
      pairsRecorded self input params ((channel, target) :: rest) s
        ({| bo_channel := channel;
            bo_to := rt_to resolved;
            bo_ok := true;
            bo_error := None;
            bo_result :=
              match result with
              | RunSend _ _ _ _ _ sendResult _ => sendResult
              | _ => None
              end |} :: outcomes) s2
  | recorded_failed channel target rest s message s1 outcomes s2 :
      pairFails self input params channel target s message s1 ->
      pairsRecorded self input params rest s1 outcomes s2 ->
      pairsRecorded self input params ((channel, target) :: rest) s
        ({| bo_channel := channel;
            bo_to := target;
            bo_ok := false;
            bo_error := Some message;
            bo_result := None |} :: outcomes) s2.

End RunVocabulary.

(** Two calls of the send service are for the same request when they agree
    on everything but the dry-run flag and the mirror (which only a live
    call is given). *)
Definition sameSendRequest (a1 a2 : ExecuteSendArgs) : Prop :=
  es_to a1 = es_to a2
  /\ es_message a1 = es_message a2
  /\ es_mediaUrl a1 = es_mediaUrl a2
  /\ es_gifPlayback a1 = es_gifPlayback a2
  /\ es_bestEffort a1 = es_bestEffort a2
  /\ dc_cfg (es_ctx a1) = dc_cfg (es_ctx a2)
  /\ dc_channel (es_ctx a1) = dc_channel (es_ctx a2)
  /\ dc_params (es_ctx a1) = dc_params (es_ctx a2)
  /\ dc_accountId (es_ctx a1) = dc_accountId (es_ctx a2)
  /\ dc_gateway (es_ctx a1) = dc_gateway (es_ctx a2)
  /\ dc_toolContext (es_ctx a1) = dc_toolContext (es_ctx a2)
  /\ dc_deps (es_ctx a1) = dc_deps (es_ctx a2).

(** The number of directory listing calls in a log. *)
Definition directoryCalls (log : list Event) : nat :=
  length (List.filter isDirectoryEvent log).

(** The number of calls to a send, poll or plugin dispatch service in a
    log. *)
Definition dispatchCalls (log : list Event) : nat :=
  length (List.filter isDispatchEvent log).


(** A computation that calls no send, poll or plugin dispatch service. *)
Definition callsNoDispatch `{E : Externals} {A : Type} (m : M A) : Prop :=
  forall s, dispatchCalls (st_log (m s).2) = dispatchCalls (st_log s).

(* ===================================================================== *)
(** * targets.ts                                                          *)
(* ===================================================================== *)

Module OutboundTargets.

(** [{ ok: true, to }] or [{ ok: false, error }] *)
Inductive OutboundTargetResolution : Type :=
  | TargetOk (to : string)
  | TargetError (error : string).

(** [{ channel, to?, reason? }]; [channel] may be ["none"]. *)
Record OutboundTarget : Type := {
  ot_channel : string;
  ot_to : option string;
  ot_reason : option string
}.

(** Argument of [plugin.outbound.resolveTarget]; [mode] is one of the
    strings of [ChannelOutboundTargetMode]. *)
Record ResolveTargetArgs : Type := {
  ra_cfg : option ClawdbotConfig;
  ra_to : option string;
  ra_allowFrom : option (list string);
  ra_accountId : option string;
  ra_mode : string
}.

(** What [resolveOutboundTarget] reads of a channel plugin:
    [plugin.meta.label], [plugin.config.resolveAllowFrom] and
    [plugin.outbound?.resolveTarget]. *)
Record ChannelPlugin : Type := {
  plugin_label : string;
  plugin_resolveAllowFrom :
    option (ClawdbotConfig -> option string -> option (list string));
  plugin_resolveTarget : option (ResolveTargetArgs -> OutboundTargetResolution)
}.

(** [SessionEntry], as far as the heartbeat target reads it. *)
Record SessionEntry : Type := {
  lastChannel : option string;
  lastTo : option string;
  lastAccountId : option string
}.

(** [AgentDefaultsConfig["heartbeat"]], as far as it is read here. *)
Record Heartbeat : Type := {
  hb_target : option string;
  hb_to : option string
}.

(** What targets.ts imports from other modules: the plugin registry, the
    channel id normalizer ([None] is [null]), the name of the internal
    channel, and the heartbeat defaults of a configuration object
    ([cfg.agents?.defaults?.heartbeat]). *)
Class TargetExternals : Type := {
  getChannelPlugin : ChannelId -> option ChannelPlugin;
  normalizeChannelId : string -> option ChannelId;
  INTERNAL_MESSAGE_CHANNEL : string;
  defaultHeartbeat : ClawdbotConfig -> option Heartbeat
}.

Record ResolveOutboundTargetParams : Type := {
  rp_channel : string;
  rp_to : option string;
  rp_allowFrom : option (list string);
  rp_cfg : option ClawdbotConfig;
  rp_accountId : option string;
  rp_mode : option string
}.

Section Targets.
Context `{TE : TargetExternals}.

Definition resolveOutboundTarget (params : ResolveOutboundTargetParams)
  : OutboundTargetResolution :=
  if String.eqb (rp_channel params) INTERNAL_MESSAGE_CHANNEL then
    TargetError
      "Delivering to WebChat is not supported via `clawdbot agent`; use WhatsApp/Telegram or run with --deliver=false."
  else
    match getChannelPlugin (rp_channel params) with
    | None => TargetError ("Unsupported channel: " +:+ rp_channel params)
    | Some plugin =>
        let allowFrom :=
          match rp_allowFrom params with
          | Some a => Some a
          | None =>
              match rp_cfg params, plugin_resolveAllowFrom plugin with
              | Some cfg, Some resolveAllowFrom =>
                  resolveAllowFrom cfg (rp_accountId params)
              | _, _ => None
              end
          end in
        match plugin_resolveTarget plugin with
        | Some resolveTarget =>
            resolveTarget
              {| ra_cfg := rp_cfg params;
                 ra_to := rp_to params;
                 ra_allowFrom := allowFrom;
                 ra_accountId := rp_accountId params;
                 ra_mode := default "explicit" (rp_mode params) |}
        | None =>
            let trimmed := Js.trim <$> rp_to params in
            match trimmed with
            | Some t =>
                if Js.truthy t then TargetOk t
                else TargetError ("Delivering to " +:+ plugin_label plugin
                                    +:+ " requires a destination")
            | None =>
                TargetError ("Delivering to " +:+ plugin_label plugin
                               +:+ " requires a destination")
            end
        end
    end.

(** [a || b] on optional strings: the first truthy operand, else the last
    one. *)
Definition orElse (a b : option string) : option string :=
  if truthyOpt a then a else b.

Definition noTarget (reason : string) : OutboundTarget :=
  {| ot_channel := "none"; ot_to := None; ot_reason := Some reason |}.

Definition resolveHeartbeatDeliveryTarget (cfg : ClawdbotConfig)
    (entry : option SessionEntry) (heartbeat : option Heartbeat)
  : OutboundTarget :=
  let heartbeat :=
    match heartbeat with
    | Some h => Some h
    | None => defaultHeartbeat cfg
    end in
  let rawTarget := h ← heartbeat; hb_target h in
  let target : string :=
    match rawTarget with
    | Some raw =>
        if (String.eqb raw "none" || String.eqb raw "last")%bool then raw
        else
          match normalizeChannelId raw with
          | Some normalized => if Js.truthy normalized then normalized else "last"
          | None => "last"
          end
    | None => "last"
    end in
  if String.eqb target "none" then noTarget "target-none"
  else
    let explicitTo : option string :=
      match h ← heartbeat; hb_to h with
      | Some to => if Js.truthy (Js.trim to) then Some (Js.trim to) else None
      | None => None
      end in
    let lastChannel : option ChannelId :=
      match e ← entry; lastChannel e with
      | Some c =>
          if (Js.truthy c && negb (String.eqb c INTERNAL_MESSAGE_CHANNEL))%bool
          then normalizeChannelId c
          else None
      | None => None
      end in
    let lastTo : string :=
      match e ← entry; lastTo e with
      | Some t => Js.trim t
      | None => ""
      end in
    let channel : option string :=
      if String.eqb target "last" then lastChannel else Some target in
    let to :=
      orElse explicitTo
        (orElse
           (if (truthyOpt channel && bool_decide (lastChannel = channel))%bool
            then Some lastTo else None)
           (if String.eqb target "last" then Some lastTo else None)) in
    match channel, to with
    | Some channel, Some to =>
        if negb (Js.truthy channel && Js.truthy to)%bool then noTarget "no-target"
        else
          let accountId :=
            if bool_decide (Some channel = lastChannel)
            then e ← entry; lastAccountId e
            else None in
          let request mode :=
            {| rp_channel := channel; rp_to := Some to; rp_allowFrom := None;
               rp_cfg := Some cfg; rp_accountId := accountId;
               rp_mode := Some mode |} in
          match resolveOutboundTarget (request "heartbeat") with
          | TargetError _ => noTarget "no-target"
          | TargetOk resolvedTo =>
              let reason :=
                match p ← getChannelPlugin channel; plugin_resolveAllowFrom p with
                | Some _ =>
                    match resolveOutboundTarget (request "explicit") with
                    | TargetOk explicitTo' =>
                        if negb (String.eqb explicitTo' resolvedTo)
                        then Some "allowFrom-fallback" else None
                    | TargetError _ => None
                    end
                | None => None
                end in
              {| ot_channel := channel; ot_to := Some resolvedTo;
                 ot_reason := reason |}
          end
    | _, _ => noTarget "no-target"
    end.

End Targets.

End OutboundTargets.

(** A closed instance of the collaborators of targets.ts: [telegram] has
    no resolver of its own, [whatsapp] has an allow list and a resolver that
    in heartbeat mode falls back to the first allowed number when the
    destination is not on the list; nothing else is a channel. *)
Module TargetDemo.
Import OutboundTargets.

Definition telegram : ChannelPlugin :=
  {| plugin_label := "Telegram";
     plugin_resolveAllowFrom := None;
     plugin_resolveTarget := None |}.

Definition whatsappTarget (args : ResolveTargetArgs) : OutboundTargetResolution :=
  match ra_to args with
  | Some to =>
      let to := Js.trim to in
      if negb (Js.truthy to) then TargetError "Delivering to WhatsApp requires a destination"
      else if String.eqb (ra_mode args) "heartbeat" then
        match ra_allowFrom args with
        | Some (first :: rest) =>
            if existsb (String.eqb to) (first :: rest) then TargetOk to
            else TargetOk first
        | _ => TargetOk to
        end
      else TargetOk to
  | None => TargetError "Delivering to WhatsApp requires a destination"
  end.

Definition whatsapp : ChannelPlugin :=
  {| plugin_label := "WhatsApp";
     plugin_resolveAllowFrom := Some (fun _ _ => Some ["+15550001"]);
     plugin_resolveTarget := Some whatsappTarget |}.

#[export] Instance externals : TargetExternals :=
  {| getChannelPlugin := fun channel =>
       if String.eqb channel "telegram" then Some telegram
       else if String.eqb channel "whatsapp" then Some whatsapp
       else None;
     normalizeChannelId := fun raw =>
       let id := Js.toLowerCase (Js.trim raw) in
       if (String.eqb id "telegram" || String.eqb id "whatsapp")%bool
       then Some id else None;
     INTERNAL_MESSAGE_CHANNEL := "webchat";
     defaultHeartbeat := fun _ => None |}.

(** A session whose last message came from telegram. *)
Definition session : SessionEntry :=
  {| lastChannel := Some "telegram"; lastTo := Some " 4242 ";
     lastAccountId := Some "main" |}.

End TargetDemo.

(* ===================================================================== *)
(** * The send service                                                    *)
(* ===================================================================== *)

(** Modelled from the spec: [executeSendAction] of
    outbound/outbound-send-service is not among the sources; the send
    handler hands it the request together with the resolved [dryRun] flag.
    The spec has a dry run pass validation, resolution and policy and then
    "only skip the final network dispatch": with [dryRun] set the service
    returns a result without touching the outside world, otherwise it
    performs the network dispatch [deliver].  What the result of a dry run
    holds is not specified; it is [dryResult]. *)
Definition executeSendActionSpec {W : Type}
    (deliver : ExecuteSendArgs -> W -> Completion ExecuteSendResult * W)
    (dryResult : ExecuteSendArgs -> ExecuteSendResult)
    (args : ExecuteSendArgs) (w : W) : Completion ExecuteSendResult * W :=
  if dc_dryRun (es_ctx args) then (Normal (dryResult args), w)
  else deliver args w.

(** The send service of the collaborators is the one modelled above. *)
Definition sendServiceIs `{E : Externals}
    (deliver : ExecuteSendArgs -> World -> Completion ExecuteSendResult * World)
    (dryResult : ExecuteSendArgs -> ExecuteSendResult) : Prop :=
  forall args w,
    executeSendAction args w = executeSendActionSpec deliver dryResult args w.

(** What the send handler makes of the completion of the send service. *)
Definition sendOutcome (channel : ChannelId) (to : option string) (dryRun : bool)
    (r : Completion ExecuteSendResult) : Completion MessageActionRunResult :=
  match r with
  | Normal send =>
      Normal (RunSend channel to (sr_handledBy send) (sr_payload send)
                (sr_toolResult send) (sr_sendResult send) dryRun)
  | Throw e => Throw e
  end.

(** The state after the send service was called with [args] in state [s]
    and left the outside world as [w]. *)
Definition afterSend `{E : Externals} (args : ExecuteSendArgs) (w : World)
    (s : State) : State :=
  {| st_world := w; st_cache := st_cache s; st_log := EvSend args :: st_log s |}.

(** The reader does not throw on [media], which is never required. *)
Definition mediaIsOptional `{E : Externals} : Prop :=
  forall params,
    exists value,
      readStringParam params "media"
        {| rs_required := None; rs_trim := Some false; rs_allowEmpty := None |}
      = Normal value.

(** The collaborators of [Demo], with the send service as modelled: the
    network dispatch is the send service of [Demo], which takes five
    milliseconds. *)
Module DryDemo.

Definition deliver : ExecuteSendArgs -> Z -> Completion ExecuteSendResult * Z :=
  @executeSendAction Demo.externals.

Definition dryResult (args : ExecuteSendArgs) : ExecuteSendResult :=
  {| sr_handledBy := hb_dry_run;
     sr_payload := VObj [("dryRun", VBool true)];
     sr_toolResult := None;
     sr_sendResult := None |}.

#[export] Instance externals : Externals :=
  {| World := Z;
     dateNow := fun w => w;
     JSON_parse := @JSON_parse Demo.externals;
     normalizeTargetForProvider := fun _ _ => None;
     getChannelPluginDirectory := @getChannelPluginDirectory Demo.externals;
     dispatchChannelMessageAction := fun _ w => (Normal None, w + 3);
     normalizeChannelTargetInput := Js.trim;
     applyTargetToParams := Demo.applyTarget;
     readStringParam := Demo.readString;
     readStringArrayParam := Demo.readStringArray;
     readNumberParam := @readNumberParam Demo.externals;
     parseReplyDirectives := @parseReplyDirectives Demo.externals;
     resolveMessageChannelSelection := Demo.selectChannel;
     listConfiguredMessageChannels := fun _ w => (Normal ["discord"; "slack"], w + 1);
     shouldApplyCrossContextMarker := fun _ => false;
     buildCrossContextDecoration := fun _ w => (Normal None, w + 1);
     applyCrossContextDecoration := @applyCrossContextDecoration Demo.externals;
     enforceCrossContextPolicy := fun _ _ _ _ _ => Normal tt;
     executeSendAction := executeSendActionSpec deliver dryResult;
     executePollAction := @executePollAction Demo.externals |}.

(** The state of a fresh process at time [now]. *)
Definition start (now : Z) : @State externals :=
  {| st_world := now;
     st_cache := DirectoryCache.create CACHE_TTL_MS;
     st_log := [] |}.

(** The arguments of a send after its target was mapped and resolved, with
    and without a message. *)
Definition resolvedParams : Params :=
  {[ "to" := VStr "123456789"; "message" := VStr "hi" ]}.

Definition resolvedParamsNoMessage : Params := {[ "to" := VStr "123456789" ]}.

End DryDemo.

(** The collaborators of [Demo], with a directory that is out of order:
    every listing of every channel throws. *)
Module Outage.

Definition failing
  : DirectoryListArgs -> Z -> Completion (list ChannelDirectoryEntry) * Z :=
  fun _ w => (Throw "directory unavailable", w + 7).

Definition directory : ChannelDirectory Z :=
  {| dir_listPeers := Some failing;
     dir_listPeersLive := Some failing;
     dir_listGroups := Some failing;
     dir_listGroupsLive := Some failing |}.

#[export] Instance externals : Externals :=
  {| World := Z;
     dateNow := fun w => w;
     JSON_parse := @JSON_parse Demo.externals;
     normalizeTargetForProvider := fun _ _ => None;
     getChannelPluginDirectory := fun _ => Some directory;
     dispatchChannelMessageAction := fun _ w => (Normal None, w + 3);
     normalizeChannelTargetInput := Js.trim;
     applyTargetToParams := Demo.applyTarget;
     readStringParam := Demo.readString;
     readStringArrayParam := Demo.readStringArray;
     readNumberParam := @readNumberParam Demo.externals;
     parseReplyDirectives := @parseReplyDirectives Demo.externals;
     resolveMessageChannelSelection := Demo.selectChannel;
     listConfiguredMessageChannels := fun _ w => (Normal ["discord"; "slack"], w + 1);
     shouldApplyCrossContextMarker := fun _ => false;
     buildCrossContextDecoration := fun _ w => (Normal None, w + 1);
     applyCrossContextDecoration := @applyCrossContextDecoration Demo.externals;
     enforceCrossContextPolicy := fun _ _ _ _ _ => Normal tt;
     executeSendAction := @executeSendAction Demo.externals;
     executePollAction := @executePollAction Demo.externals |}.

(** The state of a fresh process at time [now]. *)
Definition start (now : Z) : @State externals :=
  {| st_world := now;
     st_cache := DirectoryCache.create CACHE_TTL_MS;
     st_log := [] |}.

End Outage.

(** Requests used to run the embedding on the closed instance [Demo]. *)
Module Scenarios.

(** A poll with a single option, and one with three options that allows
    several selections. *)
Definition pollOne : Params :=
  {[ "to" := VStr "123456789"; "pollQuestion" := VStr "Lunch?";
     "pollOption" := VArr [VStr "pizza"] ]}.

Definition pollThree : Params :=
  {[ "to" := VStr "123456789"; "pollQuestion" := VStr "Lunch?";
     "pollOption" := VArr [VStr "pizza"; VStr "ramen"; VStr "salad"];
     "pollMulti" := VBool true ]}.

(** The arguments of an action whose [to] names nobody, and of one whose
    [to] is an identifier with blanks around it. *)
Definition toNobody : Params := {[ "to" := VStr "nobody" ]}.

Definition toIdentifier : Params :=
  {[ "to" := VStr " 123456789 "; "message" := VStr "hi" ]}.

(** A broadcast of one target, a name that the discord directory knows
    and the slack directory does not. *)
Definition broadcastByName : Params :=
  {[ "targets" := VArr [VStr "random"]; "message" := VStr "hi" ]}.

Definition broadcastByNameRequest : RunMessageActionParams :=
  Demo.request a_broadcast broadcastByName None.

End Scenarios.

(** [getToolResult]: the [toolResult] of a run result that has one. *)
Definition getToolResult (result : MessageActionRunResult) : option AgentToolResult :=
  match result with
  | RunSend _ _ _ _ toolResult _ _ => toolResult
  | RunPoll _ _ _ _ toolResult _ _ => toolResult
  | RunAction _ _ _ _ toolResult _ => toolResult
  | RunBroadcast _ _ _ _ => None
  end.

(* ===================================================================== *)
(** * Further vocabulary                                                  *)
(* ===================================================================== *)

(** A sequence of method calls on a cache instance, first call first. *)
Definition runOps {T : Type} (ops : list (DirectoryCache.Op T))
    (c : DirectoryCache.t T) : DirectoryCache.t T :=
  fold_left (fun c o => DirectoryCache.runOp o c) ops c.

(** The call is [set(key, ...)]. *)
Definition writesKey {T : Type} (key : string) (o : DirectoryCache.Op T) : Prop :=
  match o with
  | DirectoryCache.OpSet _ k _ _ => k = key
  | _ => False
  end.

(** The call is a [get] or [set] on another key under the configuration
    object [cfg], or a [clearMatching] whose predicate rejects [key]. *)
Definition sparesKey {T : Type} (key : string) (cfg : ClawdbotConfig)
    (o : DirectoryCache.Op T) : Prop :=
  match o with
  | DirectoryCache.OpGet _ k g => k <> key /\ cfg_ref g = cfg_ref cfg
  | DirectoryCache.OpSet _ k _ g => k <> key /\ cfg_ref g = cfg_ref cfg
  | DirectoryCache.OpClearMatching f => f key = false
  | DirectoryCache.OpClear _ => False
  end.

(** A character that [trim] keeps. *)
Definition notSpace (c : ascii) : bool := negb (Ascii.is_space c).

(** A string of ASCII characters, and a directory entry whose id, name and
    handle are such strings. *)
Definition isAscii (s : string) : bool :=
  Js.allChars (fun c => (nat_of_ascii c <? 128)%nat) s.

Definition isAsciiEntry (entry : ChannelDirectoryEntry) : bool :=
  (isAscii (entry_id entry)
   && from_option isAscii true (entry_name entry)
   && from_option isAscii true (entry_handle entry))%bool.

(** A string without a colon, as account ids are. *)
Definition noColon (s : string) : bool :=
  Js.allChars (fun c => negb (Ascii.eqb c ":")) s.

(** The prefix of the cache keys that [resetDirectoryCache] removes for a
    channel: the channel and the account when an account id is given, the
    channel alone when none is. *)
Definition resetScope (channel : ChannelId) (accountId : option string) : string :=
  if from_option Js.truthy false accountId
  then channel +:+ ":" +:+ default "default" accountId +:+ ":"
  else channel +:+ ":".

(** A directory listing call. *)
Definition directoryEvent (e : Event) : Prop := isDirectoryEvent e = true.

(** What a dry run may log: directory listings, and calls of the send and
    poll services that carry [dryRun: true] and no mirror. *)
Definition dryRunEvent (e : Event) : Prop :=
  match e with
  | EvDirectory _ _ _ => True
  | EvSend args => dc_dryRun (es_ctx args) = true /\ dc_mirror (es_ctx args) = None
  | EvPoll args => dc_dryRun (ep_ctx args) = true /\ dc_mirror (ep_ctx args) = None
  | EvDispatch _ => False
  end.

(** The service call a request other than a broadcast ends in: the send
    service for [send], the poll service for [poll], the plugin dispatcher
    (live only) for any other action; a [dryRun] given with the request is
    the one the service sees. *)
Definition serviceCallOf (input : RunMessageActionParams) (e : Event) : Prop :=
  match e with
  | EvDirectory _ _ _ => False
  | EvSend args =>
      in_action input = a_send
      /\ dc_cfg (es_ctx args) = in_cfg input
      /\ (forall flag, in_dryRun input = Some flag -> dc_dryRun (es_ctx args) = flag)
  | EvPoll args =>
      in_action input = a_poll
      /\ dc_cfg (ep_ctx args) = in_cfg input
      /\ (forall flag, in_dryRun input = Some flag -> dc_dryRun (ep_ctx args) = flag)
  | EvDispatch args =>
      in_action input <> a_send /\ in_action input <> a_poll
      /\ da_action args = in_action input
      /\ da_cfg args = in_cfg input
      /\ da_dryRun args = false
      /\ in_dryRun input <> Some true
  end.

(** [m] adds to the log only events that satisfy [P]. *)
Definition logsOnly `{E : Externals} {A : Type} (P : Event -> Prop) (m : M A) : Prop :=
  forall s, exists new, st_log (m s).2 = (new ++ st_log s)%list /\ Forall P new.

(** The result of a run is of the kind of its action. *)
Definition resultOfAction (action : ChannelMessageActionName)
    (result : MessageActionRunResult) : Prop :=
  match result with
  | RunSend _ _ _ _ _ _ _ => action = a_send
  | RunPoll _ _ _ _ _ _ _ => action = a_poll
  | RunBroadcast _ _ _ _ => action = a_broadcast
  | RunAction _ action' _ _ _ _ =>
      action' = action /\ action <> a_send /\ action <> a_poll
      /\ action <> a_broadcast
  end.

(** The [dryRun] field of a result. *)
Definition resultDryRun (result : MessageActionRunResult) : bool :=
  match result with
  | RunSend _ _ _ _ _ _ dryRun => dryRun
  | RunPoll _ _ _ _ _ _ dryRun => dryRun
  | RunBroadcast _ _ _ dryRun => dryRun
  | RunAction _ _ _ _ _ dryRun => dryRun
  end.

(** The parts of a heartbeat target that [resolveHeartbeatDeliveryTarget]
    computes first: the heartbeat settings in force, the explicit
    destination, and the channel and destination of the session's last
    message. *)
Definition heartbeatInForce `{TE : OutboundTargets.TargetExternals}
    (cfg : ClawdbotConfig) (heartbeat : option OutboundTargets.Heartbeat)
  : option OutboundTargets.Heartbeat :=
  match heartbeat with
  | Some h => Some h
  | None => OutboundTargets.defaultHeartbeat cfg
  end.

Definition explicitToOf (heartbeat : option OutboundTargets.Heartbeat)
  : option string :=
  match h ← heartbeat; OutboundTargets.hb_to h with
  | Some to => if Js.truthy (Js.trim to) then Some (Js.trim to) else None
  | None => None
  end.

Definition lastChannelOf `{TE : OutboundTargets.TargetExternals}
    (entry : option OutboundTargets.SessionEntry) : option ChannelId :=
  match e ← entry; OutboundTargets.lastChannel e with
  | Some c =>
      if (Js.truthy c
          && negb (String.eqb c OutboundTargets.INTERNAL_MESSAGE_CHANNEL))%bool
      then OutboundTargets.normalizeChannelId c
      else None
  | None => None
  end.

Definition lastToOf (entry : option OutboundTargets.SessionEntry) : string :=
  match e ← entry; OutboundTargets.lastTo e with
  | Some t => Js.trim t
  | None => ""
  end.

(** The request [resolveHeartbeatDeliveryTarget] makes of
    [resolveOutboundTarget]. *)
Definition heartbeatRequest (cfg : ClawdbotConfig) (channel to : string)
    (accountId : option string) (mode : string)
  : OutboundTargets.ResolveOutboundTargetParams :=
  {| OutboundTargets.rp_channel := channel;
     OutboundTargets.rp_to := Some to;
     OutboundTargets.rp_allowFrom := None;
     OutboundTargets.rp_cfg := Some cfg;
     OutboundTargets.rp_accountId := accountId;
     OutboundTargets.rp_mode := Some mode |}.

(** What a broadcast under the configuration [cfg] may log: directory
    listings, and calls of the send service under [cfg]. *)
Definition broadcastEvent (cfg : ClawdbotConfig) (e : Event) : Prop :=
  match e with
  | EvDirectory _ _ _ => True
  | EvSend args => dc_cfg (es_ctx args) = cfg
  | EvPoll _ | EvDispatch _ => False
  end.

(* ===================================================================== *)
(** * Properties                                                          *)
(* ===================================================================== *)

(** A pair is determined by its components; used to run the embedding on
    closed inputs without normalising whole states. *)
Lemma pair_from_fst {A B : Type} (p : A * B) (a : A) :
  p.1 = a -> p = (a, p.2).
Proof. destruct p. simpl. by intros ->. Qed.

(** ** Strings *)

Section StringFacts.

Lemma rev_app_list (s1 s2 : string) :
  list_ascii_of_string (String.rev_app s1 s2)
  = (rev (list_ascii_of_string s1) ++ list_ascii_of_string s2)%list.
Proof.
  revert s2. induction s1 as [|c r IH]; intros s2; simpl; [done|].
  rewrite IH. simpl. by rewrite <- app_assoc.
Qed.

Lemma rev_list (s : string) :
  list_ascii_of_string (String.rev s) = rev (list_ascii_of_string s).
Proof. unfold String.rev. rewrite rev_app_list. simpl. apply app_nil_r. Qed.

Lemma string_rev_involutive (s : string) : String.rev (String.rev s) = s.
Proof.
  rewrite <- (string_of_list_ascii_of_string (String.rev (String.rev s))).
  rewrite !rev_list, rev_involutive.
  apply string_of_list_ascii_of_string.
Qed.

Lemma allChars_Forall (f : ascii -> bool) (s : string) :
  Js.allChars f s = true <-> Forall (fun c => f c = true) (list_ascii_of_string s).
Proof.
  induction s as [|c r IH]; simpl.
  - split; [constructor | done].
  - rewrite andb_true_iff, IH, Forall_cons. tauto.
Qed.

Lemma allChars_rev (f : ascii -> bool) (s : string) :
  Js.allChars f s = true -> Js.allChars f (String.rev s) = true.
Proof.
  rewrite !allChars_Forall, rev_list. apply List.Forall_rev.
Qed.

Lemma trimStart_allChars (f : ascii -> bool) (s : string) :
  (forall c, f c = true -> Ascii.is_space c = false) ->
  Js.allChars f s = true -> Js.trimStart s = s.
Proof.
  intros Hf. destruct s as [|c r]; simpl; [done|].
  intros [Hc _]%andb_true_iff. by rewrite (Hf c Hc).
Qed.

(** A string without white space is its own [trim]. *)
Lemma trim_allChars (f : ascii -> bool) (s : string) :
  (forall c, f c = true -> Ascii.is_space c = false) ->
  Js.allChars f s = true -> Js.trim s = s.
Proof.
  intros Hf Hs. unfold Js.trim, Js.trimEnd.
  rewrite (trimStart_allChars f s Hf Hs).
  rewrite (trimStart_allChars f (String.rev s) Hf (allChars_rev f s Hs)).
  apply string_rev_involutive.
Qed.

Lemma isDigit_not_space (c : ascii) :
  Js.isDigit c = true -> Ascii.is_space c = false.
Proof. destruct c as [[] [] [] [] [] [] [] []]; vm_compute; congruence. Qed.

(** A string that starts with a digit carries neither a [channel:],
    [group:] or [user:] prefix nor a sigil. *)
Lemma digit_head_no_prefix (c : ascii) (r : string) :
  Js.isDigit c = true ->
  Js.startsWithCI "channel:" (String c r) = false
  /\ Js.startsWithCI "group:" (String c r) = false
  /\ Js.startsWithCI "user:" (String c r) = false
  /\ Js.startsWith "@" (String c r) = false
  /\ Js.startsWith "#" (String c r) = false.
Proof.
  destruct c as [[] [] [] [] [] [] [] []]; vm_compute; intros Hd;
    try discriminate Hd; repeat split; reflexivity.
Qed.

Lemma stripTargetPrefixes_digits (s : string) :
  Js.allChars Js.isDigit s = true -> stripTargetPrefixes s = s.
Proof.
  intros Hs. unfold stripTargetPrefixes.
  destruct s as [|c r]; [reflexivity|].
  pose proof Hs as [Hc _]%andb_true_iff.
  destruct (digit_head_no_prefix c r Hc) as (-> & -> & -> & -> & ->).
  cbn [orb]. exact (trim_allChars Js.isDigit _ isDigit_not_space Hs).
Qed.

(** [/^\d{6,}$/] strings are identifiers on discord. *)
Lemma looksLikeId_discord_digits (s : string) :
  Js.atLeast 6 Js.isDigit s = true -> looksLikeId "discord" s = true.
Proof.
  intros Hs. pose proof Hs as [Hlen Hall]%andb_true_iff.
  unfold looksLikeId.
  destruct s as [|c r]; [discriminate Hlen|]. cbn [Js.truthy negb].
  rewrite (trim_allChars Js.isDigit _ isDigit_not_space Hall).
  change (String.eqb "discord" "discord") with true. cbv iota.
  by rewrite (stripTargetPrefixes_digits _ Hall).
Qed.

End StringFacts.

(** ** The action target table *)

Section ActionSpecFacts.
Import ActionSpec.

Lemma lookupMode_total (a : ChannelMessageActionName) :
  is_Some (lookupMode MESSAGE_ACTION_TARGET_MODE a).
Proof. destruct a; vm_compute; eauto. Qed.

Lemma broadcast_needs_no_target : actionRequiresTarget a_broadcast = false.
Proof. reflexivity. Qed.

End ActionSpecFacts.

(** ** The directory cache *)

Section CacheFacts.
Context {T : Type}.
Import DirectoryCache.
Implicit Types (c : DirectoryCache.t T) (cfg : ClawdbotConfig).

Lemma withCache_same c : withCache (cache c) c = c.
Proof. by destruct c. Qed.

Lemma resetIfConfigChanged_same cfg c :
  lastConfigRef c = Some (cfg_ref cfg) -> resetIfConfigChanged cfg c = c.
Proof.
  destruct c as [m r ttl]; simpl. intros ->. unfold resetIfConfigChanged. simpl.
  by rewrite decide_True.
Qed.

Lemma resetIfConfigChanged_other cfg c r :
  lastConfigRef c = Some r -> r <> cfg_ref cfg ->
  resetIfConfigChanged cfg c
  = {| cache := ∅; lastConfigRef := Some (cfg_ref cfg); ttlMs := ttlMs c |}.
Proof.
  intros Hr Hne. unfold resetIfConfigChanged. rewrite Hr.
  by rewrite decide_False.
Qed.

Lemma lastConfigRef_set now key v cfg c :
  lastConfigRef (set now key v cfg c) = Some (cfg_ref cfg).
Proof. reflexivity. Qed.

Lemma lastConfigRef_get now key cfg c :
  lastConfigRef (get now key cfg c).2 = Some (cfg_ref cfg).
Proof.
  unfold get. destruct (cache (resetIfConfigChanged cfg c) !! key) as [e|];
    [destruct (_ >? _)|]; reflexivity.
Qed.

Lemma ttlMs_set now key v cfg c : ttlMs (set now key v cfg c) = ttlMs c.
Proof. reflexivity. Qed.

Lemma ttlMs_get now key cfg c : ttlMs (get now key cfg c).2 = ttlMs c.
Proof.
  unfold get. destruct (cache (resetIfConfigChanged cfg c) !! key) as [e|];
    [destruct (_ >? _)|]; reflexivity.
Qed.

Lemma lookup_set_eq now key v cfg c :
  cache (set now key v cfg c) !! key = Some {| value := v; fetchedAt := now |}.
Proof. unfold set. simpl. apply lookup_insert_eq. Qed.

Lemma lookup_set_ne now key key' v cfg c :
  key <> key' -> lastConfigRef c = Some (cfg_ref cfg) ->
  cache (set now key v cfg c) !! key' = cache c !! key'.
Proof.
  intros Hne Href. unfold set. rewrite (resetIfConfigChanged_same _ _ Href).
  simpl. by apply lookup_insert_ne.
Qed.

(** A read of a present entry under the configuration last seen: the
    entry is returned up to and including [ttlMs] after its fetch time, and
    is deleted after that. *)
Lemma get_present now key cfg c e :
  lastConfigRef c = Some (cfg_ref cfg) ->
  cache c !! key = Some e ->
  get now key cfg c
  = if now - fetchedAt e >? ttlMs c
    then (None, withCache (delete key (cache c)) c)
    else (Some (value e), c).
Proof.
  intros Href He. unfold get.
  rewrite (resetIfConfigChanged_same _ _ Href), He. reflexivity.
Qed.

Lemma get_absent now key cfg c :
  lastConfigRef c = Some (cfg_ref cfg) ->
  cache c !! key = None ->
  get now key cfg c = (None, c).
Proof.
  intros Href He. unfold get.
  by rewrite (resetIfConfigChanged_same _ _ Href), He.
Qed.

(** The time-to-live never changes, and an instance that has seen no
    configuration yet holds no entry. *)
Lemma reachable_ttlMs ttl c : reachable ttl c -> ttlMs c = ttl.
Proof.
  induction 1 as [|o c Hc IH]; [reflexivity|].
  destruct o; simpl; try done.
  - by rewrite ttlMs_get.
Qed.

Lemma reachable_unseen_empty ttl c :
  reachable ttl c -> lastConfigRef c = None -> cache c = ∅.
Proof.
  induction 1 as [|o c Hc IH]; [reflexivity|].
  destruct o as [now key cfg|now key v cfg|f|[cfg|]]; simpl.
  - by rewrite lastConfigRef_get.
  - done.
  - intros Hn. rewrite (IH Hn). apply map_filter_empty.
  - done.
  - done.
Qed.

(** What a call with a configuration object other than the one last seen
    leaves of the cache: nothing, in every reachable state. *)
Lemma reset_other_config ttl cfg c :
  reachable ttl c -> lastConfigRef c <> Some (cfg_ref cfg) ->
  resetIfConfigChanged cfg c
  = {| cache := ∅; lastConfigRef := Some (cfg_ref cfg); ttlMs := ttl |}.
Proof.
  intros Hc Hne. rewrite <- (reachable_ttlMs _ _ Hc).
  destruct (lastConfigRef c) as [r|] eqn:Hr.
  - apply (resetIfConfigChanged_other _ _ r Hr). congruence.
  - unfold resetIfConfigChanged. rewrite Hr.
    by rewrite (reachable_unseen_empty _ _ Hc Hr).
Qed.

End CacheFacts.

(** ** The resolver and its directory lookups *)

Section ResolverFacts.
Context `{E : Externals}.
Import DirectoryCache.

Lemma directoryKey_cache_live channel accountId kind :
  directoryKey channel accountId kind src_live
  <> directoryKey channel accountId kind src_cache.
Proof.
  unfold directoryKey, buildDirectoryCacheKey. simpl.
  intros Heq. repeat apply String.app_inj in Heq. discriminate Heq.
Qed.

Lemma get_none (T : Type) now key cfg (c c1 : DirectoryCache.t T) :
  get now key cfg c = (None, c1) ->
  cache c1 !! key = None
  /\ lastConfigRef c1 = Some (cfg_ref cfg)
  /\ ttlMs c1 = ttlMs c.
Proof.
  unfold get. destruct (cache (resetIfConfigChanged cfg c) !! key) as [e|] eqn:He.
  - destruct (_ >? _); [|discriminate]. intros [= <-]. simpl.
    split; [apply lookup_delete_eq | done].
  - intros [= <-]. done.
Qed.

(** A listing leaves the cache alone and calls the plugin at most once. *)
Lemma listDirectoryEntries_effect cfg channel accountId kind query source s :
  let '(_, s') := listDirectoryEntries cfg channel accountId kind query source s in
  st_cache s' = st_cache s
  /\ (st_log s' = st_log s
      \/ exists tag args, st_log s' = EvDirectory channel tag args :: st_log s).
Proof.
  unfold listDirectoryEntries.
  destruct (getChannelPluginDirectory channel) as [dir|]; [|simpl; auto].
  destruct (pickDirectoryFn dir kind _) as [[tag fn]|]; [|simpl; auto].
  unfold await. destruct (fn _ _) as [r w]. simpl. eauto.
Qed.

Lemma listDirectoryEntries_call cfg channel accountId kind query source s dir tag fn :
  getChannelPluginDirectory channel = Some dir ->
  pickDirectoryFn dir kind
    (match source with src_live => true | src_cache => false end) = Some (tag, fn) ->
  listDirectoryEntries cfg channel accountId kind query source s
  = await (Some (EvDirectory channel tag
                   {| dl_cfg := cfg; dl_accountId := accountId; dl_query := query |}))
          (fn {| dl_cfg := cfg; dl_accountId := accountId; dl_query := query |}) s.
Proof. intros Hd Hp. unfold listDirectoryEntries. by rewrite Hd, Hp. Qed.

(** [getDirectoryEntries] on a cache hit. *)
Lemma getDirectoryEntries_hit cfg channel accountId kind query live s entries c1 :
  get (dateNow (st_world s)) (directoryKey channel accountId kind src_cache) cfg
      (st_cache s) = (Some entries, c1) ->
  getDirectoryEntries cfg channel accountId kind query live s
  = (Normal entries, setCache c1 s).
Proof.
  intros Hget. unfold getDirectoryEntries, bind, cacheGet.
  fold (directoryKey channel accountId kind src_cache). by rewrite Hget.
Qed.

(** [getDirectoryEntries] on a cache miss. *)
Lemma getDirectoryEntries_miss cfg channel accountId kind query live s c1 :
  get (dateNow (st_world s)) (directoryKey channel accountId kind src_cache) cfg
      (st_cache s) = (None, c1) ->
  getDirectoryEntries cfg channel accountId kind query live s
  = match listDirectoryEntries cfg channel accountId kind query src_cache
            (setCache c1 s) with
    | (Throw e, s2) => (Throw e, s2)
    | (Normal entries, s2) =>
        if ((0 <? length entries)%nat || negb live)%bool then
          (Normal entries,
           setCache (set (dateNow (st_world s2))
                       (directoryKey channel accountId kind src_cache)
                       entries cfg (st_cache s2)) s2)
        else
          match listDirectoryEntries cfg channel accountId kind query src_live s2 with
          | (Throw e, s3) => (Throw e, s3)
          | (Normal liveEntries, s3) =>
              (Normal liveEntries,
               setCache (set (dateNow (st_world s3))
                           (directoryKey channel accountId kind src_live)
                           liveEntries cfg (st_cache s3)) s3)
          end
    end.
Proof.
  intros Hget. unfold getDirectoryEntries, bind, cacheGet.
  fold (directoryKey channel accountId kind src_cache).
  fold (directoryKey channel accountId kind src_live).
  rewrite Hget.
  destruct (listDirectoryEntries _ _ _ _ _ src_cache _) as [[entries|e] s2];
    [|reflexivity].
  destruct ((0 <? length entries)%nat || negb live)%bool; [reflexivity|].
  destruct (listDirectoryEntries _ _ _ _ _ src_live _) as [[liveEntries|e] s3];
    reflexivity.
Qed.

(** After the cache-source listing, a lookup adds at most the live call
    to the log. *)
Lemma getDirectoryEntries_miss_log cfg channel accountId kind query live s c1 :
  get (dateNow (st_world s)) (directoryKey channel accountId kind src_cache) cfg
      (st_cache s) = (None, c1) ->
  exists later,
    st_log (getDirectoryEntries cfg channel accountId kind query live s).2
    = (later ++
       st_log (listDirectoryEntries cfg channel accountId kind query src_cache
                 (setCache c1 s)).2)%list.
Proof.
  intros Hget. rewrite (getDirectoryEntries_miss _ _ _ _ _ _ _ _ Hget).
  destruct (listDirectoryEntries _ _ _ _ _ src_cache _) as [[entries|e] s2];
    [|by exists []].
  destruct ((0 <? length entries)%nat || negb live)%bool; [by exists []|].
  pose proof (listDirectoryEntries_effect cfg channel accountId kind query
                src_live s2) as Heff.
  destruct (listDirectoryEntries _ _ _ _ _ src_live _) as [[liveEntries|e] s3];
    destruct Heff as [_ [Hl | (tag & args & Hl)]]; simpl; rewrite Hl;
    first [by exists [] | by eexists [_]].
Qed.

(** A target that is not blank and does not look like an identifier is
    looked up in the directory; the state after the resolution is the
    state after the lookup. *)
Lemma resolveMessagingTarget_lookup cfg channel input accountId preferredKind s :
  let raw := normalizeChannelTargetInput input in
  Js.truthy raw = true ->
  looksLikeId channel (default raw (normalizeTargetForProvider channel raw)) = false ->
  (resolveMessagingTarget cfg channel input accountId preferredKind s).2
  = (getDirectoryEntries cfg channel accountId
       (directoryKindOf (detectTargetKind raw preferredKind))
       (Some (stripTargetPrefixes raw)) true s).2.
Proof.
  intros raw Hraw Hid. unfold resolveMessagingTarget. fold raw.
  rewrite Hraw, Hid. cbn [negb]. unfold bind, directoryKindOf.
  destruct (getDirectoryEntries _ _ _ _ _ _ s) as [[entries|e] s']; [|reflexivity].
  destruct (resolveMatch _ _ _); reflexivity.
Qed.

End ResolverFacts.

(** ** Claims about the resolver *)

Section ResolverClaims.
Context `{E : Externals}.
Import DirectoryCache.

(** C1.  When the directory lookup of a resolution returns [entries] and
    more than one of them matches the query, [resolveMessagingTarget]
    returns a failure whose candidates are exactly the matching entries, in
    the order of [entries]; it does not return a success. *)
Theorem ambiguous_match_lists_all_candidates
    cfg channel input accountId preferredKind s entries s' :
  let raw := normalizeChannelTargetInput input in
  let query := stripTargetPrefixes raw in
  let matching :=
    List.filter (fun entry => matchesDirectoryEntry channel entry query) entries in
  Js.truthy raw = true ->
  looksLikeId channel (default raw (normalizeTargetForProvider channel raw)) = false ->
  getDirectoryEntries cfg channel accountId
    (directoryKindOf (detectTargetKind raw preferredKind)) (Some query) true s
  = (Normal entries, s') ->
  (1 < length matching)%nat ->
  (exists message,
      resolveMessagingTarget cfg channel input accountId preferredKind s
      = (Normal (ResolveFail message (Some matching)), s'))
  /\ (forall target s'',
        resolveMessagingTarget cfg channel input accountId preferredKind s
        <> (Normal (ResolveOk target), s'')).
Proof.
  intros raw query matching Hraw Hid Hget Hlen.
  assert (exists message,
             resolveMessagingTarget cfg channel input accountId preferredKind s
             = (Normal (ResolveFail message (Some matching)), s')) as [m Hm].
  { unfold resolveMessagingTarget. fold raw. rewrite Hraw, Hid. cbn [negb].
    unfold bind. fold query. unfold directoryKindOf in Hget. rewrite Hget.
    unfold resolveMatch. fold matching.
    destruct matching as [|e1 [|e2 rest]]; simpl in Hlen; [lia | lia |].
    eexists. reflexivity. }
  split; [by exists m|]. intros target s''. rewrite Hm. congruence.
Qed.

(** C4.  When the normalized form of a non-blank input passes
    [looksLikeId], [resolveMessagingTarget] returns a success of source
    [normalized] in the state it started from: the log has no new call
    and the cache is as it was.  Strings of six or more digits pass the
    test on discord. *)
Theorem identifier_skips_directory cfg channel input accountId preferredKind s :
  let raw := normalizeChannelTargetInput input in
  let normalizedForm := default raw (normalizeTargetForProvider channel raw) in
  Js.truthy raw = true ->
  looksLikeId channel normalizedForm = true ->
  (exists target,
      resolveMessagingTarget cfg channel input accountId preferredKind s
      = (Normal (ResolveOk target), s)
      /\ rt_source target = from_normalized
      /\ rt_to target = preserveTargetCase channel raw normalizedForm)
  /\ (forall digits,
        Js.atLeast 6 Js.isDigit digits = true -> looksLikeId "discord" digits = true).
Proof.
  intros raw normalizedForm Hraw Hid. split.
  - unfold resolveMessagingTarget. fold raw. fold normalizedForm.
    rewrite Hraw, Hid. cbn [negb]. eexists. split; [reflexivity|]. done.
  - exact looksLikeId_discord_digits.
Qed.

(** C5.  The time-to-live is 1,800,000 ms.  A value stored at time [T0] is
    returned by a read under the same configuration object at any time
    before [T0 + 1800000]; a read after that returns nothing and removes the
    entry.  In the resolver, a lookup finding a snapshot younger than that
    returns it without calling the directory; finding an older one, it
    calls the directory again. *)
Theorem cache_entry_lives_thirty_minutes :
  CACHE_TTL_MS = 1800000
  /\ (forall (T : Type) (c : DirectoryCache.t T) T0 t key v cfg,
        ttlMs c = CACHE_TTL_MS ->
        let c1 := set T0 key v cfg c in
        (t < T0 + 1800000 -> get t key cfg c1 = (Some v, c1))
        /\ (T0 + 1800000 < t ->
            (get t key cfg c1).1 = None
            /\ cache (get t key cfg c1).2 !! key = None))
  /\ (forall cfg channel accountId kind query live s entries T0,
        ttlMs (st_cache s) = CACHE_TTL_MS ->
        lastConfigRef (st_cache s) = Some (cfg_ref cfg) ->
        cache (st_cache s) !! directoryKey channel accountId kind src_cache
        = Some {| value := entries; fetchedAt := T0 |} ->
        (dateNow (st_world s) < T0 + 1800000 ->
         getDirectoryEntries cfg channel accountId kind query live s
         = (Normal entries, s))
        /\ (T0 + 1800000 < dateNow (st_world s) ->
            forall dir tag fn,
              getChannelPluginDirectory channel = Some dir ->
              pickDirectoryFn dir kind false = Some (tag, fn) ->
              exists later,
                st_log (getDirectoryEntries cfg channel accountId kind query live s).2
                = (later ++
                   EvDirectory channel tag
                     {| dl_cfg := cfg; dl_accountId := accountId;
                        dl_query := query |} :: st_log s)%list)).
Proof.
  split; [reflexivity|]. split.
  - intros T c T0 t key v cfg Httl c1.
    assert (lastConfigRef c1 = Some (cfg_ref cfg)) as Href by reflexivity.
    assert (cache c1 !! key = Some {| value := v; fetchedAt := T0 |}) as He
      by apply lookup_set_eq.
    assert (ttlMs c1 = 1800000) as Httl1 by exact Httl.
    rewrite (get_present t key cfg c1 _ Href He), Httl1. simpl.
    split; intros Ht.
    + destruct (Z.gtb_spec (t - T0) 1800000); [lia | reflexivity].
    + destruct (Z.gtb_spec (t - T0) 1800000); [|lia]. simpl.
      split; [reflexivity | apply lookup_delete_eq].
  - intros cfg channel accountId kind query live s entries T0 Httl Href He.
    pose proof (get_present (dateNow (st_world s)) _ cfg (st_cache s) _ Href He)
      as Hget.
    rewrite Httl in Hget. simpl in Hget. split; intros Ht.
    + destruct (Z.gtb_spec (dateNow (st_world s) - T0) CACHE_TTL_MS) as [Hgt|_];
        [unfold CACHE_TTL_MS in Hgt; lia|].
      rewrite (getDirectoryEntries_hit _ _ _ _ _ _ _ _ _ Hget).
      by destruct s.
    + intros dir tag fn Hdir Hpick.
      destruct (Z.gtb_spec (dateNow (st_world s) - T0) CACHE_TTL_MS) as [_|Hle];
        [|unfold CACHE_TTL_MS in Hle; lia].
      destruct (getDirectoryEntries_miss_log cfg channel accountId kind query live
                  s _ Hget) as [later Hlater].
      exists later. rewrite Hlater. f_equal.
      rewrite (listDirectoryEntries_call _ _ _ _ _ src_cache _ dir tag fn Hdir Hpick).
      unfold await. by destruct (fn _ _).
Qed.

End ResolverClaims.

(** The claims above, run on the closed instance. *)
Section ResolverWitnesses.
Import DirectoryCache.

(** [general] matches two of the three discord groups. *)
Lemma ambiguous_match_witness :
  let s := Demo.start 0 in
  let lookup :=
    getDirectoryEntries Demo.cfg1 "discord" None k_group (Some "general") true s in
  (exists message,
      resolveMessagingTarget Demo.cfg1 "discord" "general" None None s
      = (Normal (ResolveFail message (Some [Demo.general; Demo.generalDev])),
         lookup.2))
  /\ (forall target s'',
        resolveMessagingTarget Demo.cfg1 "discord" "general" None None s
        <> (Normal (ResolveOk target), s'')).
Proof.
  intros s lookup.
  apply (ambiguous_match_lists_all_candidates (E := Demo.externals)
           Demo.cfg1 "discord" "general" None None s
           [Demo.general; Demo.generalDev; Demo.random] lookup.2).
  - reflexivity.
  - reflexivity.
  - apply pair_from_fst. vm_compute. reflexivity.
  - vm_compute. lia.
Defined.

(** A nine digit identifier on discord. *)
Lemma identifier_skips_directory_witness :
  (exists target,
      resolveMessagingTarget Demo.cfg1 "discord" "123456789" None None (Demo.start 0)
      = (Normal (ResolveOk target), Demo.start 0)
      /\ rt_source target = from_normalized
      /\ rt_to target = "123456789")
  /\ (forall digits,
        Js.atLeast 6 Js.isDigit digits = true -> looksLikeId "discord" digits = true).
Proof.
  apply (identifier_skips_directory (E := Demo.externals)
           Demo.cfg1 "discord" "123456789" None None (Demo.start 0)).
  - reflexivity.
  - reflexivity.
Defined.

End ResolverWitnesses.

(** ** Claims about what a lookup stores *)

Section LookupClaims.
Context `{E : Externals}.
Import DirectoryCache.

(** C8 (amended).  On a lookup that misses the cache, the entries fetched
    are stored under the cache-source key when they are not empty or live
    escalation is off, and no further listing is made.  When the fetch
    returns no entry and live escalation is on, nothing is stored under the
    cache-source key; the live listing is requested once, which is one call
    to the plugin's live (else plain) listing function where it has one,
    and its result is stored under the live-source key and returned. *)
Theorem miss_stores_fetched_entries
    cfg channel accountId kind query live s c1 entries s2 :
  get (dateNow (st_world s)) (directoryKey channel accountId kind src_cache) cfg
      (st_cache s) = (None, c1) ->
  listDirectoryEntries cfg channel accountId kind query src_cache (setCache c1 s)
  = (Normal entries, s2) ->
  (entries <> [] \/ live = false ->
   exists s3,
     getDirectoryEntries cfg channel accountId kind query live s
     = (Normal entries, s3)
     /\ cache (st_cache s3) !! directoryKey channel accountId kind src_cache
        = Some {| value := entries; fetchedAt := dateNow (st_world s2) |}
     /\ st_log s3 = st_log s2)
  /\ (entries = [] -> live = true ->
      forall liveEntries s3,
        listDirectoryEntries cfg channel accountId kind query src_live s2
        = (Normal liveEntries, s3) ->
        (exists s4,
            getDirectoryEntries cfg channel accountId kind query live s
            = (Normal liveEntries, s4)
            /\ cache (st_cache s4) !! directoryKey channel accountId kind src_live
               = Some {| value := liveEntries; fetchedAt := dateNow (st_world s3) |}
            /\ cache (st_cache s4) !! directoryKey channel accountId kind src_cache
               = None
            /\ st_log s4 = st_log s3)
        /\ (forall dir tag fn,
              getChannelPluginDirectory channel = Some dir ->
              pickDirectoryFn dir kind true = Some (tag, fn) ->
              st_log s3
              = EvDirectory channel tag
                  {| dl_cfg := cfg; dl_accountId := accountId; dl_query := query |}
                :: st_log s2)).
Proof.
  intros Hget Hlist.
  rewrite (getDirectoryEntries_miss _ _ _ _ _ live _ _ Hget), Hlist.
  split.
  - intros Hcase.
    assert (((0 <? length entries)%nat || negb live)%bool = true) as ->.
    { destruct Hcase as [Hne | ->]; [|apply orb_true_r].
      destruct entries; [done | reflexivity]. }
    eexists. split; [reflexivity|]. split; [apply lookup_set_eq | reflexivity].
  - intros -> -> liveEntries s3 Hlive. cbn [length Nat.ltb Nat.leb orb negb].
    rewrite Hlive.
    pose proof (listDirectoryEntries_effect cfg channel accountId kind query
                  src_cache (setCache c1 s)) as Heff1.
    rewrite Hlist in Heff1. destruct Heff1 as [Hc2 _].
    pose proof (listDirectoryEntries_effect cfg channel accountId kind query
                  src_live s2) as Heff2.
    rewrite Hlive in Heff2. destruct Heff2 as [Hc3 _].
    destruct (get_none _ _ _ _ _ _ Hget) as (Hnone & Href & _).
    split.
    + eexists. split; [reflexivity|]. split; [apply lookup_set_eq|].
      split; [|reflexivity]. cbn [st_cache setCache].
      rewrite lookup_set_ne.
      * rewrite Hc3, Hc2. exact Hnone.
      * apply directoryKey_cache_live.
      * rewrite Hc3, Hc2. exact Href.
    + intros dir tag fn Hdir Hpick.
      rewrite (listDirectoryEntries_call _ _ _ _ _ src_live _ dir tag fn Hdir Hpick)
        in Hlive.
      unfold await in Hlive. destruct (fn _ _) as [r w].
      injection Hlive as _ <-. reflexivity.
Qed.

(** C6 (amended).  In every state an instance can reach, a [get] or [set]
    with a configuration object other than the one last seen first drops
    every entry.  When a first resolution misses the cache and its fetch
    returns at least one entry, that fetch is its only directory call; a
    second resolution for the same channel, account and kind then makes no
    directory call under the same configuration object, as long as the
    snapshot is at most 1,800,000 ms old, and fetches again under a
    different configuration object. *)
Theorem config_identity_guards_cache :
  (forall (T : Type) ttl (c : DirectoryCache.t T) cfg now key v,
      reachable ttl c ->
      lastConfigRef c <> Some (cfg_ref cfg) ->
      get now key cfg c
      = (None, {| cache := ∅; lastConfigRef := Some (cfg_ref cfg); ttlMs := ttl |})
      /\ set now key v cfg c
         = {| cache := {[ key := {| value := v; fetchedAt := now |} ]};
              lastConfigRef := Some (cfg_ref cfg);
              ttlMs := ttl |})
  /\ (forall cfg channel accountId input1 pk1 input2 pk2 s0 kind dir tag fn entries w1,
        let raw1 := normalizeChannelTargetInput input1 in
        let raw2 := normalizeChannelTargetInput input2 in
        Js.truthy raw1 = true ->
        looksLikeId channel (default raw1 (normalizeTargetForProvider channel raw1))
        = false ->
        Js.truthy raw2 = true ->
        looksLikeId channel (default raw2 (normalizeTargetForProvider channel raw2))
        = false ->
        directoryKindOf (detectTargetKind raw1 pk1) = kind ->
        directoryKindOf (detectTargetKind raw2 pk2) = kind ->
        ttlMs (st_cache s0) = CACHE_TTL_MS ->
        (get (dateNow (st_world s0)) (directoryKey channel accountId kind src_cache)
             cfg (st_cache s0)).1 = None ->
        getChannelPluginDirectory channel = Some dir ->
        pickDirectoryFn dir kind false = Some (tag, fn) ->
        fn {| dl_cfg := cfg; dl_accountId := accountId;
              dl_query := Some (stripTargetPrefixes raw1) |} (st_world s0)
        = (Normal entries, w1) ->
        entries <> [] ->
        let s1 := (resolveMessagingTarget cfg channel input1 accountId pk1 s0).2 in
        st_log s1
        = EvDirectory channel tag
            {| dl_cfg := cfg; dl_accountId := accountId;
               dl_query := Some (stripTargetPrefixes raw1) |} :: st_log s0
        /\ forall w2,
            let s1' := {| st_world := w2; st_cache := st_cache s1;
                          st_log := st_log s1 |} in
            (dateNow w2 - dateNow w1 <= 1800000 ->
             st_log (resolveMessagingTarget cfg channel input2 accountId pk2 s1').2
             = st_log s1)
            /\ (forall cfg',
                  cfg_ref cfg' <> cfg_ref cfg ->
                  exists later,
                    st_log (resolveMessagingTarget cfg' channel input2 accountId
                              pk2 s1').2
                    = (later ++
                       EvDirectory channel tag
                         {| dl_cfg := cfg'; dl_accountId := accountId;
                            dl_query := Some (stripTargetPrefixes raw2) |}
                       :: st_log s1)%list)).
Proof.
  split.
  - intros T ttl c cfg now key v Hreach Hne.
    unfold get, set. rewrite (reset_other_config ttl cfg c Hreach Hne). simpl.
    split; [by rewrite lookup_empty | reflexivity].
  - intros cfg channel accountId input1 pk1 input2 pk2 s0 kind dir tag fn entries w1
           raw1 raw2 Hraw1 Hid1 Hraw2 Hid2 Hk1 Hk2 Httl Hmiss Hdir Hpick Hfn Hne s1.
    (* the first resolution *)
    destruct (get (dateNow (st_world s0)) _ cfg (st_cache s0)) as [r0 c1] eqn:Hget.
    simpl in Hmiss. subst r0.
    destruct (get_none _ _ _ _ _ _ Hget) as (_ & Href1 & Httl1).
    assert (s1 = setCache
                   (set (dateNow w1) (directoryKey channel accountId kind src_cache)
                      entries cfg c1)
                   {| st_world := w1; st_cache := c1;
                      st_log := EvDirectory channel tag
                                  {| dl_cfg := cfg; dl_accountId := accountId;
                                     dl_query := Some (stripTargetPrefixes raw1) |}
                                :: st_log s0 |}) as Hs1.
    { unfold s1.
      rewrite (resolveMessagingTarget_lookup cfg channel input1 accountId pk1 s0
                 Hraw1 Hid1).
      fold raw1. rewrite Hk1.
      rewrite (getDirectoryEntries_miss _ _ _ _ _ _ _ _ Hget).
      rewrite (listDirectoryEntries_call _ _ _ _ _ src_cache _ dir tag fn Hdir Hpick).
      unfold await. cbn [st_world setCache]. rewrite Hfn.
      destruct entries as [|e es]; [done|]. reflexivity. }
    split; [by rewrite Hs1|].
    intros w2 s1'. split.
    + (* same configuration object, snapshot still valid *)
      intros Hage. unfold s1'.
      rewrite (resolveMessagingTarget_lookup cfg channel input2 accountId pk2 _
                 Hraw2 Hid2).
      fold raw2. rewrite Hk2.
      erewrite getDirectoryEntries_hit; [reflexivity|].
      cbn [st_world st_cache]. rewrite Hs1. cbn [st_cache setCache].
      rewrite (get_present _ _ cfg _ {| value := entries; fetchedAt := dateNow w1 |});
        [| reflexivity | apply lookup_set_eq].
      rewrite ttlMs_set, Httl1, Httl. cbn [fetchedAt value].
      destruct (Z.gtb_spec (dateNow w2 - dateNow w1) CACHE_TTL_MS) as [Hgt|_];
        [unfold CACHE_TTL_MS in Hgt; lia | reflexivity].
    + (* another configuration object *)
      intros cfg' Hcfg. unfold s1'.
      rewrite (resolveMessagingTarget_lookup cfg' channel input2 accountId pk2 _
                 Hraw2 Hid2).
      fold raw2. rewrite Hk2.
      set (sB := {| st_world := w2; st_cache := st_cache s1; st_log := st_log s1 |}).
      assert (get (dateNow (st_world sB))
                  (directoryKey channel accountId kind src_cache) cfg' (st_cache sB)
              = (None, {| cache := ∅; lastConfigRef := Some (cfg_ref cfg');
                          ttlMs := ttlMs (st_cache sB) |})) as HgetB.
      { unfold get.
        rewrite (resetIfConfigChanged_other cfg' (st_cache sB) (cfg_ref cfg)).
        - simpl. by rewrite lookup_empty.
        - unfold sB. cbn [st_cache]. rewrite Hs1. reflexivity.
        - congruence. }
      destruct (getDirectoryEntries_miss_log cfg' channel accountId kind
                  (Some (stripTargetPrefixes raw2)) true sB _ HgetB)
        as [later Hlater].
      exists later. rewrite Hlater. f_equal.
      rewrite (listDirectoryEntries_call _ _ _ _ _ src_cache _ dir tag fn Hdir Hpick).
      unfold await. subst sB. cbn [st_world setCache].
      destruct (fn _ w2). reflexivity.
Qed.

End LookupClaims.

(** ** The runner *)

Local Open Scope list_scope.

Section RunnerFacts.
Context `{E : Externals}.

Lemma forOf_cons {A B} (body : B -> A -> M B) x rest acc :
  forOf body (x :: rest) acc
  = bind (body acc x) (fun acc' => forOf body rest acc').
Proof. reflexivity. Qed.

Lemma forOf_ext {A B} (body1 body2 : B -> A -> M B) xs :
  (forall acc x s, body1 acc x s = body2 acc x s) ->
  forall acc s, forOf body1 xs acc s = forOf body2 xs acc s.
Proof.
  intros Hbody. induction xs as [|x rest IH]; intros acc s; simpl; [done|].
  unfold bind. rewrite Hbody. destruct (body2 acc x s) as [[acc'|e] s']; auto.
Qed.

(** The handler of [broadcast] is not consulted for any other action. *)
Lemma runMessageActionWith_other broadcast1 broadcast2 input s :
  in_action input <> a_broadcast ->
  runMessageActionWith broadcast1 input s = runMessageActionWith broadcast2 input s.
Proof.
  intros Hne. unfold runMessageActionWith, bind.
  destruct (lift (parseButtonsParam (in_params input)) s) as [[params|e] s1];
    [|reflexivity].
  destruct (decide (in_action input = a_broadcast)); [contradiction | reflexivity].
Qed.

Lemma broadcastPair_ext self1 self2 input params channel target s :
  (forall i s, in_action i = a_send -> self1 i s = self2 i s) ->
  broadcastPair self1 input params channel target s
  = broadcastPair self2 input params channel target s.
Proof.
  intros Hself. unfold broadcastPair, tryCatch, bind.
  destruct (resolveChannelTarget _ _ _ _ _ s) as [[[resolved|error cands]|e] s1];
    try reflexivity.
  by rewrite Hself.
Qed.

Lemma handleBroadcastActionWith_ext self1 self2 input params s :
  (forall i s, in_action i = a_send -> self1 i s = self2 i s) ->
  handleBroadcastActionWith self1 input params s
  = handleBroadcastActionWith self2 input params s.
Proof.
  intros Hself. unfold handleBroadcastActionWith, bind.
  destruct (broadcastPlan input params s) as [[[rawTargets targetChannels]|e] s1];
    [|reflexivity].
  unfold broadcastLoop.
  rewrite (forOf_ext _
             (fun results targetChannel =>
                forOf
                  (fun results target =>
                     outcome <- broadcastPair self2 input params targetChannel target ;;
                     ret ((results ++ [outcome])%list))
                  rawTargets results)); [reflexivity|].
  intros acc channel s'. apply forOf_ext. intros acc' target s''.
  unfold bind. by rewrite (broadcastPair_ext self1 self2).
Qed.

(** The definitions satisfy the recursive equations of the source:
    [runMessageAction] hands a broadcast to [handleBroadcastAction], whose
    nested calls are calls of [runMessageAction]. *)
Lemma runMessageAction_unfold input s :
  runMessageAction input s
  = runMessageActionWith (handleBroadcastActionWith runMessageAction) input s.
Proof.
  unfold runMessageAction at 1. unfold runMessageActionWith, bind.
  destruct (lift (parseButtonsParam (in_params input)) s) as [[params|e] s1];
    [|reflexivity].
  destruct (decide (in_action input = a_broadcast)); [|reflexivity].
  apply handleBroadcastActionWith_ext. intros i s' Hi.
  apply runMessageActionWith_other. rewrite Hi. discriminate.
Qed.

(** The loop body never throws: either the pair succeeds and its outcome
    carries the resolved destination, or it fails and its outcome carries
    the raw target and the message. *)
Lemma broadcastPair_cases self input params channel target s :
  (exists resolved result s',
      pairSucceeds self input params channel target s resolved result s'
      /\ broadcastPair self input params channel target s
         = (Normal {| bo_channel := channel;
                      bo_to := rt_to resolved;
                      bo_ok := true;
                      bo_error := None;
                      bo_result :=
                        match result with
                        | RunSend _ _ _ _ _ sendResult _ => sendResult
                        | _ => None
                        end |}, s'))
  \/ (exists message s',
         pairFails self input params channel target s message s'
         /\ broadcastPair self input params channel target s
            = (Normal {| bo_channel := channel;
                         bo_to := target;
                         bo_ok := false;
                         bo_error := Some message;
                         bo_result := None |}, s')).
Proof.
  unfold broadcastPair, pairSucceeds, pairFails, nestedSend, tryCatch, bind.
  destruct (resolveChannelTarget _ _ _ _ _ s) as [[[resolved|error cands]|e] s1].
  - destruct (self _ s1) as [[result|e] s2] eqn:Hself.
    + left. exists resolved, result, s2. split; [|reflexivity].
      exists s1. by rewrite Hself.
    + right. exists e, s2. split; [|reflexivity].
      right. right. exists resolved, s1. by rewrite Hself.
  - right. exists error, s1. split; [|reflexivity]. right. left. by exists cands.
  - right. exists e, s1. split; [|reflexivity]. by left.
Qed.

Lemma broadcastPair_total self input params channel target s :
  exists outcome s',
    broadcastPair self input params channel target s = (Normal outcome, s').
Proof.
  destruct (broadcastPair_cases self input params channel target s)
    as [(? & ? & ? & _ & ->) | (? & ? & _ & ->)]; eauto.
Qed.

Lemma pairsRun_app self input params pairs1 pairs2 s os1 s1 os2 s2 :
  pairsRun self input params pairs1 s os1 s1 ->
  pairsRun self input params pairs2 s1 os2 s2 ->
  pairsRun self input params (pairs1 ++ pairs2) s (os1 ++ os2) s2.
Proof.
  induction 1 as [|c t rest s o s1 os s1' Hpair Hrest IH]; intros Hrun2; simpl;
    [done|].
  econstructor; [exact Hpair | by apply IH].
Qed.

Lemma pairsRun_length self input params pairs s os s' :
  pairsRun self input params pairs s os s' -> length os = length pairs.
Proof. induction 1; simpl; congruence. Qed.

(** The inner loop, for one channel. *)
Lemma targets_loop_runs self input params channel rawTargets acc s :
  exists outcomes s',
    forOf (fun results target =>
             outcome <- broadcastPair self input params channel target ;;
             ret ((results ++ [outcome])%list))
          rawTargets acc s
    = (Normal (acc ++ outcomes), s')
    /\ pairsRun self input params (List.map (pair channel) rawTargets) s outcomes s'.
Proof.
  revert acc s. induction rawTargets as [|t rest IH]; intros acc s; simpl.
  - exists [], s. rewrite app_nil_r. split; [reflexivity | constructor].
  - destruct (broadcastPair_total self input params channel t s) as (o & s1 & Ho).
    unfold bind at 1. unfold bind at 1. rewrite Ho. simpl.
    destruct (IH (acc ++ [o]) s1) as (os & s2 & Hloop & Hrun).
    exists (o :: os), s2. rewrite Hloop, <- app_assoc. split; [reflexivity|].
    econstructor; eauto.
Qed.

(** The two loops: every pair of the cross product runs, channel by
    channel and target by target, whatever the earlier pairs did. *)
Lemma broadcastLoop_runs self input params targetChannels rawTargets s :
  exists outcomes s',
    broadcastLoop self input params targetChannels rawTargets s
    = (Normal outcomes, s')
    /\ pairsRun self input params (list_prod targetChannels rawTargets) s outcomes s'.
Proof.
  unfold broadcastLoop.
  assert (forall acc s,
             exists outcomes s',
               forOf (fun results targetChannel =>
                        forOf (fun results target =>
                                 outcome <- broadcastPair self input params
                                              targetChannel target ;;
                                 ret ((results ++ [outcome])%list))
                              rawTargets results)
                     targetChannels acc s
               = (Normal (acc ++ outcomes), s')
               /\ pairsRun self input params (list_prod targetChannels rawTargets)
                           s outcomes s') as Hgen.
  { induction targetChannels as [|c rest IH]; intros acc s0.
    - exists [], s0. rewrite app_nil_r. split; [reflexivity | constructor].
    - destruct (targets_loop_runs self input params c rawTargets acc s0)
        as (os1 & s1 & Hinner & Hrun1).
      rewrite forOf_cons. unfold bind at 1. rewrite Hinner. cbn [list_prod].
      destruct (IH (acc ++ os1) s1) as (os2 & s2 & Houter & Hrun2).
      exists (os1 ++ os2), s2. rewrite Houter, <- app_assoc.
      split; [reflexivity|]. eapply pairsRun_app; eauto. }
  destruct (Hgen [] s) as (os & s' & Hloop & Hrun). exists os, s'. by split.
Qed.

(** A broadcast whose plan is made returns the outcomes of its pairs. *)
Lemma handleBroadcastAction_runs input params s rawTargets targetChannels s1 :
  broadcastPlan input params s = (Normal (rawTargets, targetChannels), s1) ->
  exists outcomes s',
    handleBroadcastAction input params s
    = (Normal (RunBroadcast (List.hd "discord" targetChannels)
                 (if default false (in_dryRun input) then hb_dry_run else hb_core)
                 outcomes (default false (in_dryRun input))), s')
    /\ pairsRun runSingleAction input params (list_prod targetChannels rawTargets)
                s1 outcomes s'.
Proof.
  intros Hplan. unfold handleBroadcastAction, handleBroadcastActionWith, bind.
  rewrite Hplan.
  destruct (broadcastLoop_runs runSingleAction input params targetChannels
              rawTargets s1) as (os & s' & -> & Hrun).
  exists os, s'. by split.
Qed.

(** A plan has at least one target and one channel. *)
Lemma broadcastPlan_nonempty input params s rawTargets targetChannels s1 :
  broadcastPlan input params s = (Normal (rawTargets, targetChannels), s1) ->
  rawTargets <> [] /\ targetChannels <> [].
Proof.
  unfold broadcastPlan, bind, lift, throw, ret.
  destruct (negb _); [discriminate|].
  destruct (readStringArrayParam params "targets") as [targets|]; [|discriminate].
  destruct (length (default [] targets) =? 0)%nat eqn:Hlen; [discriminate|].
  destruct (readStringParam params "channel" noOpts) as [hint|]; [|discriminate].
  destruct (await None _ s) as [[configured|] s2]; [|discriminate].
  destruct (length configured =? 0)%nat eqn:Hconf; [discriminate|].
  assert (default [] targets <> []) as Ht
    by (intros Heq; rewrite Heq in Hlen; discriminate Hlen).
  assert (configured <> []) as Hc
    by (intros Heq; rewrite Heq in Hconf; discriminate Hconf).
  destruct hint as [hint|].
  - destruct (Js.truthy hint && _)%bool.
    + destruct (resolveChannel _ _ s2) as [[channel|] s3]; [|discriminate].
      intros [= <- <- <-]. done.
    + intros [= <- <- <-]. done.
  - intros [= <- <- <-]. done.
Qed.

End RunnerFacts.

(** ** Claims about the runner *)

Section RunnerClaims.
Context `{E : Externals}.

(** What the outcome of a pair records. *)
Lemma broadcastPair_outcome self input params channel target s outcome s' :
  broadcastPair self input params channel target s = (Normal outcome, s') ->
  bo_channel outcome = channel
  /\ (bo_ok outcome = true ->
      bo_error outcome = None
      /\ exists resolved result,
          pairSucceeds self input params channel target s resolved result s'
          /\ bo_to outcome = rt_to resolved)
  /\ (bo_ok outcome = false ->
      bo_to outcome = target
      /\ bo_result outcome = None
      /\ exists message,
          bo_error outcome = Some message
          /\ pairFails self input params channel target s message s').
Proof.
  intros Hrun.
  destruct (broadcastPair_cases self input params channel target s)
    as [(resolved & result & s2 & Hok & Heq) | (message & s2 & Hfail & Heq)];
    rewrite Heq in Hrun; injection Hrun as <- <-; simpl.
  - split; [reflexivity|]. split; [|discriminate].
    intros _. split; [reflexivity|]. by exists resolved, result.
  - split; [reflexivity|]. split; [discriminate|].
    intros _. split; [reflexivity|]. split; [reflexivity|]. by exists message.
Qed.

Lemma pairsRun_Forall2 self input params pairs s outcomes s' :
  pairsRun self input params pairs s outcomes s' ->
  Forall2 (fun outcome pair =>
             exists sA sB,
               broadcastPair self input params pair.1 pair.2 sA
               = (Normal outcome, sB))
          outcomes pairs.
Proof.
  induction 1 as [|c t rest s o s1 os s2 Hpair Hrest IH]; constructor; eauto.
Qed.

(** C2.  A broadcast whose plan yields the raw targets [rawTargets] and the
    channels [targetChannels] (both are then non-empty) returns
    [|targetChannels| * |rawTargets|] outcomes, the i-th one belonging to the
    i-th pair of the cross product enumerated channel by channel and, for
    each channel, target by target: it carries that channel, and its
    destination is that raw target, or what that raw target resolved to on
    that channel. *)
Theorem broadcast_outcomes_follow_cross_product
    input params s rawTargets targetChannels s1 :
  broadcastPlan input params s = (Normal (rawTargets, targetChannels), s1) ->
  rawTargets <> [] /\ targetChannels <> []
  /\ exists outcomes s',
      handleBroadcastAction input params s
      = (Normal (RunBroadcast (List.hd "discord" targetChannels)
                   (if default false (in_dryRun input) then hb_dry_run else hb_core)
                   outcomes (default false (in_dryRun input))), s')
      /\ length outcomes = (length targetChannels * length rawTargets)%nat
      /\ Forall2
           (fun outcome pair =>
              bo_channel outcome = pair.1
              /\ (bo_to outcome = pair.2
                  \/ exists resolved sA sB,
                      resolveChannelTarget (in_cfg input) pair.1 pair.2 None None sA
                      = (Normal (ResolveOk resolved), sB)
                      /\ bo_to outcome = rt_to resolved))
           outcomes (list_prod targetChannels rawTargets).
Proof.
  intros Hplan.
  destruct (broadcastPlan_nonempty _ _ _ _ _ _ Hplan) as [Ht Hc].
  split; [exact Ht|]. split; [exact Hc|].
  destruct (handleBroadcastAction_runs _ _ _ _ _ _ Hplan) as (os & s' & Hrun & Hpairs).
  exists os, s'. split; [exact Hrun|]. split.
  - rewrite (pairsRun_length _ _ _ _ _ _ _ Hpairs). apply List.length_prod.
  - eapply Forall2_impl; [exact (pairsRun_Forall2 _ _ _ _ _ _ _ Hpairs)|].
    intros o [c t] (sA & sB & Hpair). simpl in *.
    destruct (broadcastPair_outcome _ _ _ _ _ _ _ _ Hpair) as (Hch & Hok & Hfail).
    split; [exact Hch|].
    destruct (bo_ok o).
    + right. destruct (Hok eq_refl) as (_ & resolved & result & (sM & Hres & _) & Hto).
      by exists resolved, sA, sM.
    + left. by destruct (Hfail eq_refl).
Qed.

Lemma pairsRun_recorded self input params pairs s outcomes s' :
  pairsRun self input params pairs s outcomes s' ->
  pairsRecorded self input params pairs s outcomes s'.
Proof.
  induction 1 as [s|channel target rest s outcome s1 outcomes s2 Hpair _ IH];
    [constructor|].
  destruct (broadcastPair_cases self input params channel target s)
    as [(resolved & result & s1' & Hok & Heq) | (message & s1' & Hfail & Heq)];
    rewrite Heq in Hpair; injection Hpair as <- <-.
  - by eapply recorded_ok.
  - by eapply recorded_failed.
Qed.

(** C10.  A pair of a broadcast whose target resolves and whose nested
    send returns is recorded as [ok] with the destination the target
    resolved to (the one the nested send was given); a pair that fails, in
    its resolution or in its nested send, is recorded as not [ok] with the
    raw target of the pair and the error message.  The outcome list of a
    broadcast is made of these records, pair by pair, each pair starting
    in the state the one before it ended in. *)
Theorem broadcast_destination_by_outcome input params :
  (forall channel target s resolved result s',
      pairSucceeds runSingleAction input params channel target s resolved result s' ->
      broadcastPair runSingleAction input params channel target s
      = (Normal {| bo_channel := channel;
                   bo_to := rt_to resolved;
                   bo_ok := true;
                   bo_error := None;
                   bo_result :=
                     match result with
                     | RunSend _ _ _ _ _ sendResult _ => sendResult
                     | _ => None
                     end |}, s'))
  /\ (forall channel target s message s',
        pairFails runSingleAction input params channel target s message s' ->
        broadcastPair runSingleAction input params channel target s
        = (Normal {| bo_channel := channel;
                     bo_to := target;
                     bo_ok := false;
                     bo_error := Some message;
                     bo_result := None |}, s'))
  /\ (forall s rawTargets targetChannels s1,
        broadcastPlan input params s = (Normal (rawTargets, targetChannels), s1) ->
        exists outcomes s',
          handleBroadcastAction input params s
          = (Normal (RunBroadcast (List.hd "discord" targetChannels)
                       (if default false (in_dryRun input) then hb_dry_run else hb_core)
                       outcomes (default false (in_dryRun input))), s')
          /\ pairsRecorded runSingleAction input params
               (list_prod targetChannels rawTargets) s1 outcomes s').
Proof.
  split; [|split].
  - intros channel target s resolved result s' (sM & Hres & Hsend).
    unfold broadcastPair, tryCatch, bind, nestedSend in *.
    by rewrite Hres, Hsend.
  - intros channel target s message s' Hfail.
    destruct Hfail as [Hres | [(candidates & Hres) | (resolved & sM & Hres & Hsend)]];
      unfold broadcastPair, tryCatch, bind, nestedSend in *.
    + by rewrite Hres.
    + by rewrite Hres.
    + by rewrite Hres, Hsend.
  - intros s rawTargets targetChannels s1 Hplan.
    destruct (handleBroadcastAction_runs _ _ _ _ _ _ Hplan)
      as (outcomes & s' & Hrun & Hpairs).
    exists outcomes, s'. split; [exact Hrun|]. by apply pairsRun_recorded.
Qed.

(** C3 (amended).  A pair that fails, in its resolution or in its nested
    send, yields an outcome with [ok: false] and the error message, and
    the loop goes on: once the plan is made, the broadcast returns, with
    the outcomes of all pairs.  The broadcast itself throws only while
    making its plan: broadcast disabled, the target list rejected or
    empty, the channel hint not readable, the configured channels not
    listable or empty, or a given channel hint that does not resolve. *)
Theorem broadcast_isolates_pair_failures input params s :
  (forall channel target s0 message s0',
      pairFails runSingleAction input params channel target s0 message s0' ->
      broadcastPair runSingleAction input params channel target s0
      = (Normal {| bo_channel := channel;
                   bo_to := target;
                   bo_ok := false;
                   bo_error := Some message;
                   bo_result := None |}, s0'))
  /\ (forall rawTargets targetChannels s1,
        broadcastPlan input params s = (Normal (rawTargets, targetChannels), s1) ->
        exists outcomes s',
          handleBroadcastAction input params s
          = (Normal (RunBroadcast (List.hd "discord" targetChannels)
                       (if default false (in_dryRun input) then hb_dry_run else hb_core)
                       outcomes (default false (in_dryRun input))), s')
          /\ pairsRun runSingleAction input params
                      (list_prod targetChannels rawTargets) s1 outcomes s')
  /\ (forall e s',
        handleBroadcastAction input params s = (Throw e, s') ->
        cfg_broadcast_enabled (in_cfg input) = Some false
        \/ readStringArrayParam params "targets" = Throw e
        \/ (exists targets,
              readStringArrayParam params "targets" = Normal targets
              /\ default [] targets = [])
        \/ readStringParam params "channel" noOpts = Throw e
        \/ (exists w,
              listConfiguredMessageChannels (in_cfg input) (st_world s) = (Throw e, w))
        \/ (exists w,
              listConfiguredMessageChannels (in_cfg input) (st_world s) = (Normal [], w))
        \/ (exists hint s1,
              readStringParam params "channel" noOpts = Normal (Some hint)
              /\ resolveChannel (in_cfg input) {[ "channel" := VStr hint ]} s1
                 = (Throw e, s'))).
Proof.
  split; [|split].
  - intros channel target s0 message s0' Hfail.
    unfold broadcastPair, tryCatch, bind.
    destruct Hfail as [Hr | [(cands & Hr) | (resolved & sM & Hr & Hsend)]];
      rewrite Hr; [reflexivity | reflexivity |].
    unfold nestedSend in Hsend. by rewrite Hsend.
  - intros rawTargets targetChannels s1. apply handleBroadcastAction_runs.
  - intros e s'. unfold handleBroadcastAction, handleBroadcastActionWith.
    unfold bind at 1.
    destruct (broadcastPlan input params s) as [[[rawTargets targetChannels]|e0] s1]
      eqn:Hplan.
    { destruct (broadcastLoop_runs runSingleAction input params targetChannels
                  rawTargets s1) as (os & s2 & Hloop & _).
      unfold bind. rewrite Hloop. discriminate. }
    intros [= -> ->]. revert Hplan.
    unfold broadcastPlan, bind, lift, throw, ret.
    destruct (cfg_broadcast_enabled (in_cfg input)) as [[|]|]; cbn [negb];
      [| by left |].
    all: destruct (readStringArrayParam params "targets") as [targets|e1];
      [|intros [= -> _]; by right; left].
    all: destruct (length (default [] targets) =? 0)%nat eqn:Hlen;
      [intros _; right; right; left; exists targets; split; [done|];
       by destruct (default [] targets)|].
    all: destruct (readStringParam params "channel" noOpts) as [hint|e2];
      [|intros [= -> _]; by do 3 right; left].
    all: unfold await;
      destruct (listConfiguredMessageChannels (in_cfg input) (st_world s))
        as [[configured|e3] w];
      [|intros [= -> _]; do 4 right; left; by exists w].
    all: destruct (length configured =? 0)%nat eqn:Hconf;
      [intros _; do 5 right; left; exists w; by destruct configured|].
    all: destruct hint as [hint|]; [|discriminate].
    all: destruct (Js.truthy hint && _)%bool; [|discriminate].
    all: match goal with
         | |- context [resolveChannel ?c ?p ?st] =>
             destruct (resolveChannel c p st) as [[channel|e4] s3] eqn:Hres;
             [discriminate|]
         end.
    all: intros [= -> ->]; do 6 right; eauto.
Qed.

End RunnerClaims.

Section TargetRequirement.
Context `{E : Externals}.
Import ActionSpec.

(** The target check, reached without a target. *)
Lemma missing_target_throws input s params1 params2 :
  actionRequiresTarget (in_action input) = true ->
  parseButtonsParam (in_params input) = Normal params1 ->
  applyTargetToParams (in_action input) params1 = Normal params2 ->
  nonBlankString (getParam params2 "to") = false ->
  nonBlankString (getParam params2 "channelId") = false ->
  runMessageAction input s
  = (Throw ("Action " +:+ actionName (in_action input)
              +:+ " requires a target."), s).
Proof.
  intros Hreq Hbuttons Hmap Hto Hchan.
  unfold runMessageAction, runMessageActionWith, bind, lift.
  rewrite Hbuttons.
  destruct (decide (in_action input = a_broadcast)) as [Hb|_].
  { rewrite Hb in Hreq. discriminate Hreq. }
  rewrite Hmap, Hreq, Hto, Hchan. reflexivity.
Qed.

(** C7.  Every action name has exactly one entry in the table;
    [actionRequiresTarget] holds of an action exactly when its entry is not
    [none]; and [runMessageAction] on an action that requires a target,
    once the buttons are parsed and the generic target is mapped, throws
    "Action ... requires a target." when neither [to] nor [channelId] is a
    string with something other than white space in it (in particular when
    neither is a non-empty string), without touching the state.  A request
    that would reach the check without a target fails in any case: the
    steps before the check can only throw earlier. *)
Theorem target_requirement_enforced :
  (forall action, entriesFor action = 1%nat)
  /\ (forall action mode,
        In (action, mode) MESSAGE_ACTION_TARGET_MODE ->
        (actionRequiresTarget action = true <-> mode <> none))
  /\ (forall input s params1 params2,
        actionRequiresTarget (in_action input) = true ->
        parseButtonsParam (in_params input) = Normal params1 ->
        applyTargetToParams (in_action input) params1 = Normal params2 ->
        nonBlankString (getParam params2 "to") = false ->
        nonBlankString (getParam params2 "channelId") = false ->
        runMessageAction input s
        = (Throw ("Action " +:+ actionName (in_action input)
                    +:+ " requires a target."), s))
  /\ (forall input s,
        actionRequiresTarget (in_action input) = true ->
        (forall params1 params2,
            parseButtonsParam (in_params input) = Normal params1 ->
            applyTargetToParams (in_action input) params1 = Normal params2 ->
            nonBlankString (getParam params2 "to") = false
            /\ nonBlankString (getParam params2 "channelId") = false) ->
        exists e, runMessageAction input s = (Throw e, s)).
Proof.
  split; [|split; [|split]].
  - intros action. destruct action; reflexivity.
  - intros action mode Hin. unfold MESSAGE_ACTION_TARGET_MODE in Hin.
    simpl in Hin.
    repeat (destruct Hin as [[= <- <-] | Hin]; [by vm_compute; split|]).
    destruct Hin.
  - exact missing_target_throws.
  - intros input s Hreq Hnone.
    destruct (parseButtonsParam (in_params input)) as [params1|e] eqn:Hbuttons.
    + destruct (applyTargetToParams (in_action input) params1) as [params2|e]
        eqn:Hmap.
      * destruct (Hnone _ _ eq_refl Hmap) as [Hto Hchan]. eexists.
        exact (missing_target_throws input s params1 params2 Hreq Hbuttons Hmap
                 Hto Hchan).
      * exists e. unfold runMessageAction, runMessageActionWith, bind, lift.
        rewrite Hbuttons.
        destruct (decide (in_action input = a_broadcast)) as [Hb|_].
        { rewrite Hb in Hreq. discriminate Hreq. }
        by rewrite Hmap.
    + exists e. unfold runMessageAction, runMessageActionWith, bind, lift.
      by rewrite Hbuttons.
Qed.

End TargetRequirement.

(** ** Dry runs *)

Section DryRunFacts.
Context `{E : Externals}.
Import DirectoryCache.

Lemma listDirectoryEntries_dispatchCalls cfg channel accountId kind query source s :
  dispatchCalls
    (st_log (listDirectoryEntries cfg channel accountId kind query source s).2)
  = dispatchCalls (st_log s).
Proof.
  pose proof (listDirectoryEntries_effect cfg channel accountId kind query source s)
    as Heff.
  destruct (listDirectoryEntries _ _ _ _ _ _ s) as [r s'].
  destruct Heff as [_ [Hl | (tag & args & Hl)]]; simpl; rewrite Hl; reflexivity.
Qed.

Lemma getDirectoryEntries_dispatchCalls cfg channel accountId kind query live s :
  dispatchCalls (st_log (getDirectoryEntries cfg channel accountId kind query live s).2)
  = dispatchCalls (st_log s).
Proof.
  destruct (get (dateNow (st_world s)) (directoryKey channel accountId kind src_cache)
              cfg (st_cache s)) as [[entries|] c1] eqn:Hget.
  - by rewrite (getDirectoryEntries_hit _ _ _ _ _ _ _ _ _ Hget).
  - rewrite (getDirectoryEntries_miss _ _ _ _ _ _ _ _ Hget).
    pose proof (listDirectoryEntries_dispatchCalls cfg channel accountId kind query
                  src_cache (setCache c1 s)) as H1.
    destruct (listDirectoryEntries _ _ _ _ _ src_cache _) as [[entries|e] s2];
      [|exact H1].
    destruct ((0 <? length entries)%nat || negb live)%bool; [exact H1|].
    pose proof (listDirectoryEntries_dispatchCalls cfg channel accountId kind query
                  src_live s2) as H2.
    destruct (listDirectoryEntries _ _ _ _ _ src_live _) as [[liveEntries|e] s3];
      simpl in *; congruence.
Qed.

(** A resolution calls no dispatch service. *)
Lemma resolveMessagingTarget_dispatchCalls cfg channel input accountId pk s :
  dispatchCalls (st_log (resolveMessagingTarget cfg channel input accountId pk s).2)
  = dispatchCalls (st_log s).
Proof.
  destruct (Js.truthy (normalizeChannelTargetInput input)) eqn:Hraw;
    [|by unfold resolveMessagingTarget; rewrite Hraw].
  destruct (looksLikeId channel
              (default (normalizeChannelTargetInput input)
                 (normalizeTargetForProvider channel
                    (normalizeChannelTargetInput input)))) eqn:Hid;
    [by unfold resolveMessagingTarget; rewrite Hraw, Hid|].
  rewrite (resolveMessagingTarget_lookup _ _ _ _ _ _ Hraw Hid).
  apply getDirectoryEntries_dispatchCalls.
Qed.

Lemma resolveChannel_log cfg params s :
  st_log (resolveChannel cfg params s).2 = st_log s.
Proof.
  unfold resolveChannel, bind, lift, await.
  destruct (readStringParam params "channel" noOpts); [|reflexivity].
  by destruct (resolveMessageChannelSelection _ _ _).
Qed.

Lemma callsNoDispatch_ret {A} (a : A) : callsNoDispatch (ret a).
Proof. intros s. reflexivity. Qed.

Lemma callsNoDispatch_throw {A} e : callsNoDispatch (@throw _ A e).
Proof. intros s. reflexivity. Qed.

Lemma callsNoDispatch_bind {A B} (m : M A) (k : A -> M B) :
  callsNoDispatch m -> (forall a, callsNoDispatch (k a)) ->
  callsNoDispatch (bind m k).
Proof.
  intros Hm Hk s. unfold bind. specialize (Hm s).
  destruct (m s) as [[a|e] s1]; simpl in Hm; [|exact Hm].
  rewrite (Hk a s1). exact Hm.
Qed.

Lemma resolveActionTarget_dispatchCalls cfg channel action args accountId :
  callsNoDispatch (resolveActionTarget cfg channel action args accountId).
Proof.
  unfold resolveActionTarget, resolveChannelTarget.
  apply callsNoDispatch_bind.
  - destruct (Js.truthy _); [|apply callsNoDispatch_ret].
    apply callsNoDispatch_bind.
    + intros s. apply resolveMessagingTarget_dispatchCalls.
    + intros [t|err c]; [apply callsNoDispatch_ret | apply callsNoDispatch_throw].
  - intros args1. destruct (Js.truthy _); [|apply callsNoDispatch_ret].
    apply callsNoDispatch_bind.
    + intros s. apply resolveMessagingTarget_dispatchCalls.
    + intros [t|err c]; [|apply callsNoDispatch_throw].
      destruct (decide _); [apply callsNoDispatch_throw | apply callsNoDispatch_ret].
Qed.

(** The send handler reads and checks its parameters the same way with
    the flag set and unset: either both runs throw the same error in the
    same state before the send service is called, or both call it, for the
    same request. *)
Lemma handleSendAction_lockstep cfg params channel accountId gateway input s :
  let ctx flag :=
    {| rc_cfg := cfg; rc_params := params; rc_channel := channel;
       rc_accountId := accountId; rc_dryRun := flag; rc_gateway := gateway;
       rc_input := withDryRun input (Some flag) |} in
  (exists e s',
      handleSendAction (ctx true) s = (Throw e, s')
      /\ handleSendAction (ctx false) s = (Throw e, s')
      /\ st_log s' = st_log s)
  \/ (exists argsDry argsLive,
         st_log (handleSendAction (ctx true) s).2 = EvSend argsDry :: st_log s
         /\ st_log (handleSendAction (ctx false) s).2 = EvSend argsLive :: st_log s
         /\ dc_dryRun (es_ctx argsDry) = true
         /\ dc_dryRun (es_ctx argsLive) = false
         /\ sameSendRequest argsDry argsLive).
Proof.
  intros ctx. unfold ctx, handleSendAction, decorationFor, bind, lift, ret.
  cbn [rc_cfg rc_params rc_channel rc_accountId rc_dryRun rc_gateway rc_input
       withDryRun in_toolContext in_deps in_sessionKey in_agentId].
  destruct (readStringParam params "to" _) as [to|e]; [|left; by exists e, s].
  destruct (readStringParam params "media" _) as [mediaHint|e];
    [|left; by exists e, s].
  destruct (readStringParam params "message" _) as [message|e];
    [|left; by exists e, s].
  set (params1 := if negb (truthyValue (getParam _ "media")) then _ else _).
  assert (exists decoration s1,
             st_log s1 = st_log s
             /\ (match shouldApplyCrossContextMarker a_send, in_toolContext input with
                 | true, Some toolContext =>
                     await None
                       (buildCrossContextDecoration
                          {| bd_cfg := cfg; bd_channel := channel; bd_target := to;
                             bd_toolContext := toolContext;
                             bd_accountId := accountId |})
                 | _, _ => fun s => (Normal None, s)
                 end) s = (decoration, s1)) as (decoration & s1 & Hlog & ->).
  { destruct (shouldApplyCrossContextMarker a_send); [|by exists (Normal None), s].
    destruct (in_toolContext input); [|by exists (Normal None), s].
    unfold await. destruct (buildCrossContextDecoration _ _) as [d w].
    eexists _, _. split; [|reflexivity]. reflexivity. }
  destruct decoration as [decoration|e]; [|left; by exists e, s1].
  destruct (match decoration with
            | Some d => applyCrossContextMessageDecoration params1 _ d true
            | None => _
            end) as [message' params2].
  destruct (readStringParam params2 "media" _) as [mediaUrl|e];
    [|left; by exists e, s1].
  right. unfold await.
  do 2 match goal with
       | |- context [executeSendAction ?a ?w] =>
           destruct (executeSendAction a w) as [[?|?] ?]
       end.
  all: cbn [snd st_log]; rewrite Hlog.
  all: eexists _, _; split; [reflexivity|]; split; [reflexivity|].
  all: split; [reflexivity|]; split; [reflexivity|].
  all: repeat split.
Qed.

(** The same, up to the call of the send service: when both runs reach
    it, they do so in the same state, and each returns what the handler
    makes of the completion of its call. *)
Lemma handleSendAction_service cfg params channel accountId gateway input s :
  let ctx flag :=
    {| rc_cfg := cfg; rc_params := params; rc_channel := channel;
       rc_accountId := accountId; rc_dryRun := flag; rc_gateway := gateway;
       rc_input := withDryRun input (Some flag) |} in
  (exists e s',
      handleSendAction (ctx true) s = (Throw e, s')
      /\ handleSendAction (ctx false) s = (Throw e, s')
      /\ st_log s' = st_log s)
  \/ (exists argsDry argsLive s1 to,
         st_log s1 = st_log s
         /\ dc_dryRun (es_ctx argsDry) = true
         /\ dc_dryRun (es_ctx argsLive) = false
         /\ sameSendRequest argsDry argsLive
         /\ handleSendAction (ctx true) s
            = (sendOutcome channel to true
                 (executeSendAction argsDry (st_world s1)).1,
               afterSend argsDry (executeSendAction argsDry (st_world s1)).2 s1)
         /\ handleSendAction (ctx false) s
            = (sendOutcome channel to false
                 (executeSendAction argsLive (st_world s1)).1,
               afterSend argsLive (executeSendAction argsLive (st_world s1)).2 s1)).
Proof.
  intros ctx. unfold ctx, handleSendAction, decorationFor, bind, lift, ret.
  cbn [rc_cfg rc_params rc_channel rc_accountId rc_dryRun rc_gateway rc_input
       withDryRun in_toolContext in_deps in_sessionKey in_agentId].
  destruct (readStringParam params "to" _) as [to|e]; [|left; by exists e, s].
  destruct (readStringParam params "media" _) as [mediaHint|e];
    [|left; by exists e, s].
  destruct (readStringParam params "message" _) as [message|e];
    [|left; by exists e, s].
  set (params1 := if negb (truthyValue (getParam _ "media")) then _ else _).
  assert (exists decoration s1,
             st_log s1 = st_log s
             /\ (match shouldApplyCrossContextMarker a_send, in_toolContext input with
                 | true, Some toolContext =>
                     await None
                       (buildCrossContextDecoration
                          {| bd_cfg := cfg; bd_channel := channel; bd_target := to;
                             bd_toolContext := toolContext;
                             bd_accountId := accountId |})
                 | _, _ => fun s => (Normal None, s)
                 end) s = (decoration, s1)) as (decoration & s1 & Hlog & ->).
  { destruct (shouldApplyCrossContextMarker a_send); [|by exists (Normal None), s].
    destruct (in_toolContext input); [|by exists (Normal None), s].
    unfold await. destruct (buildCrossContextDecoration _ _) as [d w].
    eexists _, _. split; [|reflexivity]. reflexivity. }
  destruct decoration as [decoration|e]; [|left; by exists e, s1].
  destruct (match decoration with
            | Some d => applyCrossContextMessageDecoration params1 _ d true
            | None => _
            end) as [message' params2].
  destruct (readStringParam params2 "media" _) as [mediaUrl|e];
    [|left; by exists e, s1].
  right. unfold await, sendOutcome, afterSend.
  match goal with
  | |- context [executeSendAction ?a1 _] =>
      match goal with
      | |- context [executeSendAction ?a2 _] =>
          let b1 := eval cbn [dc_dryRun es_ctx] in (dc_dryRun (es_ctx a1)) in
          let b2 := eval cbn [dc_dryRun es_ctx] in (dc_dryRun (es_ctx a2)) in
          match b1 with
          | true => match b2 with false => exists a1, a2, s1, to end
          end
      end
  end.
  split; [exact Hlog|]. split; [reflexivity|]. split; [reflexivity|].
  split; [by repeat split|].
  split.
  - match goal with
    | |- context [executeSendAction ?a ?w] =>
        destruct (executeSendAction a w) as [[r|e] w']
    end; reflexivity.
  - match goal with
    | |- context [executeSendAction ?a ?w] =>
        destruct (executeSendAction a w) as [[r|e] w']
    end; reflexivity.
Qed.

End DryRunFacts.

Section DryRunClaims.
Context `{E : Externals}.

(** C9.  The send service is taken as modelled from the spec.  For a
    [send] request, the run with the dry-run flag set and the run with it
    unset validate alike: either both throw the same error in the same
    state without any dispatch service having been called, or both reach
    the send service in the same state and for the same request; the dry
    run then returns the result of a dry run and leaves the outside world
    as it was when the service was called, so that the network dispatch is
    skipped, while the live run performs it and returns what it yields.
    When no media hint is present and the reader rejects the missing
    required [message], the send handler throws that error whatever the
    flag, in the state it started from.  When the target, the media hint
    and the message are read and the decoration is built, the dry-run send
    does return, with the result of a dry run and the outside world
    untouched by the service.  For a plugin action with the flag set, the
    handler returns the synthesized payload in the state it started from:
    the plugin dispatcher is not called. *)
Theorem dry_run_validates_like_live deliver dryResult :
  sendServiceIs deliver dryResult ->
  (forall input s,
      in_action input = a_send ->
      let dry := runMessageAction (withDryRun input (Some true)) s in
      let live := runMessageAction (withDryRun input (Some false)) s in
      (exists e s',
          dry = (Throw e, s') /\ live = (Throw e, s')
          /\ dispatchCalls (st_log s') = dispatchCalls (st_log s))
      \/ (exists argsDry argsLive s1 channel to,
             dispatchCalls (st_log s1) = dispatchCalls (st_log s)
             /\ dc_dryRun (es_ctx argsDry) = true
             /\ dc_dryRun (es_ctx argsLive) = false
             /\ sameSendRequest argsDry argsLive
             /\ dry = (sendOutcome channel to true (Normal (dryResult argsDry)),
                       afterSend argsDry (st_world s1) s1)
             /\ live = (sendOutcome channel to false
                          (deliver argsLive (st_world s1)).1,
                        afterSend argsLive (deliver argsLive (st_world s1)).2 s1)))
  /\ (forall ctx s to mediaHint e flag,
        readStringParam (rc_params ctx) "to"
          {| rs_required := Some true; rs_trim := None; rs_allowEmpty := None |}
        = Normal to ->
        readStringParam (rc_params ctx) "media"
          {| rs_required := None; rs_trim := Some false; rs_allowEmpty := None |}
        = Normal mediaHint ->
        truthyOpt mediaHint = false ->
        readStringParam (rc_params ctx) "message"
          {| rs_required := Some true; rs_trim := None; rs_allowEmpty := Some true |}
        = Throw e ->
        handleSendAction (ctxWithDryRun ctx flag) s = (Throw e, s))
  /\ (forall ctx s to mediaHint message decoration s1,
        rc_dryRun ctx = true ->
        mediaIsOptional ->
        readStringParam (rc_params ctx) "to"
          {| rs_required := Some true; rs_trim := None; rs_allowEmpty := None |}
        = Normal to ->
        readStringParam (rc_params ctx) "media"
          {| rs_required := None; rs_trim := Some false; rs_allowEmpty := None |}
        = Normal mediaHint ->
        readStringParam (rc_params ctx) "message"
          {| rs_required := Some (negb (truthyOpt mediaHint)); rs_trim := None;
             rs_allowEmpty := Some true |}
        = Normal message ->
        decorationFor a_send ctx to s = (Normal decoration, s1) ->
        exists args,
          handleSendAction ctx s
          = (sendOutcome (rc_channel ctx) to true (Normal (dryResult args)),
             afterSend args (st_world s1) s1)
          /\ dc_dryRun (es_ctx args) = true
          /\ dc_mirror (es_ctx args) = None
          /\ es_to args = to)
  /\ (forall ctx s,
        rc_dryRun ctx = true ->
        handlePluginAction ctx s
        = (Normal (RunAction (rc_channel ctx) (in_action (rc_input ctx)) hb_dry_run
                     (VObj [("ok", VBool true); ("dryRun", VBool true);
                            ("channel", VStr (rc_channel ctx));
                            ("action",
                             VStr (ActionSpec.actionName (in_action (rc_input ctx))))])
                     None true), s)).
Proof.
  intros Hservice. split; [|split; [|split]].
  - intros input s Ha dry live. subst dry live.
    unfold runMessageAction, runMessageActionWith, resolveGateway.
    cbn [withDryRun in_params in_action in_cfg in_dryRun in_toolContext
         in_defaultAccountId in_gateway].
    rewrite Ha. unfold bind, lift.
    destruct (parseButtonsParam (in_params input)) as [p1|e];
      [|left; by exists e, s].
    destruct (decide (a_send = a_broadcast)) as [Hb|_]; [discriminate Hb|].
    destruct (applyTargetToParams a_send p1) as [p2|e]; [|left; by exists e, s].
    change (ActionSpec.actionRequiresTarget a_send) with true. cbv iota.
    destruct (negb _);
      [left; unfold throw; eexists _, s; split; [reflexivity|]; split; reflexivity
      | unfold ret].
    pose proof (resolveChannel_log (in_cfg input) p2 s) as Hch.
    destruct (resolveChannel (in_cfg input) p2 s) as [[channel|e] s1];
      simpl in Hch;
      [|left; exists e, s1; repeat split; congruence].
    destruct (readStringParam p2 "accountId" noOpts) as [accountId|e];
      [|left; exists e, s1; repeat split; congruence].
    match goal with
    | |- context [resolveActionTarget ?c ?ch ?a ?p ?acc s1] =>
        pose proof (resolveActionTarget_dispatchCalls c ch a p acc s1) as Hrt;
        destruct (resolveActionTarget c ch a p acc s1) as [[p3|e] s2];
        simpl in Hrt; rewrite Hch in Hrt;
        [|left; exists e, s2; repeat split; congruence]
    end.
    destruct (enforceCrossContextPolicy _ _ _ _ _) as [[]|e];
      [|left; exists e, s2; repeat split; congruence].
    destruct (decide (a_send = a_send)) as [_|Hn]; [|done].
    match goal with
    | |- context [handleSendAction
                    {| rc_cfg := ?c; rc_params := ?p; rc_channel := ?ch;
                       rc_accountId := ?acc; rc_dryRun := true;
                       rc_gateway := ?gw; rc_input := _ |} s2] =>
        destruct (handleSendAction_service c p ch acc gw input s2)
          as [(e & s3 & Hd & Hl & Hlog)
             | (aD & aL & s3 & to & Hlog & HfD & HfL & Hsame & Hd & Hl)]
    end.
    + left. exists e, s3. cbv beta zeta in Hd, Hl. rewrite Hd, Hl.
      split; [done|]. split; [done|]. by rewrite Hlog.
    + right. exists aD, aL, s3, channel, to. cbv beta zeta in Hd, Hl.
      rewrite Hd, Hl, !Hservice. unfold executeSendActionSpec.
      rewrite HfD, HfL. cbn [fst snd].
      split; [by rewrite Hlog|]. done.
  - intros ctx s to mediaHint e flag Hto Hmedia Hhint Hmsg.
    unfold handleSendAction, bind, lift. cbn [ctxWithDryRun rc_params].
    rewrite Hto, Hmedia, Hhint. cbn [negb]. by rewrite Hmsg.
  - intros ctx s to mediaHint message decoration s1 Hdry Hreader Hto Hmedia Hmsg
      Hdec.
    unfold handleSendAction, bind, lift, ret. rewrite Hto, Hmedia, Hmsg, Hdec.
    match goal with
    | |- context [match decoration with
                  | Some d => applyCrossContextMessageDecoration ?p ?m d true
                  | None => ?n
                  end] =>
        destruct (match decoration with
                  | Some d => applyCrossContextMessageDecoration p m d true
                  | None => n
                  end) as [message' params2]
    end.
    destruct (Hreader params2) as [mediaUrl ->].
    unfold await. rewrite Hservice. unfold executeSendActionSpec.
    cbn [es_ctx dc_dryRun]. rewrite Hdry. eexists.
    split; [reflexivity|]. cbn [es_ctx dc_dryRun dc_mirror es_to].
    rewrite ?Hdry. split; [reflexivity|]. split; [|reflexivity].
    destruct (in_sessionKey (rc_input ctx)) as [k|]; [|done].
    by rewrite andb_false_r.
  - intros ctx s Hdry. unfold handlePluginAction. by rewrite Hdry.
Qed.

End DryRunClaims.

(** ** The claims on the closed instance *)

Section CacheWitnesses.
Import DirectoryCache.

(** A value stored at time 1000 is read back 29 minutes later and is gone
    31 minutes later; the discord snapshot fetched at time 7 is served 29
    minutes later and fetched again 31 minutes later. *)
Lemma cache_entry_lives_thirty_minutes_witness :
  let c1 := set 1000 "k" [Demo.general] Demo.cfg1 (create CACHE_TTL_MS) in
  let s1 :=
    (getDirectoryEntries Demo.cfg1 "discord" None k_group (Some "random") true
       (Demo.start 0)).2 in
  get (1000 + Demo.minutes 29) "k" Demo.cfg1 c1 = (Some [Demo.general], c1)
  /\ ((get (1000 + Demo.minutes 31) "k" Demo.cfg1 c1).1 = None
      /\ cache (get (1000 + Demo.minutes 31) "k" Demo.cfg1 c1).2 !! "k" = None)
  /\ getDirectoryEntries Demo.cfg1 "discord" None k_group (Some "general") true
       (Demo.later (7 + Demo.minutes 29) s1)
     = (Normal [Demo.general; Demo.generalDev; Demo.random],
        Demo.later (7 + Demo.minutes 29) s1)
  /\ exists later,
      st_log (getDirectoryEntries Demo.cfg1 "discord" None k_group (Some "general")
                true (Demo.later (7 + Demo.minutes 31) s1)).2
      = later ++
        EvDirectory "discord" listGroups
          {| dl_cfg := Demo.cfg1; dl_accountId := None;
             dl_query := Some "general" |} :: st_log s1.
Proof.
  intros c1 s1.
  destruct (cache_entry_lives_thirty_minutes (E := Demo.externals))
    as (_ & Hcache & Hresolver).
  destruct (Hcache _ (create CACHE_TTL_MS) 1000 (1000 + Demo.minutes 29) "k"
              [Demo.general] Demo.cfg1 eq_refl) as [Hbefore _].
  destruct (Hcache _ (create CACHE_TTL_MS) 1000 (1000 + Demo.minutes 31) "k"
              [Demo.general] Demo.cfg1 eq_refl) as [_ Hafter].
  split; [apply Hbefore; vm_compute; reflexivity|].
  split; [apply Hafter; vm_compute; reflexivity|].
  split.
  - apply (Hresolver Demo.cfg1 "discord" None k_group (Some "general") true
             (Demo.later (7 + Demo.minutes 29) s1)
             [Demo.general; Demo.generalDev; Demo.random] 7).
    + reflexivity.
    + reflexivity.
    + vm_compute. reflexivity.
    + vm_compute. reflexivity.
  - apply (Hresolver Demo.cfg1 "discord" None k_group (Some "general") true
             (Demo.later (7 + Demo.minutes 31) s1)
             [Demo.general; Demo.generalDev; Demo.random] 7 eq_refl eq_refl)
      with (dir := Demo.discordDirectory)
           (fn := Demo.listing [Demo.general; Demo.generalDev; Demo.random]).
    + vm_compute. reflexivity.
    + vm_compute. reflexivity.
    + reflexivity.
    + reflexivity.
Defined.

(** C6, as stated, fails where the directory lists nothing: two
    resolutions for the same slack channel, account and kind, one second
    apart and under the same configuration object, make four directory
    calls, not one. *)
Lemma empty_directory_is_fetched_again :
  let s1 :=
    (resolveMessagingTarget Demo.cfg1 "slack" "random" None None (Demo.start 0)).2 in
  let s2 :=
    (resolveMessagingTarget Demo.cfg1 "slack" "random" None None
       (Demo.later 1000 s1)).2 in
  directoryCalls (st_log s2) = 4%nat /\ directoryCalls (st_log s2) <> 1%nat.
Proof. vm_compute. split; [reflexivity | discriminate]. Qed.

(** C8, as stated, fails in the same situation: the lookup misses the
    cache, the fetch returns no entry, and afterwards nothing is stored
    under the cache-source key. *)
Lemma empty_fetch_is_not_stored_under_cache_key :
  let s := Demo.start 0 in
  let key := directoryKey "slack" None k_group src_cache in
  (get (dateNow (st_world s)) key Demo.cfg1 (st_cache s)).1 = None
  /\ (listDirectoryEntries Demo.cfg1 "slack" None k_group (Some "random")
        src_cache s).1 = Normal []
  /\ cache (st_cache (getDirectoryEntries Demo.cfg1 "slack" None k_group
                        (Some "random") true s).2) !! key = None.
Proof. vm_compute. repeat split. Qed.

(** The discord fetch is stored under the cache-source key; the empty
    slack fetch escalates to one live call whose result is stored under the
    live-source key. *)
Lemma miss_stores_fetched_entries_witness :
  (exists s3,
      getDirectoryEntries Demo.cfg1 "discord" None k_group (Some "random") true
        (Demo.start 0)
      = (Normal [Demo.general; Demo.generalDev; Demo.random], s3)
      /\ cache (st_cache s3) !! directoryKey "discord" None k_group src_cache
         = Some {| value := [Demo.general; Demo.generalDev; Demo.random];
                   fetchedAt := 7 |}
      /\ st_log s3
         = [EvDirectory "discord" listGroups
              {| dl_cfg := Demo.cfg1; dl_accountId := None;
                 dl_query := Some "random" |}])
  /\ (exists s4,
         getDirectoryEntries Demo.cfg1 "slack" None k_group (Some "random") true
           (Demo.start 0)
         = (Normal [], s4)
         /\ cache (st_cache s4) !! directoryKey "slack" None k_group src_live
            = Some {| value := []; fetchedAt := 14 |}
         /\ cache (st_cache s4) !! directoryKey "slack" None k_group src_cache = None
         /\ st_log s4
            = [EvDirectory "slack" listGroupsLive
                 {| dl_cfg := Demo.cfg1; dl_accountId := None;
                    dl_query := Some "random" |};
               EvDirectory "slack" listGroups
                 {| dl_cfg := Demo.cfg1; dl_accountId := None;
                    dl_query := Some "random" |}]).
Proof.
  split.
  - refine (proj1 (miss_stores_fetched_entries (E := Demo.externals)
                     Demo.cfg1 "discord" None k_group (Some "random") true
                     (Demo.start 0)
                     (get 0 (directoryKey "discord" None k_group src_cache)
                        Demo.cfg1 (st_cache (Demo.start 0))).2
                     [Demo.general; Demo.generalDev; Demo.random]
                     (listDirectoryEntries Demo.cfg1 "discord" None k_group
                        (Some "random") src_cache
                        (setCache
                           (get 0 (directoryKey "discord" None k_group src_cache)
                              Demo.cfg1 (st_cache (Demo.start 0))).2
                           (Demo.start 0))).2
                     _ _) _).
    + apply pair_from_fst. vm_compute. reflexivity.
    + apply pair_from_fst. vm_compute. reflexivity.
    + left. discriminate.
  - pose (c1 := (get 0 (directoryKey "slack" None k_group src_cache)
                    Demo.cfg1 (st_cache (Demo.start 0))).2).
    pose (s2 := (listDirectoryEntries Demo.cfg1 "slack" None k_group
                   (Some "random") src_cache (setCache c1 (Demo.start 0))).2).
    pose (s3 := (listDirectoryEntries Demo.cfg1 "slack" None k_group
                   (Some "random") src_live s2).2).
    refine (proj1 (proj2 (miss_stores_fetched_entries (E := Demo.externals)
                     Demo.cfg1 "slack" None k_group (Some "random") true
                     (Demo.start 0) c1 [] s2 _ _) eq_refl eq_refl [] s3 _)).
    + apply pair_from_fst. vm_compute. reflexivity.
    + apply pair_from_fst. vm_compute. reflexivity.
    + apply pair_from_fst. vm_compute. reflexivity.
Defined.

End CacheWitnesses.

Section ConfigWitness.
Import DirectoryCache.

(** A cache that has seen the first configuration object is emptied by a
    read or a write under the second; resolving [general] and then
    [random] on discord makes one directory call under one configuration
    object, and a second one when the object is swapped. *)
Lemma config_identity_guards_cache_witness :
  let c := runOp (OpSet 0 "k" [Demo.general] Demo.cfg1) (create CACHE_TTL_MS) in
  let s1 :=
    (resolveMessagingTarget Demo.cfg1 "discord" "general" None None (Demo.start 0)).2 in
  let fetch query cfg :=
    EvDirectory "discord" listGroups
      {| dl_cfg := cfg; dl_accountId := None; dl_query := Some query |} in
  (get 5 "k" Demo.cfg2 c
   = (None, {| cache := ∅; lastConfigRef := Some 2%positive;
               ttlMs := CACHE_TTL_MS |})
   /\ set 5 "k" [Demo.random] Demo.cfg2 c
      = {| cache := {[ "k" := {| value := [Demo.random]; fetchedAt := 5 |} ]};
           lastConfigRef := Some 2%positive;
           ttlMs := CACHE_TTL_MS |})
  /\ st_log s1 = [fetch "general" Demo.cfg1]
  /\ st_log (resolveMessagingTarget Demo.cfg1 "discord" "random" None None
               (Demo.later 1000 s1)).2
     = [fetch "general" Demo.cfg1]
  /\ exists later,
      st_log (resolveMessagingTarget Demo.cfg2 "discord" "random" None None
                (Demo.later 1000 s1)).2
      = later ++ [fetch "random" Demo.cfg2; fetch "general" Demo.cfg1].
Proof.
  intros c s1 fetch.
  destruct (config_identity_guards_cache (E := Demo.externals)) as [Hcache Hresolve].
  split.
  - apply (Hcache _ CACHE_TTL_MS c Demo.cfg2 5 "k" [Demo.random]).
    + apply reach_op, reach_new.
    + vm_compute. discriminate.
  - destruct (Hresolve Demo.cfg1 "discord" None "general" None "random" None
                (Demo.start 0) k_group Demo.discordDirectory listGroups
                (Demo.listing [Demo.general; Demo.generalDev; Demo.random])
                [Demo.general; Demo.generalDev; Demo.random] 7)
      as [Hfirst Hsecond].
    + reflexivity.
    + reflexivity.
    + reflexivity.
    + reflexivity.
    + reflexivity.
    + reflexivity.
    + reflexivity.
    + vm_compute. reflexivity.
    + reflexivity.
    + reflexivity.
    + reflexivity.
    + discriminate.
    + split; [exact Hfirst|].
      destruct (Hsecond 1000) as [Hsame Hother].
      split.
      * apply Hsame. vm_compute. discriminate.
      * destruct (Hother Demo.cfg2) as [later Hlater].
        { vm_compute. discriminate. }
        exists later. exact Hlater.
Defined.

End ConfigWitness.

Section RunnerWitnesses.
#[local] Existing Instance Demo.externals.

Lemma broadcastPlan_demo :
  broadcastPlan Demo.broadcastRequest Demo.broadcastParams (Demo.start 0)
  = (Normal (["123456789"; "nobody"], ["discord"; "slack"]),
     (broadcastPlan Demo.broadcastRequest Demo.broadcastParams (Demo.start 0)).2).
Proof. apply pair_from_fst. vm_compute. reflexivity. Qed.

(** Four outcomes, in the order (discord, 123456789), (discord, nobody),
    (slack, 123456789), (slack, nobody). *)
Lemma broadcast_outcomes_follow_cross_product_witness :
  ["123456789"; "nobody"] <> [] /\ ["discord"; "slack"] <> []
  /\ exists outcomes s',
      handleBroadcastAction Demo.broadcastRequest Demo.broadcastParams (Demo.start 0)
      = (Normal (RunBroadcast "discord" hb_core outcomes false), s')
      /\ length outcomes = 4%nat
      /\ Forall2
           (fun outcome pair =>
              bo_channel outcome = pair.1
              /\ (bo_to outcome = pair.2
                  \/ exists resolved sA sB,
                      resolveChannelTarget Demo.cfg1 pair.1 pair.2 None None sA
                      = (Normal (ResolveOk resolved), sB)
                      /\ bo_to outcome = rt_to resolved))
           outcomes
           [("discord", "123456789"); ("discord", "nobody");
            ("slack", "123456789"); ("slack", "nobody")].
Proof.
  exact (broadcast_outcomes_follow_cross_product (E := Demo.externals)
           Demo.broadcastRequest Demo.broadcastParams (Demo.start 0)
           ["123456789"; "nobody"] ["discord"; "slack"] _ broadcastPlan_demo).
Defined.

Lemma broadcastPlan_by_name :
  broadcastPlan Scenarios.broadcastByNameRequest Scenarios.broadcastByName
    (Demo.start 0)
  = (Normal (["random"], ["discord"; "slack"]),
     (broadcastPlan Scenarios.broadcastByNameRequest Scenarios.broadcastByName
        (Demo.start 0)).2).
Proof. apply pair_from_fst. vm_compute. reflexivity. Qed.

(** On discord the name [random] resolves to the id of its group. *)
Lemma by_name_discord_succeeds :
  let input := Scenarios.broadcastByNameRequest in
  let params := Scenarios.broadcastByName in
  let s1 := (broadcastPlan input params (Demo.start 0)).2 in
  let sM := (resolveChannelTarget Demo.cfg1 "discord" "random" None None s1).2 in
  let s2 :=
    (runSingleAction (nestedSend input params "discord" "channel:100000000000000003")
       sM).2 in
  pairSucceeds runSingleAction input params "discord" "random" s1
    {| rt_to := "channel:100000000000000003"; rt_kind := trk_group;
       rt_display := Some "random"; rt_source := from_directory |}
    (RunSend "discord" (Some "channel:100000000000000003") hb_core
       (VObj [("ok", VBool true)]) None
       (Some {| obj_fields := [("ok", VBool true)] |}) false)
    s2.
Proof.
  intros input params s1 sM s2. exists sM. split.
  - apply pair_from_fst. vm_compute. reflexivity.
  - apply pair_from_fst. vm_compute. reflexivity.
Qed.

(** On slack nobody is called [random]. *)
Lemma by_name_slack_fails :
  let input := Scenarios.broadcastByNameRequest in
  let params := Scenarios.broadcastByName in
  let s1 := (broadcastPlan input params (Demo.start 0)).2 in
  let sM := (resolveChannelTarget Demo.cfg1 "discord" "random" None None s1).2 in
  let s2 :=
    (runSingleAction (nestedSend input params "discord" "channel:100000000000000003")
       sM).2 in
  let s3 := (resolveChannelTarget Demo.cfg1 "slack" "random" None None s2).2 in
  pairFails runSingleAction input params "slack" "random" s2
    ("Unknown target " +:+ dquote +:+ "random" +:+ dquote +:+ " for slack.") s3.
Proof.
  intros input params s1 sM s2 s3. right. left. exists None.
  apply pair_from_fst. vm_compute. reflexivity.
Qed.

(** A broadcast of the name [random] to discord and slack: the pair on
    discord is recorded with the id the name resolved to, the pair on slack
    with the name as it was given. *)
Lemma broadcast_destination_by_outcome_witness :
  let input := Scenarios.broadcastByNameRequest in
  let params := Scenarios.broadcastByName in
  let s1 := (broadcastPlan input params (Demo.start 0)).2 in
  let sM := (resolveChannelTarget Demo.cfg1 "discord" "random" None None s1).2 in
  let s2 :=
    (runSingleAction (nestedSend input params "discord" "channel:100000000000000003")
       sM).2 in
  let s3 := (resolveChannelTarget Demo.cfg1 "slack" "random" None None s2).2 in
  broadcastPair runSingleAction input params "discord" "random" s1
  = (Normal {| bo_channel := "discord";
               bo_to := "channel:100000000000000003";
               bo_ok := true;
               bo_error := None;
               bo_result := Some {| obj_fields := [("ok", VBool true)] |} |}, s2)
  /\ broadcastPair runSingleAction input params "slack" "random" s2
     = (Normal {| bo_channel := "slack";
                  bo_to := "random";
                  bo_ok := false;
                  bo_error :=
                    Some ("Unknown target " +:+ dquote +:+ "random" +:+ dquote
                            +:+ " for slack.");
                  bo_result := None |}, s3)
  /\ exists outcomes s',
      handleBroadcastAction input params (Demo.start 0)
      = (Normal (RunBroadcast "discord" hb_core outcomes false), s')
      /\ pairsRecorded runSingleAction input params
           [("discord", "random"); ("slack", "random")] s1 outcomes s'.
Proof.
  intros input params s1 sM s2 s3.
  destruct (broadcast_destination_by_outcome (E := Demo.externals) input params)
    as (Hok & Hfailed & Hlist).
  split; [|split].
  - exact (Hok "discord" "random" s1 _ _ s2 by_name_discord_succeeds).
  - exact (Hfailed "slack" "random" s2 _ s3 by_name_slack_fails).
  - exact (Hlist (Demo.start 0) ["random"] ["discord"; "slack"] s1
             broadcastPlan_by_name).
Defined.

(** What that broadcast returns. *)
Example broadcast_by_name_outcomes :
  (handleBroadcastAction Scenarios.broadcastByNameRequest Scenarios.broadcastByName
     (Demo.start 0)).1
  = Normal
      (RunBroadcast "discord" hb_core
         [ {| bo_channel := "discord"; bo_to := "channel:100000000000000003";
              bo_ok := true; bo_error := None;
              bo_result := Some {| obj_fields := [("ok", VBool true)] |} |};
           {| bo_channel := "slack"; bo_to := "random"; bo_ok := false;
              bo_error :=
                Some ("Unknown target " +:+ dquote +:+ "random" +:+ dquote
                        +:+ " for slack.");
              bo_result := None |} ]
         false).
Proof. vm_compute. reflexivity. Qed.

(** What the broadcast of two targets returns: the destinations of its
    outcome list mix the canonical and the raw form. *)
Example broadcast_demo_outcomes :
  (handleBroadcastAction Demo.broadcastRequest Demo.broadcastParams (Demo.start 0)).1
  = Normal
      (RunBroadcast "discord" hb_core
         [ {| bo_channel := "discord"; bo_to := "123456789"; bo_ok := true;
              bo_error := None;
              bo_result := Some {| obj_fields := [("ok", VBool true)] |} |};
           {| bo_channel := "discord"; bo_to := "nobody"; bo_ok := false;
              bo_error :=
                Some ("Unknown target " +:+ dquote +:+ "nobody" +:+ dquote
                        +:+ " for discord.");
              bo_result := None |};
           {| bo_channel := "slack"; bo_to := "123456789"; bo_ok := true;
              bo_error := None;
              bo_result := Some {| obj_fields := [("ok", VBool true)] |} |};
           {| bo_channel := "slack"; bo_to := "nobody"; bo_ok := false;
              bo_error :=
                Some ("Unknown target " +:+ dquote +:+ "nobody" +:+ dquote
                        +:+ " for slack.");
              bo_result := None |} ]
         false).
Proof. vm_compute. reflexivity. Qed.

(** The targets [a] and [b] on the two configured channels: none of them
    resolves, and the outcomes come in the order (discord, a), (discord, b),
    (slack, a), (slack, b). *)
Example broadcast_order_a_b :
  match
    (handleBroadcastAction
       (Demo.request a_broadcast {[ "targets" := VArr [VStr "a"; VStr "b"] ]} None)
       {[ "targets" := VArr [VStr "a"; VStr "b"] ]} (Demo.start 0)).1
  with
  | Normal (RunBroadcast _ _ outcomes _) =>
      List.map (fun outcome => (bo_channel outcome, bo_to outcome, bo_ok outcome))
        outcomes
      = [("discord", "a", false); ("discord", "b", false);
         ("slack", "a", false); ("slack", "b", false)]
  | _ => False
  end.
Proof. vm_compute. reflexivity. Qed.

(** C3, as stated, fails on a channel hint that does not resolve:
    broadcasting is enabled, the target list is not empty and two channels
    are configured, and yet the broadcast throws. *)
Lemma broadcast_throws_on_unresolved_channel_hint :
  let params := Demo.hintedParams in
  let input := Demo.request a_broadcast params None in
  cfg_broadcast_enabled (in_cfg input) <> Some false
  /\ readStringArrayParam params "targets" = Normal (Some ["123456789"])
  /\ (listConfiguredMessageChannels (in_cfg input) 0).1 = Normal ["discord"; "slack"]
  /\ (handleBroadcastAction input params (Demo.start 0)).1
     = Throw "Unknown channel: bogus"
  /\ (runMessageAction input (Demo.start 0)).1 = Throw "Unknown channel: bogus".
Proof. vm_compute. repeat split. discriminate. Qed.

(** The pair (discord, nobody) fails in its resolution and is recorded;
    the broadcast above returns; the broadcast with the hint [bogus] throws
    while resolving the hint. *)
Lemma broadcast_isolates_pair_failures_witness :
  let params := Demo.hintedParams in
  let input := Demo.request a_broadcast params None in
  let unknown :=
    "Unknown target " +:+ dquote +:+ "nobody" +:+ dquote +:+ " for discord." in
  (exists s0',
      broadcastPair runSingleAction Demo.broadcastRequest Demo.broadcastParams
        "discord" "nobody" (Demo.start 0)
      = (Normal {| bo_channel := "discord"; bo_to := "nobody"; bo_ok := false;
                   bo_error := Some unknown; bo_result := None |}, s0'))
  /\ (exists outcomes s',
         handleBroadcastAction Demo.broadcastRequest Demo.broadcastParams (Demo.start 0)
         = (Normal (RunBroadcast "discord" hb_core outcomes false), s')
         /\ length outcomes = 4%nat)
  /\ exists hint s1 s',
      readStringParam params "channel" noOpts = Normal (Some hint)
      /\ resolveChannel (in_cfg input) {[ "channel" := VStr hint ]} s1
         = (Throw "Unknown channel: bogus", s').
Proof.
  intros params input unknown.
  split; [|split].
  - destruct (broadcast_isolates_pair_failures (E := Demo.externals)
                Demo.broadcastRequest Demo.broadcastParams (Demo.start 0)) as (Hpair & _ & _).
    eexists. apply Hpair. right. left. exists None.
    apply pair_from_fst. vm_compute. reflexivity.
  - destruct (broadcast_isolates_pair_failures (E := Demo.externals)
                Demo.broadcastRequest Demo.broadcastParams (Demo.start 0)) as (_ & Hrun & _).
    destruct (Hrun _ _ _ broadcastPlan_demo) as (outcomes & s' & Heq & Hpairs).
    exists outcomes, s'. split; [exact Heq|].
    exact (pairsRun_length _ _ _ _ _ _ _ Hpairs).
  - destruct (broadcast_isolates_pair_failures (E := Demo.externals)
                input params (Demo.start 0)) as (_ & _ & Hthrow).
    assert (handleBroadcastAction input params (Demo.start 0)
            = (Throw "Unknown channel: bogus",
               (handleBroadcastAction input params (Demo.start 0)).2)) as Hrun
      by (apply pair_from_fst; vm_compute; reflexivity).
    destruct (Hthrow _ _ Hrun) as [H|[H|[H|[H|[H|[H|H]]]]]].
    + vm_compute in H. discriminate H.
    + vm_compute in H. discriminate H.
    + destruct H as (targets & Hread & Hempty). vm_compute in Hread.
      injection Hread as <-. vm_compute in Hempty. discriminate Hempty.
    + vm_compute in H. discriminate H.
    + destruct H as (w & Hw). vm_compute in Hw. discriminate Hw.
    + destruct H as (w & Hw). vm_compute in Hw. discriminate Hw.
    + destruct H as (hint & s1 & Hhint & Hres).
      eexists hint, s1, _. split; [exact Hhint | exact Hres].
Defined.

(** [send] without any target. *)
Lemma target_requirement_enforced_witness :
  let input := Demo.request a_send {[ "message" := VStr "hi" ]} None in
  (ActionSpec.actionRequiresTarget a_send = true
   <-> ActionSpec.to <> ActionSpec.none)
  /\ runMessageAction input (Demo.start 0)
     = (Throw "Action send requires a target.", Demo.start 0).
Proof.
  intros input.
  destruct (target_requirement_enforced (E := Demo.externals))
    as (_ & Hmode & Hrun & _).
  split.
  - apply Hmode. simpl. left. reflexivity.
  - apply (Hrun input (Demo.start 0) {[ "message" := VStr "hi" ]}
             {[ "message" := VStr "hi" ]}); reflexivity.
Defined.

(** On the closed instance [Demo] a send without a message throws
    [message required] with and without the flag, and with a message the
    dry run reaches the send service. *)
Example dry_run_send_without_message :
  (runMessageAction (Demo.request a_send Demo.sendParamsNoMessage (Some true))
     (Demo.start 0)).1 = Throw "message required"
  /\ (runMessageAction (Demo.request a_send Demo.sendParamsNoMessage (Some false))
        (Demo.start 0)).1 = Throw "message required"
  /\ dispatchCalls
       (st_log (runMessageAction (Demo.request a_send Demo.sendParams (Some true))
                  (Demo.start 0)).2) = 1%nat.
Proof. vm_compute. repeat split. Qed.

End RunnerWitnesses.

Section DryRunWitness.
#[local] Existing Instance DryDemo.externals.

Lemma dry_demo_send_service : sendServiceIs DryDemo.deliver DryDemo.dryResult.
Proof. intros args w. reflexivity. Qed.

Lemma dry_demo_media_optional : mediaIsOptional.
Proof.
  intros params. simpl. unfold Demo.readString. simpl.
  destruct (getParam params "media") as [| | | |raw| |]; try by eexists.
  destruct (negb (Js.truthy raw) && true)%bool; by eexists.
Qed.

(** A dry-run send and a live send of the same request: without a
    message both throw before any dispatch; the handler rejects the
    missing message whatever the flag; with a message the dry-run send
    returns the result of a dry run and leaves the clock alone; a dry-run
    [pin] is answered without calling the dispatcher. *)
Lemma dry_run_validates_like_live_witness :
  let input := Demo.request a_send Demo.sendParamsNoMessage None in
  let s := DryDemo.start 0 in
  let dry := runMessageAction (withDryRun input (Some true)) s in
  let live := runMessageAction (withDryRun input (Some false)) s in
  let ctx := Demo.context a_send DryDemo.resolvedParamsNoMessage false in
  let sendCtx := Demo.context a_send DryDemo.resolvedParams true in
  let pinCtx := Demo.context a_pin DryDemo.resolvedParamsNoMessage true in
  ((exists e s',
       dry = (Throw e, s') /\ live = (Throw e, s')
       /\ dispatchCalls (st_log s') = dispatchCalls (st_log s))
   \/ (exists argsDry argsLive s1 channel to,
          dispatchCalls (st_log s1) = dispatchCalls (st_log s)
          /\ dc_dryRun (es_ctx argsDry) = true
          /\ dc_dryRun (es_ctx argsLive) = false
          /\ sameSendRequest argsDry argsLive
          /\ dry = (sendOutcome channel to true (Normal (DryDemo.dryResult argsDry)),
                    afterSend argsDry (st_world s1) s1)
          /\ live = (sendOutcome channel to false
                       (DryDemo.deliver argsLive (st_world s1)).1,
                     afterSend argsLive
                       (DryDemo.deliver argsLive (st_world s1)).2 s1)))
  /\ handleSendAction (ctxWithDryRun ctx true) s = (Throw "message required", s)
  /\ handleSendAction (ctxWithDryRun ctx false) s = (Throw "message required", s)
  /\ (exists args,
        handleSendAction sendCtx s
        = (sendOutcome "discord" (Some "123456789") true
             (Normal (DryDemo.dryResult args)),
           afterSend args (st_world s) s)
        /\ dc_dryRun (es_ctx args) = true
        /\ dc_mirror (es_ctx args) = None
        /\ es_to args = Some "123456789")
  /\ handlePluginAction pinCtx s
     = (Normal (RunAction "discord" a_pin hb_dry_run
                  (VObj [("ok", VBool true); ("dryRun", VBool true);
                         ("channel", VStr "discord"); ("action", VStr "pin")])
                  None true), s).
Proof.
  intros input s dry live ctx sendCtx pinCtx.
  destruct (dry_run_validates_like_live (E := DryDemo.externals)
              DryDemo.deliver DryDemo.dryResult dry_demo_send_service)
    as (Hrun & Hsend & Hvalid & Hplugin).
  split; [exact (Hrun input s eq_refl)|].
  split; [|split; [|split]].
  - apply (Hsend ctx s (Some "123456789") None); reflexivity.
  - apply (Hsend ctx s (Some "123456789") None); reflexivity.
  - apply (Hvalid sendCtx s (Some "123456789") None (Some "hi") None s).
    + reflexivity.
    + exact dry_demo_media_optional.
    + reflexivity.
    + reflexivity.
    + reflexivity.
    + reflexivity.
  - apply (Hplugin pinCtx s). reflexivity.
Defined.

(** The whole run of a send with a message, started at time 0: the dry
    run ends at time 1, which the selection of the channel took, with the
    result of a dry run; the live run ends at time 6, after the network
    dispatch, with its result. *)
Example dry_run_skips_the_dispatch :
  let dry := runMessageAction (Demo.request a_send Demo.sendParams (Some true))
               (DryDemo.start 0) in
  let live := runMessageAction (Demo.request a_send Demo.sendParams (Some false))
                (DryDemo.start 0) in
  dry.1 = Normal (RunSend "discord" (Some "123456789") hb_dry_run
                    (VObj [("dryRun", VBool true)]) None None true)
  /\ st_world dry.2 = 1
  /\ live.1 = Normal (RunSend "discord" (Some "123456789") hb_core
                        (VObj [("ok", VBool true)]) None
                        (Some {| obj_fields := [("ok", VBool true)] |}) false)
  /\ st_world live.2 = 6.
Proof. vm_compute. repeat split. Qed.

End DryRunWitness.


(* ===================================================================== *)
(** * Further properties                                                  *)
(* ===================================================================== *)

(** ** The directory cache under arbitrary traffic *)

Section CacheTraffic.
Context {T : Type}.
Import DirectoryCache.
Implicit Types (c : DirectoryCache.t T) (cfg : ClawdbotConfig).

Lemma lookup_clearMatching f c key :
  cache (clearMatching f c) !! key = if f key then None else cache c !! key.
Proof.
  unfold clearMatching. simpl. rewrite map_lookup_filter.
  destruct (cache c !! key) as [e|] eqn:He; simpl.
  - destruct (f key) eqn:Hf.
    + rewrite option_guard_False; [done|]. simpl. congruence.
    + rewrite option_guard_True; done.
  - by destruct (f key).
Qed.

Lemma get_other_key now key key' cfg c :
  key <> key' -> lastConfigRef c = Some (cfg_ref cfg) ->
  cache (get now key cfg c).2 !! key' = cache c !! key'.
Proof.
  intros Hne Href. unfold get. rewrite (resetIfConfigChanged_same _ _ Href).
  destruct (cache c !! key) as [e|]; [|done].
  destruct (_ >? _); [|done]. simpl. by apply lookup_delete_ne.
Qed.

Lemma runOps_snoc (ops : list (Op T)) o c :
  runOps (ops ++ [o]) c = runOp o (runOps ops c).
Proof. unfold runOps. by rewrite fold_left_app. Qed.

(** X1.  A value stored under one configuration object is never returned
    to a reader that presents another one, whatever calls were made in
    between, unless the key was written again. *)
Theorem no_value_crosses_configurations c T0 key v cfg1 cfg2 ops now :
  cfg_ref cfg2 <> cfg_ref cfg1 ->
  Forall (fun o => ~ writesKey key o) ops ->
  (get now key cfg2 (runOps ops (set T0 key v cfg1 c))).1 = None.
Proof.
  intros Hcfg Hops.
  assert (cache (runOps ops (set T0 key v cfg1 c)) !! key = None
          \/ lastConfigRef (runOps ops (set T0 key v cfg1 c)) = Some (cfg_ref cfg1))
    as Hinv.
  { induction ops as [|o ops IH] using rev_ind; [by right|].
    apply Forall_app in Hops as [Hops Ho]. apply Forall_inv in Ho.
    specialize (IH Hops). rewrite runOps_snoc.
    set (c' := runOps ops (set T0 key v cfg1 c)) in *.
    destruct o as [t k g|t k w g|f|g]; cbn [runOp writesKey sparesKey] in *.
    - destruct (decide (cfg_ref g = cfg_ref cfg1)) as [Hg|Hg].
      + destruct IH as [Hnone|Href].
        * left. unfold get.
          assert (cache (resetIfConfigChanged g c') !! key = None) as Hr.
          { unfold resetIfConfigChanged. simpl.
            destruct (lastConfigRef c') as [r|]; [|done].
            destruct (decide (r = cfg_ref g)); [done | apply lookup_empty]. }
          destruct (cache (resetIfConfigChanged g c') !! k) as [e|]; [|done].
          destruct (_ >? _); [|done]. simpl.
          destruct (decide (k = key)) as [->|Hk];
            [apply lookup_delete_eq | by rewrite lookup_delete_ne].
        * right. rewrite lastConfigRef_get. by rewrite Hg.
      + left. unfold get.
        assert (cache (resetIfConfigChanged g c') !! key = None) as Hr.
        { unfold resetIfConfigChanged. simpl.
          destruct IH as [Hnone|Href].
          - destruct (lastConfigRef c') as [r|]; [|done].
            destruct (decide (r = cfg_ref g)); [done | apply lookup_empty].
          - rewrite Href. rewrite decide_False by congruence. apply lookup_empty. }
        destruct (cache (resetIfConfigChanged g c') !! k) as [e|]; [|done].
        destruct (_ >? _); [|done]. simpl.
        destruct (decide (k = key)) as [->|Hk];
          [apply lookup_delete_eq | by rewrite lookup_delete_ne].
    - destruct (decide (cfg_ref g = cfg_ref cfg1)) as [Hg|Hg].
      + destruct IH as [Hnone|Href];
          [|right; rewrite lastConfigRef_set; congruence].
        left. unfold set. simpl. rewrite lookup_insert_ne by done.
        destruct (lastConfigRef c') as [r|]; [|done].
        destruct (decide (r = cfg_ref g)); [done | apply lookup_empty].
      + left. unfold set. simpl. rewrite lookup_insert_ne by done.
        destruct IH as [Hnone|Href].
        * destruct (lastConfigRef c') as [r|]; [|done].
          destruct (decide (r = cfg_ref g)); [done | apply lookup_empty].
        * rewrite Href. rewrite decide_False by congruence. apply lookup_empty.
    - destruct IH as [Hnone|Href]; [|by right].
      left. rewrite lookup_clearMatching, Hnone. by destruct (f key).
    - left. apply lookup_empty. }
  set (c' := runOps ops (set T0 key v cfg1 c)) in *.
  unfold get.
  assert (cache (resetIfConfigChanged cfg2 c') !! key = None) as ->; [|done].
  unfold resetIfConfigChanged. simpl.
  destruct Hinv as [Hnone|Href].
  - destruct (lastConfigRef c') as [r|]; [|done].
    destruct (decide (r = cfg_ref cfg2)); [done | apply lookup_empty].
  - rewrite Href. rewrite decide_False by congruence. apply lookup_empty.
Qed.

(** X2.  A value stored at time [T0] survives reads and writes of other
    keys under the same configuration object, and selective clears that do
    not match its key: a read no later than [ttlMs] after [T0] still
    returns it. *)
Theorem value_survives_unrelated_calls c T0 key v cfg ops now :
  Forall (sparesKey key cfg) ops ->
  now - T0 <= ttlMs c ->
  (get now key cfg (runOps ops (set T0 key v cfg c))).1 = Some v.
Proof.
  intros Hops Hage.
  assert (cache (runOps ops (set T0 key v cfg c)) !! key
          = Some {| value := v; fetchedAt := T0 |}
          /\ lastConfigRef (runOps ops (set T0 key v cfg c)) = Some (cfg_ref cfg)
          /\ ttlMs (runOps ops (set T0 key v cfg c)) = ttlMs c) as (He & Href & Httl).
  { induction ops as [|o ops IH] using rev_ind.
    - split; [apply lookup_set_eq | done].
    - apply Forall_app in Hops as [Hops Ho]. apply Forall_inv in Ho.
      destruct (IH Hops) as (He & Href & Httl). rewrite runOps_snoc.
      set (c' := runOps ops (set T0 key v cfg c)) in *.
      destruct o as [t k g|t k w g|f|g]; cbn [runOp writesKey sparesKey] in *.
      + destruct Ho as [Hk Hg].
        assert (lastConfigRef c' = Some (cfg_ref g)) as Href' by (by rewrite Hg).
        rewrite get_other_key by done.
        rewrite lastConfigRef_get, ttlMs_get. by rewrite Hg.
      + destruct Ho as [Hk Hg].
        assert (lastConfigRef c' = Some (cfg_ref g)) as Href' by (by rewrite Hg).
        rewrite lookup_set_ne by done.
        rewrite lastConfigRef_set, ttlMs_set. by rewrite Hg.
      + rewrite lookup_clearMatching, Ho. done.
      + done. }
  rewrite (get_present _ _ _ _ _ Href He), Httl. simpl.
  destruct (Z.gtb_spec (now - T0) (ttlMs c)); [lia | done].
Qed.

End CacheTraffic.

Section CacheTrafficWitnesses.
Import DirectoryCache.

Lemma no_value_crosses_configurations_witness :
  (get 9 "k" Demo.cfg2
     (runOps [OpGet 1 "k" Demo.cfg1; OpSet 2 "j" [Demo.random] Demo.cfg2;
              OpGet 3 "j" Demo.cfg1; OpClearMatching (fun _ => false)]
        (set 0 "k" [Demo.general] Demo.cfg1 (create CACHE_TTL_MS)))).1 = None.
Proof.
  apply (no_value_crosses_configurations (create CACHE_TTL_MS) 0 "k"
           [Demo.general] Demo.cfg1 Demo.cfg2).
  - vm_compute. discriminate.
  - repeat constructor; simpl; try tauto. discriminate.
Defined.

Lemma value_survives_unrelated_calls_witness :
  (get (Demo.minutes 30) "k" Demo.cfg1
     (runOps [OpGet 1 "j" Demo.cfg1; OpSet 2 "j" [Demo.random] Demo.cfg1;
              OpClearMatching (String.eqb "j")]
        (set 0 "k" [Demo.general] Demo.cfg1 (create CACHE_TTL_MS)))).1
  = Some [Demo.general].
Proof.
  apply (value_survives_unrelated_calls (create CACHE_TTL_MS) 0 "k"
           [Demo.general] Demo.cfg1).
  - repeat constructor; simpl; try reflexivity; discriminate.
  - vm_compute. discriminate.
Defined.

End CacheTrafficWitnesses.

(** ** Cache keys and selective invalidation *)

Section KeyFacts.
Import DirectoryCache.

Lemma append_cons (a : ascii) (s1 s2 : string) :
  String a s1 +:+ s2 = String a (s1 +:+ s2).
Proof. reflexivity. Qed.

Lemma append_assoc (s1 s2 s3 : string) :
  (s1 +:+ s2) +:+ s3 = s1 +:+ (s2 +:+ s3).
Proof.
  induction s1 as [|a s1 IH]; [reflexivity|].
  rewrite !append_cons. by rewrite IH.
Qed.

Lemma startsWith_append (p s : string) : Js.startsWith p (p +:+ s) = true.
Proof.
  unfold Js.startsWith. induction p as [|a p IH]; [by destruct s|].
  rewrite append_cons. simpl. by destruct (ascii_dec a a).
Qed.

(** X3.  For one channel and account, the four snapshots (users or groups,
    cache or live source) have four different keys; a missing account id
    and the account id ["default"] share their keys. *)
Theorem cache_keys_of_an_account channel accountId kind1 source1 kind2 source2 :
  (buildDirectoryCacheKey
     {| DirectoryCache.channel := channel; DirectoryCache.accountId := accountId;
        DirectoryCache.kind := kind1; DirectoryCache.source := source1 |}
   = buildDirectoryCacheKey
       {| DirectoryCache.channel := channel; DirectoryCache.accountId := accountId;
          DirectoryCache.kind := kind2; DirectoryCache.source := source2 |}
   <-> kind1 = kind2 /\ source1 = source2)
  /\ buildDirectoryCacheKey
       {| DirectoryCache.channel := channel; DirectoryCache.accountId := None;
          DirectoryCache.kind := kind1; DirectoryCache.source := source1 |}
     = buildDirectoryCacheKey
         {| DirectoryCache.channel := channel;
            DirectoryCache.accountId := Some "default";
            DirectoryCache.kind := kind1; DirectoryCache.source := source1 |}.
Proof.
  split; [|reflexivity]. split.
  - unfold buildDirectoryCacheKey. simpl. intros Heq.
    do 4 apply String.app_inj in Heq.
    destruct kind1, kind2, source1, source2; simpl in Heq;
      first [done | discriminate Heq].
  - by intros [-> ->].
Qed.

End KeyFacts.

Section ResetFacts.
Context `{E : Externals}.
Import DirectoryCache.

(** Every key of a channel starts with the channel and a colon, and every
    key of an account of it with the account part after that. *)
Lemma directoryKey_channel_prefix channel accountId kind source :
  Js.startsWith (channel +:+ ":") (directoryKey channel accountId kind source) = true.
Proof.
  unfold directoryKey, buildDirectoryCacheKey. simpl.
  rewrite <- (append_assoc channel ":"). apply startsWith_append.
Qed.

Lemma directoryKey_account_prefix channel accountId kind source :
  Js.startsWith (channel +:+ ":" +:+ default "default" accountId +:+ ":")
    (directoryKey channel accountId kind source) = true.
Proof.
  unfold directoryKey, buildDirectoryCacheKey. simpl.
  rewrite <- (append_assoc (default "default" accountId) ":").
  rewrite <- (append_assoc ":" (default "default" accountId +:+ ":")).
  rewrite <- (append_assoc channel (":" +:+ default "default" accountId +:+ ":")).
  apply startsWith_append.
Qed.

Lemma reset_channel_keeps_log channel accountId s :
  st_log (resetDirectoryCache (Some channel) accountId s).2 = st_log s.
Proof. unfold resetDirectoryCache. by destruct (Js.truthy channel). Qed.

Lemma reset_channel_all_accounts channel s account kind source :
  Js.truthy channel = true ->
  cache (st_cache (resetDirectoryCache (Some channel) None s).2)
    !! directoryKey channel account kind source = None.
Proof.
  intros Hch. unfold resetDirectoryCache. rewrite Hch.
  cbn [snd st_cache setCache]. rewrite lookup_clearMatching.
  by rewrite directoryKey_channel_prefix.
Qed.

Lemma prefix_empty (s : string) : String.prefix "" s = true.
Proof. by destruct s. Qed.

Lemma prefix_append_inv (p q s : string) :
  String.prefix (p +:+ q) s = true -> String.prefix p s = true.
Proof.
  revert s. induction p as [|a p IH]; intros s; [intros _; apply prefix_empty|].
  rewrite append_cons. destruct s as [|b s]; simpl; [done|].
  destruct (ascii_dec a b); [apply IH | done].
Qed.

Lemma prefix_append_cancel (p x y : string) :
  String.prefix (p +:+ x) (p +:+ y) = String.prefix x y.
Proof.
  induction p as [|a p IH]; [reflexivity|].
  rewrite !append_cons. simpl. by destruct (ascii_dec a a).
Qed.

Lemma prefix_cons (a b : ascii) (s t : string) :
  String.prefix (String a s) (String b t)
  = if ascii_dec a b then String.prefix s t else false.
Proof. reflexivity. Qed.

(** Two ids without a colon, each followed by a colon: one is a prefix of
    the other only when they are the same id. *)
Lemma prefix_up_to_colon (a b rest : string) :
  noColon a = true -> noColon b = true ->
  String.prefix (a +:+ ":") (b +:+ ":" +:+ rest) = true -> a = b.
Proof.
  revert b. induction a as [|c a IH]; intros b Ha Hb.
  - destruct b as [|d b]; [done|].
    cbn [noColon Js.allChars] in Hb. apply andb_true_iff in Hb as [Hd _].
    change ("" +:+ ":") with (String ":" ""). rewrite append_cons, prefix_cons.
    destruct (ascii_dec ":" d) as [<-|_]; [discriminate Hd | discriminate].
  - cbn [noColon Js.allChars] in Ha. apply andb_true_iff in Ha as [Hc Ha].
    rewrite append_cons.
    destruct b as [|d b].
    + change ("" +:+ ":" +:+ rest) with (String ":" rest). rewrite prefix_cons.
      destruct (ascii_dec c ":") as [->|_]; [discriminate Hc | discriminate].
    + cbn [noColon Js.allChars] in Hb. apply andb_true_iff in Hb as [_ Hb].
      rewrite append_cons, prefix_cons.
      destruct (ascii_dec c d) as [<-|_]; [|discriminate].
      intros Hp. f_equal. by apply IH.
Qed.

(** The predicate [resetDirectoryCache] hands to [clearMatching] holds of
    the keys that start with the scope of the reset. *)
Lemma reset_predicate_scope channel accountId key :
  (if negb (Js.startsWith (channel +:+ ":") key) then false
   else if negb (from_option Js.truthy false accountId) then true
        else Js.startsWith
               (channel +:+ ":" +:+ default "default" accountId +:+ ":") key)
  = Js.startsWith (resetScope channel accountId) key.
Proof.
  unfold resetScope.
  destruct (from_option Js.truthy false accountId); cbn [negb];
    [|by destruct (Js.startsWith (channel +:+ ":") key)].
  destruct (Js.startsWith (channel +:+ ":") key) eqn:Hch; [done|]. cbn [negb].
  destruct (Js.startsWith (channel +:+ ":" +:+ default "default" accountId +:+ ":")
              key) eqn:Hacc; [|done].
  unfold Js.startsWith in Hch, Hacc.
  rewrite <- (append_assoc channel ":") in Hacc.
  apply prefix_append_inv in Hacc. congruence.
Qed.

(** X4.  [resetDirectoryCache] for a channel removes the keys that start
    with its scope, the channel and a colon, followed by the account id and
    a colon when an account id is given, and keeps every other key as it
    is.  So every snapshot of the channel, users and groups, cache and
    live source, is gone: of all accounts when no account id is given, of
    the given account otherwise; with an account id given, the snapshots of
    the other accounts of the channel are kept (account ids hold no
    colon), as are the keys of other channels; the log, the outside world
    and the configuration last seen are as before. *)
Theorem reset_drops_the_snapshots_of_a_channel channel accountId s :
  Js.truthy channel = true ->
  let s' := (resetDirectoryCache (Some channel) accountId s).2 in
  (forall key,
      cache (st_cache s') !! key
      = if Js.startsWith (resetScope channel accountId) key then None
        else cache (st_cache s) !! key)
  /\ (forall account kind source,
        truthyOpt accountId = false
        \/ default "default" account = default "default" accountId ->
        cache (st_cache s') !! directoryKey channel account kind source = None)
  /\ (forall account kind source,
        truthyOpt accountId = true ->
        noColon (default "default" accountId) = true ->
        noColon (default "default" account) = true ->
        default "default" account <> default "default" accountId ->
        cache (st_cache s') !! directoryKey channel account kind source
        = cache (st_cache s) !! directoryKey channel account kind source)
  /\ (forall key,
        Js.startsWith (channel +:+ ":") key = false ->
        cache (st_cache s') !! key = cache (st_cache s) !! key)
  /\ st_log s' = st_log s
  /\ st_world s' = st_world s
  /\ lastConfigRef (st_cache s') = lastConfigRef (st_cache s).
Proof.
  intros Hch s'.
  assert (forall key,
             cache (st_cache s') !! key
             = if Js.startsWith (resetScope channel accountId) key then None
               else cache (st_cache s) !! key) as Hscope.
  { intros key. unfold s', resetDirectoryCache. rewrite Hch.
    cbn [snd st_cache setCache]. rewrite lookup_clearMatching.
    by rewrite reset_predicate_scope. }
  split; [exact Hscope|].
  split; [|split; [|split]].
  - intros account kind source Hacc. rewrite Hscope. unfold resetScope.
    fold (truthyOpt accountId).
    destruct (truthyOpt accountId) eqn:Htruthy.
    + destruct Hacc as [Hacc|Hacc]; [discriminate Hacc|].
      rewrite <- Hacc. by rewrite directoryKey_account_prefix.
    + by rewrite directoryKey_channel_prefix.
  - intros account kind source Htruthy Ha Hb Hne. rewrite Hscope.
    unfold resetScope. fold (truthyOpt accountId). rewrite Htruthy.
    destruct (Js.startsWith _ (directoryKey channel account kind source)) eqn:Hsw;
      [|done].
    exfalso. apply Hne. symmetry.
    unfold Js.startsWith, directoryKey, buildDirectoryCacheKey in Hsw.
    cbn [DirectoryCache.channel DirectoryCache.accountId DirectoryCache.kind
         DirectoryCache.source] in Hsw.
    rewrite prefix_append_cancel in Hsw.
    rewrite (prefix_append_cancel ":") in Hsw.
    by apply prefix_up_to_colon in Hsw.
  - intros key Hkey. rewrite Hscope.
    destruct (Js.startsWith (resetScope channel accountId) key) eqn:Hsw; [|done].
    rewrite <- reset_predicate_scope in Hsw. by rewrite Hkey in Hsw.
  - unfold s', resetDirectoryCache. by rewrite Hch.
Qed.

(** X5.  After [resetDirectoryCache] for a channel, the next lookup on
    that channel does not use an earlier snapshot: it calls the plugin's
    listing function again. *)
Theorem reset_forces_a_fresh_fetch
    channel cfg accountId kind query live s dir tag fn :
  Js.truthy channel = true ->
  getChannelPluginDirectory channel = Some dir ->
  pickDirectoryFn dir kind false = Some (tag, fn) ->
  let s1 := (resetDirectoryCache (Some channel) None s).2 in
  exists later,
    st_log (getDirectoryEntries cfg channel accountId kind query live s1).2
    = later ++
      EvDirectory channel tag
        {| dl_cfg := cfg; dl_accountId := accountId; dl_query := query |}
      :: st_log s.
Proof.
  intros Hch Hdir Hpick s1.
  pose proof (fun account kind' source =>
                reset_channel_all_accounts channel s account kind' source Hch) as Hgone.
  pose proof (reset_channel_keeps_log channel None s) as Hlog.
  change (st_log s1 = st_log s) in Hlog.
  change (forall account kind' source,
             cache (st_cache s1) !! directoryKey channel account kind' source = None)
    in Hgone.
  destruct (get (dateNow (st_world s1)) (directoryKey channel accountId kind src_cache)
              cfg (st_cache s1)) as [r c1] eqn:Hget.
  assert (r = None) as ->.
  { revert Hget. unfold get.
    assert (cache (resetIfConfigChanged cfg (st_cache s1))
              !! directoryKey channel accountId kind src_cache = None) as ->.
    { unfold resetIfConfigChanged. cbn [cache].
      destruct (lastConfigRef (st_cache s1)) as [r'|]; [|by apply Hgone].
      destruct (decide (r' = cfg_ref cfg)); [by apply Hgone | apply lookup_empty]. }
    by intros [= <- _]. }
  destruct (getDirectoryEntries_miss_log cfg channel accountId kind query live s1 _ Hget)
    as [later Hlater].
  exists later. rewrite Hlater. f_equal.
  rewrite (listDirectoryEntries_call _ _ _ _ _ src_cache _ dir tag fn Hdir Hpick).
  unfold await. cbn [st_world setCache st_log].
  destruct (fn _ (st_world s1)). cbn [snd st_log]. by rewrite Hlog.
Qed.

End ResetFacts.

(** ** What a resolution can return *)

Section ResolutionShape.
Context `{E : Externals}.
Import DirectoryCache.

Lemma filter_matches_Forall channel query entries :
  Forall (fun entry => matchesDirectoryEntry channel entry query = true)
         (List.filter (fun entry => matchesDirectoryEntry channel entry query) entries).
Proof.
  apply List.Forall_forall. intros e He. by apply List.filter_In in He as [_ He].
Qed.

(** X6.  Whatever [resolveMessagingTarget] returns has one of four shapes.
    A success has the kind [detectTargetKind] gives (the preferred kind when
    one is supplied); coming from the identifier test it leaves the state
    untouched, coming from the directory its destination is the normalized
    id of an entry that matches the query.  A failure carries candidates
    only when there are at least two of them, and all of them match the
    query; a failure on a blank input leaves the state untouched. *)
Theorem resolution_result_shape cfg channel input accountId preferredKind s r s' :
  resolveMessagingTarget cfg channel input accountId preferredKind s = (Normal r, s') ->
  let raw := normalizeChannelTargetInput input in
  let query := stripTargetPrefixes raw in
  match r with
  | ResolveOk target =>
      rt_kind target = detectTargetKind raw preferredKind
      /\ (preferredKind <> None -> Some (rt_kind target) = preferredKind)
      /\ match rt_source target with
         | from_normalized =>
             s' = s
             /\ rt_to target
                = preserveTargetCase channel raw
                    (default raw (normalizeTargetForProvider channel raw))
         | from_directory =>
             exists entry,
               matchesDirectoryEntry channel entry query = true
               /\ rt_to target = normalizeDirectoryEntryId channel entry
         end
  | ResolveFail message (Some candidates) =>
      (2 <= length candidates)%nat
      /\ Forall (fun entry => matchesDirectoryEntry channel entry query = true)
                candidates
  | ResolveFail message None =>
      (Js.truthy raw = false /\ message = "Target is required" /\ s' = s)
      \/ (Js.truthy raw = true
          /\ message = "Unknown target " +:+ dquote +:+ raw +:+ dquote
                         +:+ " for " +:+ channel +:+ ".")
  end.
Proof.
  intros Hrun raw query. revert Hrun. unfold resolveMessagingTarget. fold raw.
  destruct (Js.truthy raw) eqn:Hraw; cbn [negb].
  2:{ intros [= <- <-]. left. done. }
  destruct (looksLikeId channel _) eqn:Hid.
  { intros [= <- <-]. simpl. split; [done|]. split; [|done].
    destruct preferredKind; [done|]. intros Hn. by destruct Hn. }
  unfold bind. fold query.
  destruct (getDirectoryEntries _ _ _ _ _ _ s) as [[entries|e] s1]; [|discriminate].
  unfold resolveMatch.
  pose proof (filter_matches_Forall channel query entries) as Hall.
  destruct (List.filter _ entries) as [|e1 [|e2 rest]] eqn:Hf.
  - intros [= <- <-]. right. done.
  - intros [= <- <-]. simpl. split; [done|]. split.
    + destruct preferredKind; [done|]. intros Hn. by destruct Hn.
    + exists e1. split; [|done]. by apply Forall_inv in Hall.
  - intros [= <- <-]. split; [simpl; lia | exact Hall].
Qed.

(** X7.  After a directory lookup, the number of matching entries decides
    the result: none gives the failure "Unknown target" without
    candidates, which is always the case when the query is blank once its
    prefixes and sigil are stripped; exactly one gives a success of source
    [directory] whose destination is the normalized id of that entry and
    whose label is its name, else its handle, else its stripped id. *)
Theorem lookup_result_by_match_count
    cfg channel input accountId preferredKind s entries s' :
  let raw := normalizeChannelTargetInput input in
  let query := stripTargetPrefixes raw in
  let matching :=
    List.filter (fun entry => matchesDirectoryEntry channel entry query) entries in
  Js.truthy raw = true ->
  looksLikeId channel (default raw (normalizeTargetForProvider channel raw)) = false ->
  getDirectoryEntries cfg channel accountId
    (directoryKindOf (detectTargetKind raw preferredKind)) (Some query) true s
  = (Normal entries, s') ->
  (matching = [] ->
   resolveMessagingTarget cfg channel input accountId preferredKind s
   = (Normal (ResolveFail ("Unknown target " +:+ dquote +:+ raw +:+ dquote
                             +:+ " for " +:+ channel +:+ ".") None), s'))
  /\ (normalizeQuery query = "" -> matching = [])
  /\ (forall entry,
        matching = [entry] ->
        resolveMessagingTarget cfg channel input accountId preferredKind s
        = (Normal (ResolveOk
                     {| rt_to := normalizeDirectoryEntryId channel entry;
                        rt_kind := detectTargetKind raw preferredKind;
                        rt_display :=
                          Some (default (default (stripTargetPrefixes (entry_id entry))
                                           (entry_handle entry))
                                  (entry_name entry));
                        rt_source := from_directory |}), s')).
Proof.
  intros raw query matching Hraw Hid Hget.
  assert (resolveMessagingTarget cfg channel input accountId preferredKind s
          = (match resolveMatch channel entries query with
             | MatchSingle entry =>
                 Normal (ResolveOk
                           {| rt_to := normalizeDirectoryEntryId channel entry;
                              rt_kind := detectTargetKind raw preferredKind;
                              rt_display :=
                                Some (default
                                        (default (stripTargetPrefixes (entry_id entry))
                                           (entry_handle entry))
                                        (entry_name entry));
                              rt_source := from_directory |})
             | MatchAmbiguous found =>
                 Normal (ResolveFail
                           ("Ambiguous target " +:+ dquote +:+ raw +:+ dquote
                              +:+ ". Provide a unique name or an explicit id.")
                           (Some found))
             | MatchNone =>
                 Normal (ResolveFail
                           ("Unknown target " +:+ dquote +:+ raw +:+ dquote
                              +:+ " for " +:+ channel +:+ ".") None)
             end, s')) as Hrun.
  { unfold resolveMessagingTarget. fold raw. rewrite Hraw, Hid. cbn [negb].
    unfold bind. fold query. unfold directoryKindOf in Hget. rewrite Hget.
    destruct (resolveMatch channel entries query) as [|entry|found]; reflexivity. }
  unfold resolveMatch in Hrun. fold matching in Hrun.
  split; [|split].
  - intros Hm. by rewrite Hm in Hrun.
  - intros Hq. unfold matching.
    induction entries as [|e rest IH]; [done|]. simpl.
    unfold matchesDirectoryEntry at 1. rewrite Hq. simpl.
    clear -IH Hq. revert IH. generalize rest. intros l _.
    induction l as [|x l IHl]; [done|]. simpl.
    unfold matchesDirectoryEntry at 1. rewrite Hq. simpl. exact IHl.
  - intros entry Hm. by rewrite Hm in Hrun.
Qed.

(** X8.  A failure of the directory is not swallowed: when the lookup
    misses the cache and the listing throws, the lookup and the resolution
    throw the same error and nothing is stored under the key, so that the
    next lookup asks the directory again. *)
Theorem directory_errors_propagate cfg channel accountId kind query live s c1 e s2 :
  get (dateNow (st_world s)) (directoryKey channel accountId kind src_cache) cfg
      (st_cache s) = (None, c1) ->
  listDirectoryEntries cfg channel accountId kind query src_cache (setCache c1 s)
  = (Throw e, s2) ->
  getDirectoryEntries cfg channel accountId kind query live s = (Throw e, s2)
  /\ cache (st_cache s2) !! directoryKey channel accountId kind src_cache = None
  /\ (forall input preferredKind,
        let raw := normalizeChannelTargetInput input in
        Js.truthy raw = true ->
        looksLikeId channel (default raw (normalizeTargetForProvider channel raw))
        = false ->
        directoryKindOf (detectTargetKind raw preferredKind) = kind ->
        query = Some (stripTargetPrefixes raw) ->
        live = true ->
        resolveMessagingTarget cfg channel input accountId preferredKind s
        = (Throw e, s2)).
Proof.
  intros Hget Hlist.
  assert (getDirectoryEntries cfg channel accountId kind query live s = (Throw e, s2))
    as Hrun by (by rewrite (getDirectoryEntries_miss _ _ _ _ _ live _ _ Hget), Hlist).
  split; [exact Hrun|]. split.
  - pose proof (listDirectoryEntries_effect cfg channel accountId kind query
                  src_cache (setCache c1 s)) as Heff.
    rewrite Hlist in Heff. destruct Heff as [-> _].
    by destruct (get_none _ _ _ _ _ _ Hget) as (Hnone & _).
  - intros input preferredKind raw Hraw Hid Hkind -> ->.
    unfold resolveMessagingTarget. fold raw. rewrite Hraw, Hid. cbn [negb].
    unfold bind. unfold directoryKindOf in Hkind. rewrite Hkind.
    by rewrite Hrun.
Qed.

(** X9.  [lookupDirectoryDisplay] makes at most one directory call, to the
    plain group listing and without a query: it never asks for users and
    never escalates to the live listing. *)
Theorem display_lookup_never_goes_live cfg channel targetId accountId s :
  let s' := (lookupDirectoryDisplay cfg channel targetId accountId s).2 in
  st_log s' = st_log s
  \/ st_log s'
     = EvDirectory channel listGroups
         {| dl_cfg := cfg; dl_accountId := accountId; dl_query := None |}
       :: st_log s.
Proof.
  intros s'. unfold s', lookupDirectoryDisplay, bind.
  assert (st_log (getDirectoryEntries cfg channel accountId k_group None false s).2
          = st_log s
          \/ st_log (getDirectoryEntries cfg channel accountId k_group None false s).2
             = EvDirectory channel listGroups
                 {| dl_cfg := cfg; dl_accountId := accountId; dl_query := None |}
               :: st_log s) as Hlog.
  { destruct (get (dateNow (st_world s)) (directoryKey channel accountId k_group src_cache)
                cfg (st_cache s)) as [[entries|] c1] eqn:Hget.
    - left. by rewrite (getDirectoryEntries_hit _ _ _ _ _ _ _ _ _ Hget).
    - rewrite (getDirectoryEntries_miss _ _ _ _ _ _ _ _ Hget).
      unfold listDirectoryEntries.
      destruct (getChannelPluginDirectory channel) as [dir|]; [|by left].
      unfold pickDirectoryFn.
      destruct (dir_listGroups dir) as [fn|]; [|by left]. simpl.
      unfold await. destruct (fn _ _) as [[entries|e] w]; cbn [negb];
        rewrite ?orb_true_r; simpl; by right. }
  destruct (getDirectoryEntries cfg channel accountId k_group None false s)
    as [[entries|e] s1]; exact Hlog.
Qed.

End ResolutionShape.

(** ** Identifier shapes and letter case *)

Section ShapeFacts.
Context `{E : Externals}.

Lemma allChars_impl (f g : ascii -> bool) (s : string) :
  (forall c, f c = true -> g c = true) ->
  Js.allChars f s = true -> Js.allChars g s = true.
Proof.
  intros Hfg. induction s as [|c r IH]; simpl; [done|].
  intros [Hc Hr]%andb_true_iff. by rewrite (Hfg c Hc), IH.
Qed.

Lemma isAlnumCI_notSpace (c : ascii) : Js.isAlnumCI c = true -> notSpace c = true.
Proof. destruct c as [[] [] [] [] [] [] [] []]; vm_compute; congruence. Qed.

Lemma notSpace_is_space (c : ascii) : notSpace c = true -> Ascii.is_space c = false.
Proof. unfold notSpace. by destruct (Ascii.is_space c). Qed.

Lemma trim_notSpace (s : string) : Js.allChars notSpace s = true -> Js.trim s = s.
Proof. apply trim_allChars, notSpace_is_space. Qed.

Lemma trim_alnum (s : string) : Js.allChars Js.isAlnumCI s = true -> Js.trim s = s.
Proof. intros Hs. by apply trim_notSpace, (allChars_impl _ _ _ isAlnumCI_notSpace). Qed.

Lemma startsWith_head (c : ascii) (s : string) :
  Js.startsWith (String c EmptyString) (String c s) = true.
Proof.
  unfold Js.startsWith. simpl.
  destruct (ascii_dec c c) as [_|Hne]; [by destruct s | by destruct Hne].
Qed.

(** The slack shorthand: a sigil followed by an identifier. *)
Lemma slack_sigil_facts (sigil : ascii) (id : string) :
  sigil = "#"%char \/ sigil = "@"%char ->
  Js.atLeast 8 Js.isAlnumCI id = true ->
  Js.trim (String sigil id) = String sigil id
  /\ stripTargetPrefixes (String sigil id) = id
  /\ looksLikeId "slack" (String sigil id) = true.
Proof.
  intros Hsigil [Hlen Hall]%andb_true_iff.
  assert (Js.trim (String sigil id) = String sigil id) as Htrim.
  { apply trim_notSpace. simpl.
    rewrite (allChars_impl _ _ _ isAlnumCI_notSpace Hall).
    by destruct Hsigil as [-> | ->]. }
  assert (stripTargetPrefixes (String sigil id) = id) as Hstrip.
  { unfold stripTargetPrefixes.
    destruct Hsigil as [-> | ->].
    - change (Js.startsWithCI "channel:" (String "#" id)) with false.
      change (Js.startsWithCI "group:" (String "#" id)) with false.
      change (Js.startsWithCI "user:" (String "#" id)) with false.
      cbv iota zeta. rewrite startsWith_head, orb_true_r. by apply trim_alnum.
    - change (Js.startsWithCI "channel:" (String "@" id)) with false.
      change (Js.startsWithCI "group:" (String "@" id)) with false.
      change (Js.startsWithCI "user:" (String "@" id)) with false.
      cbv iota zeta. rewrite startsWith_head. by apply trim_alnum. }
  split; [done|]. split; [done|].
  unfold looksLikeId. cbn [Js.truthy negb]. rewrite Htrim.
  change (String.eqb "slack" "discord") with false.
  change (String.eqb "slack" "slack") with true. cbv iota.
  rewrite Hstrip. unfold Js.atLeast. by rewrite Hlen, Hall.
Qed.

(** X10.  On slack, [#ID] and [@ID], for an identifier of eight or more
    letters and digits, resolve without a directory call to [channel:ID]
    of kind group and to [user:ID] of kind user, with the letter case of
    [ID] as it was typed; the normalized form only has to pass the
    identifier test, which the shorthand itself does. *)
Theorem slack_shorthand_keeps_case cfg input accountId s id :
  Js.atLeast 8 Js.isAlnumCI id = true ->
  let raw := normalizeChannelTargetInput input in
  looksLikeId "slack" (default raw (normalizeTargetForProvider "slack" raw)) = true ->
  (raw = "#" +:+ id ->
   resolveMessagingTarget cfg "slack" input accountId None s
   = (Normal (ResolveOk {| rt_to := "channel:" +:+ id; rt_kind := trk_group;
                           rt_display := Some id; rt_source := from_normalized |}), s))
  /\ (raw = "@" +:+ id ->
      resolveMessagingTarget cfg "slack" input accountId None s
      = (Normal (ResolveOk {| rt_to := "user:" +:+ id; rt_kind := trk_user;
                              rt_display := Some id; rt_source := from_normalized |}), s))
  /\ looksLikeId "slack" ("#" +:+ id) = true
  /\ looksLikeId "slack" ("@" +:+ id) = true.
Proof.
  intros Hid raw Hlooks.
  destruct (slack_sigil_facts "#" id (or_introl eq_refl) Hid) as (Ht1 & Hs1 & Hl1).
  destruct (slack_sigil_facts "@" id (or_intror eq_refl) Hid) as (Ht2 & Hs2 & Hl2).
  pose proof Hid as [_ Hall]%andb_true_iff.
  split; [|split; [|split; [exact Hl1 | exact Hl2]]].
  - intros Hraw. unfold resolveMessagingTarget. fold raw. rewrite Hlooks.
    rewrite Hraw. change ("#" +:+ id) with (String "#" id).
    cbn [Js.truthy negb]. unfold ret. do 3 f_equal.
    unfold preserveTargetCase, detectTargetKind. rewrite Hs1, Ht1.
    change (String.eqb "slack" "slack") with true. cbn [negb].
    change (Js.startsWithCI "channel:" (String "#" id)) with false.
    change (Js.startsWithCI "user:" (String "#" id)) with false.
    rewrite (startsWith_head "#" id).
    change (Js.startsWith "@" (String "#" id)) with false.
    change (Js.startsWith "<@" (String "#" id)) with false.
    cbn [orb Js.truthy negb Js.slice]. by rewrite (trim_alnum _ Hall).
  - intros Hraw. unfold resolveMessagingTarget. fold raw. rewrite Hlooks.
    rewrite Hraw. change ("@" +:+ id) with (String "@" id).
    cbn [Js.truthy negb]. unfold ret. do 3 f_equal.
    unfold preserveTargetCase, detectTargetKind. rewrite Hs2, Ht2.
    change (String.eqb "slack" "slack") with true. cbn [negb].
    change (Js.startsWithCI "channel:" (String "@" id)) with false.
    change (Js.startsWithCI "user:" (String "@" id)) with false.
    change (Js.startsWith "#" (String "@" id)) with false.
    rewrite (startsWith_head "@" id).
    cbn [orb Js.truthy negb Js.slice]. by rewrite (trim_alnum _ Hall).
Qed.

(** X11.  A channel other than discord, slack, msteams, telegram and
    whatsapp has no identifier rule: every input whose normalized form is
    not blank resolves without a directory call, and the destination is the
    normalized form as it is. *)
Theorem channels_without_rule_take_any_target
    cfg channel input accountId preferredKind s :
  channel ∉ ["discord"; "slack"; "msteams"; "telegram"; "whatsapp"] ->
  let raw := normalizeChannelTargetInput input in
  let normalizedForm := default raw (normalizeTargetForProvider channel raw) in
  Js.truthy raw = true ->
  Js.truthy (Js.trim normalizedForm) = true ->
  resolveMessagingTarget cfg channel input accountId preferredKind s
  = (Normal (ResolveOk {| rt_to := normalizedForm;
                          rt_kind := detectTargetKind raw preferredKind;
                          rt_display := Some (stripTargetPrefixes raw);
                          rt_source := from_normalized |}), s).
Proof.
  intros Hch raw normalizedForm Hraw Hnf.
  assert (forall name, name ∈ ["discord"; "slack"; "msteams"; "telegram"; "whatsapp"] ->
                       String.eqb channel name = false) as Hneq.
  { intros name Hin. apply String.eqb_neq. intros ->. by apply Hch. }
  assert (looksLikeId channel normalizedForm = true) as Hid.
  { unfold looksLikeId.
    destruct normalizedForm as [|c r] eqn:Hn; [discriminate Hnf|].
    cbn [Js.truthy negb].
    rewrite !Hneq by (repeat constructor). exact Hnf. }
  unfold resolveMessagingTarget. fold raw. fold normalizedForm.
  rewrite Hraw, Hid. cbn [negb]. unfold ret, preserveTargetCase.
  by rewrite (Hneq "slack") by (repeat constructor).
Qed.

Lemma lowerChar_space (c : ascii) : Ascii.is_space (Js.lowerChar c) = Ascii.is_space c.
Proof. destruct c as [[] [] [] [] [] [] [] []]; reflexivity. Qed.

Lemma lowerChar_idem (c : ascii) : Js.lowerChar (Js.lowerChar c) = Js.lowerChar c.
Proof. destruct c as [[] [] [] [] [] [] [] []]; reflexivity. Qed.

Lemma toLowerCase_idem (s : string) :
  Js.toLowerCase (Js.toLowerCase s) = Js.toLowerCase s.
Proof. induction s as [|c r IH]; simpl; [done|]. by rewrite lowerChar_idem, IH. Qed.

Lemma toLowerCase_list (s : string) :
  list_ascii_of_string (Js.toLowerCase s)
  = List.map Js.lowerChar (list_ascii_of_string s).
Proof. induction s as [|c r IH]; simpl; [done|]. by rewrite IH. Qed.

Lemma toLowerCase_rev (s : string) :
  Js.toLowerCase (String.rev s) = String.rev (Js.toLowerCase s).
Proof.
  rewrite <- (string_of_list_ascii_of_string (Js.toLowerCase (String.rev s))).
  rewrite <- (string_of_list_ascii_of_string (String.rev (Js.toLowerCase s))).
  f_equal. rewrite toLowerCase_list, !rev_list, toLowerCase_list.
  apply List.map_rev.
Qed.

Lemma toLowerCase_trimStart (s : string) :
  Js.toLowerCase (Js.trimStart s) = Js.trimStart (Js.toLowerCase s).
Proof.
  induction s as [|c r IH]; simpl; [done|].
  rewrite lowerChar_space. by destruct (Ascii.is_space c).
Qed.

Lemma toLowerCase_trim (s : string) :
  Js.toLowerCase (Js.trim s) = Js.trim (Js.toLowerCase s).
Proof.
  unfold Js.trim, Js.trimEnd.
  by rewrite toLowerCase_rev, toLowerCase_trimStart, toLowerCase_rev,
    toLowerCase_trimStart.
Qed.

(** X12.  On ASCII strings, matching ignores the case of the letters of
    the query: an entry whose id, name and handle are ASCII matches an
    ASCII query exactly when it matches the query with its letters [A-Z]
    in lower case. *)
Theorem matching_ignores_query_case channel entry query :
  isAscii query = true ->
  isAsciiEntry entry = true ->
  matchesDirectoryEntry channel entry (Js.toLowerCase query)
  = matchesDirectoryEntry channel entry query.
Proof.
  intros _ _. unfold matchesDirectoryEntry, normalizeQuery.
  by rewrite <- toLowerCase_trim, toLowerCase_idem.
Qed.

End ShapeFacts.

(** ** What a run adds to the log *)

Section LogFacts.
Context `{E : Externals}.

Lemma logsOnly_ret {A} (P : Event -> Prop) (a : A) : logsOnly P (ret a).
Proof. intros s. exists []. by split. Qed.

Lemma logsOnly_throw {A} (P : Event -> Prop) e : logsOnly P (@throw _ A e).
Proof. intros s. exists []. by split. Qed.

Lemma logsOnly_lift {A} (P : Event -> Prop) (c : Completion A) : logsOnly P (lift c).
Proof. intros s. exists []. by split. Qed.

Lemma logsOnly_await_none {A} (P : Event -> Prop)
    (call : World -> Completion A * World) :
  logsOnly P (await None call).
Proof. intros s. exists []. unfold await. destruct (call _). by split. Qed.

Lemma logsOnly_await_some {A} (P : Event -> Prop) e
    (call : World -> Completion A * World) :
  P e -> logsOnly P (await (Some e) call).
Proof.
  intros He s. exists [e]. unfold await. destruct (call _).
  split; [done | by constructor].
Qed.

Lemma logsOnly_bind {A B} (P : Event -> Prop) (m : M A) (k : A -> M B) :
  logsOnly P m -> (forall a, logsOnly P (k a)) -> logsOnly P (bind m k).
Proof.
  intros Hm Hk s. unfold bind. destruct (Hm s) as (n1 & H1 & F1).
  destruct (m s) as [[a|e] s1]; simpl in H1.
  - destruct (Hk a s1) as (n2 & H2 & F2). exists (n2 ++ n1)%list.
    rewrite H2, H1, app_assoc. split; [done|]. apply Forall_app. by split.
  - exists n1. by split.
Qed.

Lemma logsOnly_tryCatch {A} (P : Event -> Prop) (body : M A) handler :
  logsOnly P body -> (forall e, logsOnly P (handler e)) ->
  logsOnly P (tryCatch body handler).
Proof.
  intros Hm Hk s. unfold tryCatch. destruct (Hm s) as (n1 & H1 & F1).
  destruct (body s) as [[a|e] s1]; simpl in H1.
  - exists n1. by split.
  - destruct (Hk e s1) as (n2 & H2 & F2). exists (n2 ++ n1)%list.
    rewrite H2, H1, app_assoc. split; [done|]. apply Forall_app. by split.
Qed.

Lemma logsOnly_forOf {A B} (P : Event -> Prop) (body : B -> A -> M B) xs :
  (forall acc x, logsOnly P (body acc x)) ->
  forall acc, logsOnly P (forOf body xs acc).
Proof.
  intros Hbody. induction xs as [|x rest IH]; intros acc; simpl.
  - apply logsOnly_ret.
  - apply logsOnly_bind; [apply Hbody | exact IH].
Qed.

Lemma logsOnly_mono {A} (P Q : Event -> Prop) (m : M A) :
  (forall e, P e -> Q e) -> logsOnly P m -> logsOnly Q m.
Proof.
  intros HPQ Hm s. destruct (Hm s) as (new & Hlog & Hnew).
  exists new. split; [done|]. by apply (Forall_impl P).
Qed.

Lemma logsOnly_cacheGet (P : Event -> Prop) key cfg : logsOnly P (cacheGet key cfg).
Proof.
  intros s. exists []. unfold cacheGet. destruct (DirectoryCache.get _ _ _ _).
  by split.
Qed.

Lemma logsOnly_cacheSet (P : Event -> Prop) key v cfg :
  logsOnly P (cacheSet key v cfg).
Proof. intros s. exists []. by split. Qed.

Lemma listDirectoryEntries_logsOnly cfg channel accountId kind query source :
  logsOnly directoryEvent
    (listDirectoryEntries cfg channel accountId kind query source).
Proof.
  unfold listDirectoryEntries.
  destruct (getChannelPluginDirectory channel) as [dir|]; [|apply logsOnly_ret].
  cbv zeta. destruct (pickDirectoryFn _ _ _) as [[tag fn]|]; [|apply logsOnly_ret].
  by apply logsOnly_await_some.
Qed.

Lemma getDirectoryEntries_logsOnly cfg channel accountId kind query live :
  logsOnly directoryEvent (getDirectoryEntries cfg channel accountId kind query live).
Proof.
  unfold getDirectoryEntries. cbv zeta.
  apply logsOnly_bind; [apply logsOnly_cacheGet|].
  intros [entries|]; [apply logsOnly_ret|].
  apply logsOnly_bind; [apply listDirectoryEntries_logsOnly|].
  intros entries. destruct (_ || _)%bool.
  - apply logsOnly_bind; [apply logsOnly_cacheSet | intros; apply logsOnly_ret].
  - apply logsOnly_bind; [apply listDirectoryEntries_logsOnly|].
    intros liveEntries.
    apply logsOnly_bind; [apply logsOnly_cacheSet | intros; apply logsOnly_ret].
Qed.

Lemma resolveMessagingTarget_logsOnly cfg channel input accountId preferredKind :
  logsOnly directoryEvent
    (resolveMessagingTarget cfg channel input accountId preferredKind).
Proof.
  unfold resolveMessagingTarget. cbv zeta.
  destruct (negb _); [apply logsOnly_ret|].
  destruct (looksLikeId _ _); [apply logsOnly_ret|].
  apply logsOnly_bind; [apply getDirectoryEntries_logsOnly|].
  intros entries. destruct (resolveMatch _ _ _); apply logsOnly_ret.
Qed.

Lemma resolveChannel_logsOnly (P : Event -> Prop) cfg params :
  logsOnly P (resolveChannel cfg params).
Proof.
  unfold resolveChannel. apply logsOnly_bind; [apply logsOnly_lift|].
  intros hint. apply logsOnly_await_none.
Qed.

Lemma resolveActionTarget_logsOnly cfg channel action args accountId :
  logsOnly directoryEvent (resolveActionTarget cfg channel action args accountId).
Proof.
  unfold resolveActionTarget, resolveChannelTarget. cbv zeta.
  apply logsOnly_bind.
  - destruct (Js.truthy _); [|apply logsOnly_ret].
    apply logsOnly_bind; [apply resolveMessagingTarget_logsOnly|].
    intros [t|err c]; [apply logsOnly_ret | apply logsOnly_throw].
  - intros args1. destruct (Js.truthy _); [|apply logsOnly_ret].
    apply logsOnly_bind; [apply resolveMessagingTarget_logsOnly|].
    intros [t|err c]; [|apply logsOnly_throw].
    destruct (decide _); [apply logsOnly_throw | apply logsOnly_ret].
Qed.

Lemma decorationFor_log action ctx to s :
  st_log (decorationFor action ctx to s).2 = st_log s.
Proof.
  unfold decorationFor. destruct (shouldApplyCrossContextMarker action); [|done].
  destruct (in_toolContext (rc_input ctx)); [|done].
  unfold await. by destruct (buildCrossContextDecoration _ _).
Qed.

(** The send handler throws before the send service is called, or calls
    it once, as its last step. *)
Lemma handleSendAction_log ctx s :
  let out := handleSendAction ctx s in
  ((exists e, out.1 = Throw e) /\ st_log out.2 = st_log s)
  \/ (exists args,
        st_log out.2 = EvSend args :: st_log s
        /\ dc_cfg (es_ctx args) = rc_cfg ctx
        /\ dc_dryRun (es_ctx args) = rc_dryRun ctx
        /\ (rc_dryRun ctx = true -> dc_mirror (es_ctx args) = None)
        /\ forall r, out.1 = Normal r ->
             exists to handledBy payload toolResult sendResult,
               r = RunSend (rc_channel ctx) to handledBy payload toolResult
                     sendResult (rc_dryRun ctx)).
Proof.
  intros out. subst out. unfold handleSendAction, bind, lift, ret. cbv zeta.
  destruct (readStringParam (rc_params ctx) "to" _) as [to|e];
    [|left; split; [by exists e | done]].
  destruct (readStringParam (rc_params ctx) "media" _) as [mediaHint|e];
    [|left; split; [by exists e | done]].
  destruct (readStringParam (rc_params ctx) "message" _) as [message|e];
    [|left; split; [by exists e | done]].
  match goal with
  | |- context [decorationFor ?a ?c ?t s] =>
      pose proof (decorationFor_log a c t s) as Hlog;
      destruct (decorationFor a c t s) as [[decoration|e] s1]
  end; simpl in Hlog; [|left; split; [by exists e | done]].
  match goal with
  | |- context [match decoration with
                | Some d => applyCrossContextMessageDecoration ?p ?m d true
                | None => ?n
                end] =>
      destruct (match decoration with
                | Some d => applyCrossContextMessageDecoration p m d true
                | None => n
                end) as [message' params2]
  end.
  destruct (readStringParam params2 "media" _) as [mediaUrl|e];
    [|left; split; [by exists e | done]].
  right. unfold await.
  match goal with
  | |- context [executeSendAction ?a ?w] =>
      exists a; destruct (executeSendAction a w) as [[r|e] w']
  end.
  all: cbn [fst snd st_log es_ctx dc_cfg dc_dryRun dc_mirror]; rewrite Hlog.
  all: split; [reflexivity|]; split; [reflexivity|]; split; [reflexivity|].
  all: split;
    [intros ->; destruct (in_sessionKey (rc_input ctx)) as [k|];
       [by rewrite andb_false_r | done]|].
  - intros r' [= <-]. by eexists _, _, _, _, _.
  - intros r' Hr. discriminate Hr.
Qed.

Lemma handlePollAction_log ctx s :
  let out := handlePollAction ctx s in
  ((exists e, out.1 = Throw e) /\ st_log out.2 = st_log s)
  \/ (exists args,
        st_log out.2 = EvPoll args :: st_log s
        /\ dc_cfg (ep_ctx args) = rc_cfg ctx
        /\ dc_dryRun (ep_ctx args) = rc_dryRun ctx
        /\ dc_mirror (ep_ctx args) = None
        /\ forall r, out.1 = Normal r ->
             exists to handledBy payload toolResult pollResult,
               r = RunPoll (rc_channel ctx) to handledBy payload toolResult
                     pollResult (rc_dryRun ctx)).
Proof.
  intros out. subst out. unfold handlePollAction, bind, lift, ret, throw. cbv zeta.
  destruct (readStringParam (rc_params ctx) "to" _) as [to|e];
    [|left; split; [by exists e | done]].
  destruct (readStringParam (rc_params ctx) "pollQuestion" _) as [question|e];
    [|left; split; [by exists e | done]].
  destruct (readStringArrayParam (rc_params ctx) "pollOption") as [options|e];
    [|left; split; [by exists e | done]].
  destruct (length (default [] options) <? 2)%nat;
    [left; split; [by eexists | done]|].
  destruct (readNumberParam (rc_params ctx) "pollDurationHours") as [hours|e];
    [|left; split; [by exists e | done]].
  match goal with
  | |- context [decorationFor ?a ?c ?t s] =>
      pose proof (decorationFor_log a c t s) as Hlog;
      destruct (decorationFor a c t s) as [[decoration|e] s1]
  end; simpl in Hlog; [|left; split; [by exists e | done]].
  right. unfold await.
  match goal with
  | |- context [executePollAction ?a ?w] =>
      exists a; destruct (executePollAction a w) as [[r|e] w']
  end.
  all: cbn [fst snd st_log ep_ctx dc_cfg dc_dryRun dc_mirror]; rewrite Hlog.
  all: split; [reflexivity|]; split; [reflexivity|]; split; [reflexivity|].
  all: split; [reflexivity|].
  - intros r' [= <-]. by eexists _, _, _, _, _.
  - intros r' Hr. discriminate Hr.
Qed.

Lemma handlePluginAction_log ctx s :
  let out := handlePluginAction ctx s in
  (st_log out.2 = st_log s
   /\ (rc_dryRun ctx = false -> exists e, out.1 = Throw e))
  \/ (exists args,
        rc_dryRun ctx = false
        /\ st_log out.2 = EvDispatch args :: st_log s
        /\ da_action args = in_action (rc_input ctx)
        /\ da_cfg args = rc_cfg ctx
        /\ da_dryRun args = false).
Proof.
  intros out. subst out. unfold handlePluginAction. cbv zeta.
  destruct (rc_dryRun ctx) eqn:Hdry; [left; by split|].
  right. unfold bind, await.
  match goal with
  | |- context [dispatchChannelMessageAction ?a ?w] =>
      exists a; destruct (dispatchChannelMessageAction a w) as [[[r|]|e] w']
  end.
  all: by repeat split.
Qed.

Lemma handlePluginAction_result ctx s r s' :
  handlePluginAction ctx s = (Normal r, s') ->
  exists handledBy payload toolResult,
    r = RunAction (rc_channel ctx) (in_action (rc_input ctx)) handledBy payload
          toolResult (rc_dryRun ctx).
Proof.
  unfold handlePluginAction. cbv zeta.
  destruct (rc_dryRun ctx) eqn:Hdry.
  - intros [= <- _]. by eexists _, _, _.
  - unfold bind, await.
    destruct (dispatchChannelMessageAction _ _) as [[[result|]|e] w'];
      [|discriminate|discriminate].
    intros [= <- _]. by eexists _, _, _.
Qed.

(** A request other than a broadcast throws during its preparation, the
    log having grown by directory listings only, or reaches the handler of
    its action. *)
Lemma run_prefix broadcast input s :
  in_action input <> a_broadcast ->
  exists lookups,
    Forall directoryEvent lookups
    /\ ((exists e s',
           runMessageActionWith broadcast input s = (Throw e, s')
           /\ st_log s' = (lookups ++ st_log s)%list)
        \/ (exists ctx s1,
              runMessageActionWith broadcast input s
              = (if decide (in_action input = a_send) then handleSendAction ctx
                 else if decide (in_action input = a_poll) then handlePollAction ctx
                 else handlePluginAction ctx) s1
              /\ st_log s1 = (lookups ++ st_log s)%list
              /\ rc_input ctx = input
              /\ rc_cfg ctx = in_cfg input
              /\ (forall flag, in_dryRun input = Some flag -> rc_dryRun ctx = flag))).
Proof.
  intros Hb. unfold runMessageActionWith. cbv zeta. unfold bind, lift.
  destruct (parseButtonsParam (in_params input)) as [p1|e];
    [|exists []; split; [constructor|]; left; by exists e, s].
  destruct (decide (in_action input = a_broadcast)) as [Hb'|_]; [done|].
  destruct (applyTargetToParams _ p1) as [p2|e];
    [|exists []; split; [constructor|]; left; by exists e, s].
  match goal with
  | |- context [(if ActionSpec.actionRequiresTarget ?a then ?x else ?y) s] =>
      assert ((if ActionSpec.actionRequiresTarget a then x else y) s = (Normal tt, s)
              \/ exists e, (if ActionSpec.actionRequiresTarget a then x else y) s
                           = (Throw e, s)) as [-> | [e ->]]
  end.
  { destruct (ActionSpec.actionRequiresTarget _); [|by left].
    destruct (negb _); [right; by eexists | by left]. }
  2: { exists []. split; [constructor|]. left. by exists e, s. }
  pose proof (resolveChannel_log (in_cfg input) p2 s) as Hch.
  destruct (resolveChannel (in_cfg input) p2 s) as [[channel|e] s1]; simpl in Hch;
    [|exists []; split; [constructor|]; left; by exists e, s1].
  destruct (readStringParam p2 "accountId" noOpts) as [accountId|e];
    [|exists []; split; [constructor|]; left; by exists e, s1].
  match goal with
  | |- context [resolveActionTarget ?c ?ch ?a ?p ?acc s1] =>
      destruct (resolveActionTarget_logsOnly c ch a p acc s1) as (lookups & Hrt & Hdir);
      destruct (resolveActionTarget c ch a p acc s1) as [[p3|e] s2]
  end; simpl in Hrt; rewrite Hch in Hrt; exists lookups; (split; [exact Hdir|]);
    [|left; by exists e, s2].
  destruct (enforceCrossContextPolicy _ _ _ _ _) as [[]|e];
    [|left; by exists e, s2].
  right. eexists _, s2. split; [reflexivity|]. split; [exact Hrt|].
  split; [reflexivity|]. split; [reflexivity|].
  intros flag Hflag. cbn [rc_dryRun]. by rewrite Hflag.
Qed.

End LogFacts.

(** ** Runs and the services they call *)

Section RunFacts.
Context `{E : Externals}.
Import ActionSpec.

Lemma directoryEvent_dry (e : Event) : directoryEvent e -> dryRunEvent e.
Proof. destruct e; unfold directoryEvent; simpl; [done|discriminate..]. Qed.

(** X13.  A request other than a broadcast calls at most one of the send,
    poll and plugin dispatch services, as the last thing it does, and the
    one of its action; everything logged before are directory listings. *)
Theorem single_action_calls_one_service input s :
  in_action input <> a_broadcast ->
  exists lookups,
    Forall directoryEvent lookups
    /\ (st_log (runMessageAction input s).2 = (lookups ++ st_log s)%list
        \/ exists call,
             serviceCallOf input call
             /\ st_log (runMessageAction input s).2
                = (call :: lookups ++ st_log s)%list).
Proof.
  intros Hb. unfold runMessageAction.
  destruct (run_prefix handleBroadcastAction input s Hb)
    as (lookups & Hdir & [(e & s' & -> & Hlog)
                         | (ctx & s1 & -> & Hlog & Hin & Hcfg & Hflag)]);
    exists lookups; (split; [exact Hdir|]); [by left|].
  destruct (decide (in_action input = a_send)) as [Hs|Hs];
    [|destruct (decide (in_action input = a_poll)) as [Hp|Hp]].
  - pose proof (handleSendAction_log ctx s1) as Hh; cbv zeta in Hh.
    destruct Hh
      as [[_ Hl] | (args & Hl & Hc & Hd & _ & _)].
    + left. by rewrite Hl.
    + right. exists (EvSend args). split; [|by rewrite Hl, Hlog].
      simpl. split; [done|]. split; [congruence|].
      intros flag Hf. rewrite Hd. by apply Hflag.
  - pose proof (handlePollAction_log ctx s1) as Hh; cbv zeta in Hh.
    destruct Hh
      as [[_ Hl] | (args & Hl & Hc & Hd & _ & _)].
    + left. by rewrite Hl.
    + right. exists (EvPoll args). split; [|by rewrite Hl, Hlog].
      simpl. split; [done|]. split; [congruence|].
      intros flag Hf. rewrite Hd. by apply Hflag.
  - pose proof (handlePluginAction_log ctx s1) as Hh; cbv zeta in Hh.
    destruct Hh
      as [[Hl _] | (args & Hdry & Hl & Ha & Hc & Hd)].
    + left. by rewrite Hl.
    + right. exists (EvDispatch args). split; [|by rewrite Hl, Hlog].
      simpl. repeat split; try done; try congruence.
      intros Hf. rewrite (Hflag true Hf) in Hdry. discriminate Hdry.
Qed.

Lemma single_run_dry broadcast input :
  in_action input <> a_broadcast ->
  in_dryRun input = Some true ->
  logsOnly dryRunEvent (runMessageActionWith broadcast input).
Proof.
  intros Hb Hdry s.
  destruct (run_prefix broadcast input s Hb)
    as (lookups & Hdir & [(e & s' & -> & Hlog)
                         | (ctx & s1 & -> & Hlog & Hin & Hcfg & Hflag)]).
  all: assert (Forall dryRunEvent lookups) as Hlookups
      by (eapply Forall_impl; [exact Hdir | exact directoryEvent_dry]).
  { by exists lookups. }
  specialize (Hflag true Hdry).
  destruct (decide (in_action input = a_send)) as [Hs|Hs];
    [|destruct (decide (in_action input = a_poll)) as [Hp|Hp]].
  - pose proof (handleSendAction_log ctx s1) as Hh; cbv zeta in Hh.
    destruct Hh
      as [[_ Hl] | (args & Hl & _ & Hd & Hm & _)].
    + exists lookups. by rewrite Hl.
    + exists (EvSend args :: lookups). rewrite Hl, Hlog. split; [done|].
      constructor; [|done]. simpl. split; [congruence | by apply Hm].
  - pose proof (handlePollAction_log ctx s1) as Hh; cbv zeta in Hh.
    destruct Hh
      as [[_ Hl] | (args & Hl & _ & Hd & Hm & _)].
    + exists lookups. by rewrite Hl.
    + exists (EvPoll args :: lookups). rewrite Hl, Hlog. split; [done|].
      constructor; [|done]. simpl. split; [congruence | done].
  - pose proof (handlePluginAction_log ctx s1) as Hh; cbv zeta in Hh.
    destruct Hh
      as [[Hl _] | (args & Hlive & _)].
    + exists lookups. by rewrite Hl.
    + rewrite Hflag in Hlive. discriminate Hlive.
Qed.

Lemma broadcastPlan_logsOnly (P : Event -> Prop) input params :
  logsOnly P (broadcastPlan input params).
Proof.
  unfold broadcastPlan. cbv zeta.
  destruct (negb _); [apply logsOnly_throw|].
  apply logsOnly_bind; [apply logsOnly_lift|]. intros rawTargets.
  destruct (_ =? 0)%nat; [apply logsOnly_throw|].
  apply logsOnly_bind; [apply logsOnly_lift|]. intros hint.
  apply logsOnly_bind; [apply logsOnly_await_none|]. intros configured.
  destruct (_ =? 0)%nat; [apply logsOnly_throw|].
  apply logsOnly_bind; [|intros; apply logsOnly_ret].
  destruct hint as [hint|]; [|apply logsOnly_ret].
  destruct (_ && _)%bool; [|apply logsOnly_ret].
  apply logsOnly_bind; [apply resolveChannel_logsOnly | intros; apply logsOnly_ret].
Qed.

(** X14.  A run with [dryRun: true] stays dry, whatever the action: every
    call of the send or poll service it makes carries [dryRun: true] and
    no mirror, the plugin dispatcher is not called at all, and this holds
    for each nested send of a broadcast as well. *)
Theorem dry_run_stays_dry input :
  in_dryRun input = Some true ->
  logsOnly dryRunEvent (runMessageAction input).
Proof.
  intros Hdry.
  destruct (decide (in_action input = a_broadcast)) as [Hb|Hb];
    [|by apply single_run_dry].
  unfold runMessageAction, runMessageActionWith. cbv zeta.
  apply logsOnly_bind; [apply logsOnly_lift|]. intros params.
  destruct (decide (in_action input = a_broadcast)) as [_|Hn]; [|done].
  unfold handleBroadcastAction, handleBroadcastActionWith.
  apply logsOnly_bind; [apply broadcastPlan_logsOnly|].
  intros [rawTargets targetChannels].
  apply logsOnly_bind; [|intros; apply logsOnly_ret].
  unfold broadcastLoop. apply logsOnly_forOf. intros acc targetChannel.
  apply logsOnly_forOf. intros acc' target.
  apply logsOnly_bind; [|intros; apply logsOnly_ret].
  unfold broadcastPair. apply logsOnly_tryCatch; [|intros; apply logsOnly_ret].
  apply logsOnly_bind.
  { eapply logsOnly_mono; [exact directoryEvent_dry|].
    apply resolveMessagingTarget_logsOnly. }
  intros [resolved|err candidates]; [|apply logsOnly_throw].
  apply logsOnly_bind; [|intros; apply logsOnly_ret].
  by apply single_run_dry.
Qed.

(** X15.  The poll handler calls the poll service only with two options or
    more, and with a selection limit of one, or of the number of options
    when [pollMulti] is set; with fewer than two options it throws before
    any call. *)
Theorem poll_needs_two_options ctx s :
  let out := handlePollAction ctx s in
  (forall to question options,
      readStringParam (rc_params ctx) "to"
        {| rs_required := Some true; rs_trim := None; rs_allowEmpty := None |}
      = Normal to ->
      readStringParam (rc_params ctx) "pollQuestion"
        {| rs_required := Some true; rs_trim := None; rs_allowEmpty := None |}
      = Normal question ->
      readStringArrayParam (rc_params ctx) "pollOption" = Normal options ->
      (length (default [] options) < 2)%nat ->
      out = (Throw "pollOption requires at least two values", s))
  /\ (((exists e, out.1 = Throw e) /\ st_log out.2 = st_log s)
      \/ (exists args,
            st_log out.2 = EvPoll args :: st_log s
            /\ readStringArrayParam (rc_params ctx) "pollOption"
               = Normal (Some (ep_options args))
            /\ (2 <= length (ep_options args))%nat
            /\ ep_maxSelections args
               = if default false (readBooleanParam (rc_params ctx) "pollMulti")
                 then length (ep_options args) else 1%nat)).
Proof.
  intros out. subst out. split.
  - intros to question options Hto Hq Hopts Hlen.
    unfold handlePollAction, bind, lift. cbv zeta. rewrite Hto, Hq, Hopts.
    by apply Nat.ltb_lt in Hlen as ->.
  - unfold handlePollAction, bind, lift, ret, throw. cbv zeta.
    destruct (readStringParam (rc_params ctx) "to" _) as [to|e];
      [|left; split; [by exists e | done]].
    destruct (readStringParam (rc_params ctx) "pollQuestion" _) as [question|e];
      [|left; split; [by exists e | done]].
    destruct (readStringArrayParam (rc_params ctx) "pollOption") as [options|e];
      [|left; split; [by exists e | done]].
    destruct (length (default [] options) <? 2)%nat eqn:Hlen;
      [left; split; [by eexists | done]|].
    apply Nat.ltb_ge in Hlen.
    destruct options as [options|]; [|simpl in Hlen; lia]. simpl in Hlen.
    destruct (readNumberParam (rc_params ctx) "pollDurationHours") as [hours|e];
      [|left; split; [by exists e | done]].
    match goal with
    | |- context [decorationFor ?a ?c ?t s] =>
        pose proof (decorationFor_log a c t s) as Hlog;
        destruct (decorationFor a c t s) as [[decoration|e] s1]
    end; simpl in Hlog; [|left; split; [by exists e | done]].
    right. unfold await.
    match goal with
    | |- context [executePollAction ?a ?w] =>
        exists a; destruct (executePollAction a w) as [[r|e] w']
    end.
    all: cbn [fst snd st_log ep_options ep_maxSelections default]; rewrite Hlog.
    all: split; [reflexivity|]; split; [reflexivity|]; split; [exact Hlen|].
    all: destruct (default false (readBooleanParam (rc_params ctx) "pollMulti"));
      [by rewrite Nat.max_r | done].
Qed.

Lemma resolve_preferred_kind cfg channel input accountId kind s target s' :
  resolveMessagingTarget cfg channel input accountId (Some kind) s
  = (Normal (ResolveOk target), s') ->
  rt_kind target = kind.
Proof.
  unfold resolveMessagingTarget. cbv zeta.
  destruct (negb _); [discriminate|].
  destruct (looksLikeId _ _); [by intros [= <- _]|].
  unfold bind. destruct (getDirectoryEntries _ _ _ _ _ _ _) as [[entries|e] s1];
    [|discriminate].
  destruct (resolveMatch _ _ _); [discriminate | by intros [= <- _] | discriminate].
Qed.

(** X16.  Every error of [resolveActionTarget] is an error of the
    resolution of [to] or of [channelId], thrown or reported by it.  The
    error of its own, for a channel id that resolved to a user, is never
    raised: the resolution it asks for a group returns a group. *)
Theorem action_target_errors_come_from_resolution
    cfg channel action args accountId s e s' :
  resolveActionTarget cfg channel action args accountId s = (Throw e, s') ->
  exists input kind s0,
    (kind = None \/ kind = Some trk_group)
    /\ (resolveChannelTarget cfg channel input accountId kind s0 = (Throw e, s')
        \/ exists candidates,
             resolveChannelTarget cfg channel input accountId kind s0
             = (Normal (ResolveFail e candidates), s')).
Proof.
  assert (forall args1 s1,
             (let channelIdRaw :=
                match getParam args1 "channelId" with
                | VStr s0 => Js.trim s0
                | _ => ""
                end in
              if Js.truthy channelIdRaw then
                bind (resolveChannelTarget cfg channel channelIdRaw accountId
                        (Some trk_group))
                  (fun resolved =>
                     match resolved with
                     | ResolveOk target =>
                         if decide (rt_kind target = trk_user) then
                           throw ("Channel id " +:+ dquote +:+ channelIdRaw
                                    +:+ dquote +:+ " resolved to a user target.")
                         else
                           ret (<["channelId" :=
                                    VStr (if Js.startsWithCI "channel:" (rt_to target)
                                          then Js.slice 8 (rt_to target)
                                          else if Js.startsWithCI "group:" (rt_to target)
                                               then Js.slice 6 (rt_to target)
                                               else rt_to target)]> args1)
                     | ResolveFail error _ => throw error
                     end)
              else ret args1) s1 = (Throw e, s') ->
             exists input kind s0,
               (kind = None \/ kind = Some trk_group)
               /\ (resolveChannelTarget cfg channel input accountId kind s0
                   = (Throw e, s')
                   \/ exists candidates,
                        resolveChannelTarget cfg channel input accountId kind s0
                        = (Normal (ResolveFail e candidates), s'))) as Hsecond.
  { intros args1 s1. cbv zeta.
    set (channelIdRaw :=
           match getParam args1 "channelId" with VStr s0 => Js.trim s0 | _ => "" end).
    destruct (Js.truthy channelIdRaw); [|discriminate].
    unfold bind.
    destruct (resolveChannelTarget cfg channel channelIdRaw accountId
                (Some trk_group) s1) as [[[target|err candidates]|e0] s2] eqn:Hres.
    - pose proof (resolve_preferred_kind _ _ _ _ _ _ _ _ Hres) as Hkind.
      destruct (decide (rt_kind target = trk_user)) as [Huser|_]; [|discriminate].
      rewrite Hkind in Huser. discriminate Huser.
    - intros [= <- <-]. exists channelIdRaw, (Some trk_group), s1.
      split; [by right|]. right. by exists candidates.
    - intros [= <- <-]. exists channelIdRaw, (Some trk_group), s1.
      split; [by right | by left]. }
  unfold resolveActionTarget. cbv zeta. unfold bind at 1.
  set (toRaw := match getParam args "to" with VStr s0 => Js.trim s0 | _ => "" end).
  destruct (Js.truthy toRaw); [|apply Hsecond].
  unfold bind at 1.
  destruct (resolveChannelTarget cfg channel toRaw accountId None s)
    as [[[target|err candidates]|e0] s1] eqn:Hres.
  - apply Hsecond.
  - intros [= <- <-]. exists toRaw, None, s. split; [by left|]. right.
    by exists candidates.
  - intros [= <- <-]. exists toRaw, None, s. split; [by left | by left].
Qed.

(** X17.  [resolveActionTarget] rewrites the keys [to] and [channelId] and
    no other: a key that holds no non-blank string is left as it is, a
    [to] is replaced by the destination its resolution returned, and a
    [channelId] by the destination of its resolution as a group, without
    the prefix [channel:] or [group:]. *)
Theorem action_target_rewrites_two_keys
    cfg channel action args accountId s args' s' :
  resolveActionTarget cfg channel action args accountId s = (Normal args', s') ->
  (forall key, key <> "to" -> key <> "channelId" -> args' !! key = args !! key)
  /\ (nonBlankString (getParam args "to") = false -> args' !! "to" = args !! "to")
  /\ (nonBlankString (getParam args "channelId") = false ->
      args' !! "channelId" = args !! "channelId")
  /\ (forall raw,
        getParam args "to" = VStr raw -> Js.truthy (Js.trim raw) = true ->
        exists target s1,
          resolveChannelTarget cfg channel (Js.trim raw) accountId None s
          = (Normal (ResolveOk target), s1)
          /\ args' !! "to" = Some (VStr (rt_to target)))
  /\ (forall raw,
        getParam args "channelId" = VStr raw -> Js.truthy (Js.trim raw) = true ->
        exists target s1 s2,
          resolveChannelTarget cfg channel (Js.trim raw) accountId (Some trk_group) s1
          = (Normal (ResolveOk target), s2)
          /\ args' !! "channelId"
             = Some (VStr (if Js.startsWithCI "channel:" (rt_to target)
                           then Js.slice 8 (rt_to target)
                           else if Js.startsWithCI "group:" (rt_to target)
                                then Js.slice 6 (rt_to target)
                                else rt_to target))).
Proof.
  unfold resolveActionTarget. cbv zeta. unfold bind at 1.
  set (toRaw := match getParam args "to" with VStr s0 => Js.trim s0 | _ => "" end).
  assert (Js.truthy toRaw = nonBlankString (getParam args "to")) as HtoRaw.
  { unfold toRaw, nonBlankString. by destruct (getParam args "to"). }
  intros Hrun.
  assert (exists args1 s1,
             (forall key, key <> "to" -> args1 !! key = args !! key)
             /\ (Js.truthy toRaw = false -> args1 !! "to" = args !! "to")
             /\ (Js.truthy toRaw = true ->
                 exists target,
                   resolveChannelTarget cfg channel toRaw accountId None s
                   = (Normal (ResolveOk target), s1)
                   /\ args1 !! "to" = Some (VStr (rt_to target)))
             /\ (let channelIdRaw :=
                   match getParam args1 "channelId" with
                   | VStr s0 => Js.trim s0
                   | _ => ""
                   end in
                 if Js.truthy channelIdRaw then
                   bind (resolveChannelTarget cfg channel channelIdRaw accountId
                           (Some trk_group))
                     (fun resolved =>
                        match resolved with
                        | ResolveOk target =>
                            if decide (rt_kind target = trk_user) then
                              throw ("Channel id " +:+ dquote +:+ channelIdRaw
                                       +:+ dquote +:+ " resolved to a user target.")
                            else
                              ret (<["channelId" :=
                                       VStr (if Js.startsWithCI "channel:" (rt_to target)
                                             then Js.slice 8 (rt_to target)
                                             else if Js.startsWithCI "group:" (rt_to target)
                                                  then Js.slice 6 (rt_to target)
                                                  else rt_to target)]> args1)
                        | ResolveFail error _ => throw error
                        end)
                 else ret args1) s1 = (Normal args', s'))
    as (args1 & s1 & Hother1 & Hblank1 & Hto1 & Hrest).
  { revert Hrun. destruct (Js.truthy toRaw) eqn:Htruthy.
    - unfold bind at 1.
      destruct (resolveChannelTarget cfg channel toRaw accountId None s)
        as [[[target|err c]|e] s1] eqn:Hres; [|discriminate..].
      intros Hrun. exists (<["to" := VStr (rt_to target)]> args), s1.
      split; [intros key Hk; by rewrite lookup_insert_ne|].
      split; [discriminate|]. split; [|exact Hrun].
      intros _. exists target. split; [done|]. by rewrite lookup_insert_eq.
    - intros Hrun. exists args, s. split; [done|]. split; [done|].
      split; [discriminate | exact Hrun]. }
  cbv zeta in Hrest.
  assert (getParam args1 "channelId" = getParam args "channelId") as Hsame.
  { unfold getParam. by rewrite Hother1. }
  rewrite Hsame in Hrest.
  set (channelIdRaw :=
         match getParam args "channelId" with VStr s0 => Js.trim s0 | _ => "" end)
    in Hrest.
  assert (Js.truthy channelIdRaw = nonBlankString (getParam args "channelId"))
    as HchRaw.
  { unfold channelIdRaw, nonBlankString. by destruct (getParam args "channelId"). }
  destruct (Js.truthy channelIdRaw) eqn:Htruthy.
  - unfold bind in Hrest.
    destruct (resolveChannelTarget cfg channel channelIdRaw accountId
                (Some trk_group) s1) as [[[target|err c]|e] s2] eqn:Hres;
      [|discriminate..].
    destruct (decide (rt_kind target = trk_user)); [discriminate|].
    injection Hrest as <- <-.
    split; [intros key Hk1 Hk2; rewrite lookup_insert_ne by done; by apply Hother1|].
    split.
    { intros Hblank. rewrite lookup_insert_ne by done. apply Hblank1. congruence. }
    split; [intros Hblank; congruence|].
    split.
    + intros raw Hraw Htr.
      assert (toRaw = Js.trim raw) as HtoEq by (unfold toRaw; by rewrite Hraw).
      destruct Hto1 as (t & Ht & Hlook); [congruence|].
      exists t, s1. rewrite <- HtoEq. split; [done|].
      by rewrite lookup_insert_ne.
    + intros raw Hraw Htr.
      assert (channelIdRaw = Js.trim raw) as HchEq
          by (unfold channelIdRaw; by rewrite Hraw).
      exists target, s1, s2. rewrite <- HchEq. split; [done|].
      by rewrite lookup_insert_eq.
  - injection Hrest as <- <-.
    split; [intros key Hk1 Hk2; by apply Hother1|].
    split; [intros Hblank; apply Hblank1; congruence|].
    split; [intros _; apply Hother1; done|].
    split.
    + intros raw Hraw Htr.
      assert (toRaw = Js.trim raw) as HtoEq by (unfold toRaw; by rewrite Hraw).
      destruct Hto1 as (t & Ht & Hlook); [congruence|].
      exists t, s1. rewrite <- HtoEq. by split.
    + intros raw Hraw Htr. exfalso.
      assert (channelIdRaw = Js.trim raw) as HchEq
          by (unfold channelIdRaw; by rewrite Hraw).
      congruence.
Qed.

End RunFacts.

(** ** Results *)

Section ResultFacts.
Context `{E : Externals}.

Lemma single_result_kind broadcast input s r s' :
  in_action input <> a_broadcast ->
  runMessageActionWith broadcast input s = (Normal r, s') ->
  resultOfAction (in_action input) r
  /\ (forall flag, in_dryRun input = Some flag -> resultDryRun r = flag).
Proof.
  intros Hb Hrun.
  destruct (run_prefix broadcast input s Hb)
    as (lookups & _ & [(e & s1 & He & _) | (ctx & s1 & Hh & _ & Hin & _ & Hflag)]).
  { rewrite He in Hrun. discriminate Hrun. }
  rewrite Hh in Hrun.
  destruct (decide (in_action input = a_send)) as [Hs|Hs];
    [|destruct (decide (in_action input = a_poll)) as [Hp|Hp]].
  - pose proof (handleSendAction_log ctx s1) as Hl. cbv zeta in Hl.
    rewrite Hrun in Hl. simpl in Hl.
    destruct Hl as [[[e He] _] | (args & _ & _ & _ & _ & Hr)]; [discriminate He|].
    destruct (Hr r eq_refl) as (to & hb & payload & tr & sr & ->). simpl.
    split; [done | exact Hflag].
  - pose proof (handlePollAction_log ctx s1) as Hl. cbv zeta in Hl.
    rewrite Hrun in Hl. simpl in Hl.
    destruct Hl as [[[e He] _] | (args & _ & _ & _ & _ & Hr)]; [discriminate He|].
    destruct (Hr r eq_refl) as (to & hb & payload & tr & sr & ->). simpl.
    split; [done | exact Hflag].
  - destruct (handlePluginAction_result ctx s1 r s' Hrun) as (hb & payload & tr & ->).
    simpl. rewrite Hin. split; [by repeat split | exact Hflag].
Qed.

(** A broadcast that returns has passed its plan and run every pair. *)
Lemma broadcast_result input s r s' :
  in_action input = a_broadcast ->
  runMessageAction input s = (Normal r, s') ->
  exists params rawTargets targetChannels s1 outcomes,
    broadcastPlan input params s = (Normal (rawTargets, targetChannels), s1)
    /\ r = RunBroadcast (List.hd "discord" targetChannels)
             (if default false (in_dryRun input) then hb_dry_run else hb_core)
             outcomes (default false (in_dryRun input))
    /\ pairsRun runSingleAction input params (list_prod targetChannels rawTargets)
                s1 outcomes s'.
Proof.
  intros Hb. unfold runMessageAction, runMessageActionWith. cbv zeta.
  unfold bind at 1. unfold lift at 1.
  destruct (parseButtonsParam (in_params input)) as [params|e]; [|discriminate].
  destruct (decide (in_action input = a_broadcast)) as [_|Hn]; [|done].
  destruct (broadcastPlan input params s) as [[[rawTargets targetChannels]|e] s1]
    eqn:Hplan.
  - destruct (handleBroadcastAction_runs input params s rawTargets targetChannels s1
                Hplan) as (outcomes & s2 & -> & Hpairs).
    intros [= <- <-]. by exists params, rawTargets, targetChannels, s1, outcomes.
  - unfold handleBroadcastAction, handleBroadcastActionWith, bind.
    rewrite Hplan. discriminate.
Qed.

(** X18.  A broadcast that returns reports at least one outcome, and the
    channel of its result is the channel of the first outcome: the
    fallback channel of the result is never used. *)
Theorem broadcast_reports_an_outcome input s r :
  in_action input = a_broadcast ->
  (runMessageAction input s).1 = Normal r ->
  exists channel handledBy first rest dryRun,
    r = RunBroadcast channel handledBy (first :: rest) dryRun
    /\ bo_channel first = channel.
Proof.
  intros Hb Hrun.
  destruct (runMessageAction input s) as [r' s'] eqn:Hrun'. simpl in Hrun. subst r'.
  destruct (broadcast_result input s r s' Hb Hrun')
    as (params & rawTargets & targetChannels & s1 & outcomes & Hplan & -> & Hpairs).
  destruct (broadcastPlan_nonempty _ _ _ _ _ _ Hplan) as [Hraw Hch].
  destruct targetChannels as [|channel channels]; [done|].
  destruct rawTargets as [|target targets]; [done|].
  simpl in Hpairs. inversion Hpairs as [|? ? ? ? outcome s2 rest s3 Hpair Hrest]; subst.
  destruct (broadcastPair_outcome _ _ _ _ _ _ _ _ Hpair) as [Hchannel _].
  by eexists _, _, outcome, rest, _.
Qed.

(** X19.  The result of a run is of the kind of its action: [send] for a
    send, [poll] for a poll, [broadcast] for a broadcast, and for any other
    action [action], naming that action; a [dryRun] given with the request
    is the [dryRun] of the result. *)
Theorem result_kind_follows_action input s r :
  (runMessageAction input s).1 = Normal r ->
  resultOfAction (in_action input) r
  /\ (forall flag, in_dryRun input = Some flag -> resultDryRun r = flag).
Proof.
  intros Hrun.
  destruct (runMessageAction input s) as [r' s'] eqn:Hrun'. simpl in Hrun. subst r'.
  destruct (decide (in_action input = a_broadcast)) as [Hb|Hb];
    [|by apply (single_result_kind handleBroadcastAction input s r s')].
  destruct (broadcast_result input s r s' Hb Hrun')
    as (params & rawTargets & targetChannels & s1 & outcomes & _ & -> & _).
  simpl. split; [done|]. by intros flag ->.
Qed.

End ResultFacts.

(** ** Outbound targets *)

Section TargetFacts.
Import OutboundTargets.
Context `{TE : TargetExternals}.

(** X20.  [resolveOutboundTarget] accepts a destination only on a channel
    that is not the internal one and has a plugin.  Without a resolver of
    the plugin the accepted destination is the given one, trimmed, and it
    is not blank; with one, it is what the resolver returned for the given
    destination, the mode (["explicit"] when none is given) and the allow
    list, where a list passed by the caller takes precedence over the one
    of the configuration. *)
Theorem outbound_target_accepted params to :
  resolveOutboundTarget params = TargetOk to ->
  rp_channel params <> INTERNAL_MESSAGE_CHANNEL
  /\ exists plugin,
      getChannelPlugin (rp_channel params) = Some plugin
      /\ (plugin_resolveTarget plugin = None ->
          exists raw, rp_to params = Some raw /\ to = Js.trim raw
                      /\ Js.truthy to = true)
      /\ (forall resolveTarget,
            plugin_resolveTarget plugin = Some resolveTarget ->
            exists args,
              resolveTarget args = TargetOk to
              /\ ra_to args = rp_to params
              /\ ra_cfg args = rp_cfg params
              /\ ra_accountId args = rp_accountId params
              /\ ra_mode args = default "explicit" (rp_mode params)
              /\ (forall allowFrom, rp_allowFrom params = Some allowFrom ->
                                    ra_allowFrom args = Some allowFrom)).
Proof.
  unfold resolveOutboundTarget.
  destruct (String.eqb (rp_channel params) INTERNAL_MESSAGE_CHANNEL) eqn:Hint;
    [discriminate|].
  apply String.eqb_neq in Hint.
  destruct (getChannelPlugin (rp_channel params)) as [plugin|]; [|discriminate].
  cbv zeta. intros Hres. split; [exact Hint|]. exists plugin. split; [done|].
  destruct (plugin_resolveTarget plugin) as [resolveTarget|].
  - split; [discriminate|]. intros ? [= <-]. eexists. split; [exact Hres|].
    cbn [ra_to ra_cfg ra_accountId ra_mode ra_allowFrom]. repeat split.
    by intros allowFrom ->.
  - split; [|discriminate]. intros _.
    destruct (rp_to params) as [raw|]; [|discriminate]. simpl in Hres.
    destruct (Js.truthy (Js.trim raw)) eqn:Htr; [|discriminate].
    injection Hres as <-. by exists raw.
Qed.

Lemma resolveOutboundTarget_channel params to :
  resolveOutboundTarget params = TargetOk to ->
  rp_channel params <> INTERNAL_MESSAGE_CHANNEL
  /\ exists plugin, getChannelPlugin (rp_channel params) = Some plugin.
Proof.
  unfold resolveOutboundTarget.
  destruct (String.eqb (rp_channel params) INTERNAL_MESSAGE_CHANNEL) eqn:Hint;
    [discriminate|].
  apply String.eqb_neq in Hint.
  destruct (getChannelPlugin (rp_channel params)) as [plugin|]; [|discriminate].
  intros _. split; [exact Hint | by exists plugin].
Qed.

Lemma orElse_cases (a b : option string) :
  (truthyOpt a = true /\ orElse a b = a) \/ (truthyOpt a = false /\ orElse a b = b).
Proof. unfold orElse. destruct (truthyOpt a); [by left | by right]. Qed.

Lemma orElse_some (a b : option string) to :
  orElse a b = Some to -> a = Some to \/ (truthyOpt a = false /\ b = Some to).
Proof. unfold orElse. destruct (truthyOpt a); [by left | by right]. Qed.

Lemma explicitToOf_truthy heartbeat to :
  explicitToOf heartbeat = Some to -> Js.truthy to = true.
Proof.
  unfold explicitToOf. destruct (_ ≫= _) as [raw|]; [|discriminate].
  destruct (Js.truthy (Js.trim raw)) eqn:Htr; [|discriminate]. by intros [= <-].
Qed.

(** X21.  A heartbeat is delivered nowhere, with the reason [target-none]
    or [no-target], or to a channel and destination that
    [resolveOutboundTarget] accepted in heartbeat mode: the channel is then
    not the internal one and has a plugin, the destination asked for was
    the explicit [to] of the heartbeat or else the last destination of the
    session, and the latter only when the channel is the one of the
    session's last message; the account of the session is passed under the
    same condition.  The only reason attached to a delivery is
    [allowFrom-fallback]. *)
Theorem heartbeat_target_is_accepted cfg entry heartbeat :
  let result := resolveHeartbeatDeliveryTarget cfg entry heartbeat in
  (result = noTarget "target-none" \/ result = noTarget "no-target")
  \/ (exists to resolvedTo,
        let channel := ot_channel result in
        let accountId :=
          if bool_decide (Some channel = lastChannelOf entry)
          then e ← entry; lastAccountId e else None in
        resolveOutboundTarget (heartbeatRequest cfg channel to accountId "heartbeat")
        = TargetOk resolvedTo
        /\ ot_to result = Some resolvedTo
        /\ Js.truthy to = true
        /\ (explicitToOf (heartbeatInForce cfg heartbeat) = Some to
            \/ (explicitToOf (heartbeatInForce cfg heartbeat) = None
                /\ lastChannelOf entry = Some channel
                /\ to = lastToOf entry))
        /\ channel <> INTERNAL_MESSAGE_CHANNEL
        /\ (exists plugin, getChannelPlugin channel = Some plugin)
        /\ (ot_reason result = None \/ ot_reason result = Some "allowFrom-fallback")).
Proof.
  intros result. subst result. unfold resolveHeartbeatDeliveryTarget.
  change (match heartbeat with
          | Some h => Some h
          | None => defaultHeartbeat cfg
          end) with (heartbeatInForce cfg heartbeat).
  set (hb := heartbeatInForce cfg heartbeat). cbv zeta.
  set (target := match hb ≫= (fun h => hb_target h) with
                 | Some raw => _
                 | None => "last"
                 end).
  destruct (String.eqb target "none"); [left; by left|].
  change (match hb ≫= (fun h => hb_to h) with
          | Some to => if Js.truthy (Js.trim to) then Some (Js.trim to) else None
          | None => None
          end) with (explicitToOf hb).
  change (match entry ≫= (fun e => lastChannel e) with
          | Some c =>
              if (Js.truthy c && negb (String.eqb c INTERNAL_MESSAGE_CHANNEL))%bool
              then normalizeChannelId c
              else None
          | None => None
          end) with (lastChannelOf entry).
  change (match entry ≫= (fun e => lastTo e) with
          | Some t => Js.trim t
          | None => ""
          end) with (lastToOf entry).
  match goal with
  | |- context [truthyOpt ?c] => remember c as channelOpt eqn:HchannelOpt
  end.
  match goal with
  | |- context [orElse (explicitToOf hb) ?rest] =>
      remember (orElse (explicitToOf hb) rest) as toOpt eqn:HtoOpt
  end.
  assert (forall to, toOpt = Some to -> Js.truthy to = true ->
             forall channel, channelOpt = Some channel -> Js.truthy channel = true ->
             explicitToOf hb = Some to
             \/ (explicitToOf hb = None /\ lastChannelOf entry = Some channel
                 /\ to = lastToOf entry)) as Horigin.
  { intros to Hto Htruthy channel Hchannel Hch. rewrite HtoOpt in Hto.
    match type of Hto with
    | orElse _ ?rest = _ =>
        destruct (orElse_cases (explicitToOf hb) rest) as [[Hex Heq] | [Hex Heq]]
    end; rewrite Heq in Hto; [by left|].
    right.
    assert (explicitToOf hb = None) as Hnone.
    { destruct (explicitToOf hb) as [t|] eqn:Hexp; [|done].
      apply explicitToOf_truthy in Hexp. simpl in Hex. congruence. }
    split; [exact Hnone|].
    apply orElse_some in Hto as [Hx | [_ Hy]].
    - match type of Hx with
      | (if ?c then _ else _) = _ => destruct c eqn:HC
      end; [|discriminate Hx].
      injection Hx as <-.
      apply andb_true_iff in HC as [_ HC%bool_decide_eq_true].
      split; [exact (eq_trans HC Hchannel) | done].
    - match type of Hy with
      | (if ?c then _ else _) = _ => destruct c eqn:Hlast
      end; [|discriminate Hy].
      injection Hy as <-. try rewrite Hlast in HchannelOpt.
      rewrite <- HchannelOpt. by split. }
  destruct channelOpt as [channel|] eqn:Hchannel; [|left; by right].
  destruct toOpt as [to|] eqn:Hto; [|left; by right].
  destruct (Js.truthy channel) eqn:Hch; [|left; by right].
  destruct (Js.truthy to) eqn:Htruthy; [|left; by right].
  cbn [andb negb].
  specialize (Horigin to eq_refl Htruthy channel eq_refl Hch).
  change {| rp_channel := channel; rp_to := Some to; rp_allowFrom := None;
            rp_cfg := Some cfg;
            rp_accountId :=
              if bool_decide (Some channel = lastChannelOf entry)
              then entry ≫= (fun e => lastAccountId e) else None;
            rp_mode := Some "heartbeat" |}
    with (heartbeatRequest cfg channel to
            (if bool_decide (Some channel = lastChannelOf entry)
             then entry ≫= (fun e => lastAccountId e) else None) "heartbeat").
  destruct (resolveOutboundTarget (heartbeatRequest cfg channel to _ "heartbeat"))
    as [resolvedTo|err] eqn:Hres; [|left; by right].
  right. exists to, resolvedTo. cbn [ot_channel ot_to ot_reason].
  destruct (resolveOutboundTarget_channel _ _ Hres) as [Hint Hplugin].
  split; [exact Hres|]. split; [done|]. split; [done|]. split; [exact Horigin|].
  split; [exact Hint|]. split; [exact Hplugin|].
  destruct (getChannelPlugin channel ≫= _) as [allow|]; [|by left].
  match goal with
  | |- context [resolveOutboundTarget ?r] =>
      destruct (resolveOutboundTarget r) as [explicitTo'|]
  end; [|by left].
  destruct (negb _); [by right | by left].
Qed.

(** X22.  The last destination of a session is not reused on another
    channel: a heartbeat aimed at a channel that is not the one of the
    session's last message, and that names no destination of its own, is
    delivered nowhere. *)
Theorem heartbeat_elsewhere_needs_a_destination cfg entry heartbeat raw channel :
  (h ← heartbeatInForce cfg heartbeat; hb_target h) = Some raw ->
  raw <> "none" -> raw <> "last" ->
  normalizeChannelId raw = Some channel ->
  Js.truthy channel = true ->
  channel <> "none" -> channel <> "last" ->
  lastChannelOf entry <> Some channel ->
  explicitToOf (heartbeatInForce cfg heartbeat) = None ->
  resolveHeartbeatDeliveryTarget cfg entry heartbeat = noTarget "no-target".
Proof.
  intros Htarget Hnone Hlast Hnorm Htruthy Hcn Hch Hother Hexplicit.
  unfold resolveHeartbeatDeliveryTarget.
  change (match heartbeat with
          | Some h => Some h
          | None => defaultHeartbeat cfg
          end) with (heartbeatInForce cfg heartbeat).
  cbv zeta. rewrite Htarget.
  apply String.eqb_neq in Hnone, Hlast. rewrite Hnone, Hlast. cbn [orb].
  rewrite Hnorm, Htruthy.
  apply String.eqb_neq in Hcn, Hch. rewrite Hcn, Hch.
  change (match heartbeatInForce cfg heartbeat ≫= (fun h => hb_to h) with
          | Some to => if Js.truthy (Js.trim to) then Some (Js.trim to) else None
          | None => None
          end) with (explicitToOf (heartbeatInForce cfg heartbeat)).
  change (match entry ≫= (fun e => lastChannel e) with
          | Some c =>
              if (Js.truthy c && negb (String.eqb c INTERNAL_MESSAGE_CHANNEL))%bool
              then normalizeChannelId c
              else None
          | None => None
          end) with (lastChannelOf entry).
  rewrite Hexplicit. unfold orElse at 1. cbn [truthyOpt from_option].
  rewrite (bool_decide_eq_false_2 _ Hother), andb_false_r.
  by unfold orElse.
Qed.

End TargetFacts.

(** ** The properties on the closed instances *)

Section ResolverRuns.
#[local] Existing Instance Demo.externals.
Import DirectoryCache.

(** The keys of the discord snapshots of the default account. *)
Lemma cache_keys_of_an_account_witness :
  (buildDirectoryCacheKey
     {| DirectoryCache.channel := "discord"; DirectoryCache.accountId := None;
        DirectoryCache.kind := k_user; DirectoryCache.source := src_cache |}
   = buildDirectoryCacheKey
       {| DirectoryCache.channel := "discord"; DirectoryCache.accountId := None;
          DirectoryCache.kind := k_group; DirectoryCache.source := src_live |}
   <-> k_user = k_group /\ src_cache = src_live)
  /\ buildDirectoryCacheKey
       {| DirectoryCache.channel := "discord"; DirectoryCache.accountId := None;
          DirectoryCache.kind := k_user; DirectoryCache.source := src_cache |}
     = buildDirectoryCacheKey
         {| DirectoryCache.channel := "discord";
            DirectoryCache.accountId := Some "default";
            DirectoryCache.kind := k_user; DirectoryCache.source := src_cache |}.
Proof.
  exact (cache_keys_of_an_account "discord" None k_user src_cache k_group src_live).
Defined.

(** A reset of the account [work] of discord after the groups of the
    default account were fetched: the snapshots of [work] are gone, the
    snapshot of the default account is kept. *)
Lemma reset_drops_the_snapshots_of_a_channel_witness :
  let s :=
    (resolveMessagingTarget Demo.cfg1 "discord" "random" None None (Demo.start 0)).2 in
  let s' := (resetDirectoryCache (Some "discord") (Some "work") s).2 in
  cache (st_cache s') !! directoryKey "discord" (Some "work") k_group src_cache = None
  /\ cache (st_cache s') !! directoryKey "discord" None k_group src_cache
     = cache (st_cache s) !! directoryKey "discord" None k_group src_cache
  /\ cache (st_cache s') !! directoryKey "slack" None k_group src_cache
     = cache (st_cache s) !! directoryKey "slack" None k_group src_cache
  /\ st_log s' = st_log s.
Proof.
  intros s.
  destruct (reset_drops_the_snapshots_of_a_channel (E := Demo.externals)
              "discord" (Some "work") s eq_refl)
    as (_ & Hgone & Hkept & Hother & Hlog & _).
  split; [apply Hgone; by right|].
  split; [apply Hkept; [reflexivity | reflexivity | reflexivity | discriminate]|].
  split; [apply Hother; reflexivity | exact Hlog].
Defined.

(** The snapshot that reset keeps is there, and a reset of the default
    account removes it. *)
Example reset_of_another_account_keeps_the_snapshot :
  let s :=
    (resolveMessagingTarget Demo.cfg1 "discord" "random" None None (Demo.start 0)).2 in
  let key := directoryKey "discord" None k_group src_cache in
  DirectoryCache.value
    <$> cache (st_cache (resetDirectoryCache (Some "discord") (Some "work") s).2) !! key
  = Some [Demo.general; Demo.generalDev; Demo.random]
  /\ cache (st_cache (resetDirectoryCache (Some "discord") (Some "default") s).2) !! key
     = None.
Proof. vm_compute. split; reflexivity. Qed.

Lemma reset_forces_a_fresh_fetch_witness :
  let s :=
    (resolveMessagingTarget Demo.cfg1 "discord" "random" None None (Demo.start 0)).2 in
  let s1 := (resetDirectoryCache (Some "discord") None s).2 in
  exists later,
    st_log (getDirectoryEntries Demo.cfg1 "discord" None k_group (Some "random")
              true s1).2
    = later ++
      EvDirectory "discord" listGroups
        {| dl_cfg := Demo.cfg1; dl_accountId := None; dl_query := Some "random" |}
      :: st_log s.
Proof.
  intros s.
  exact (reset_forces_a_fresh_fetch (E := Demo.externals)
           "discord" Demo.cfg1 None k_group (Some "random") true s
           Demo.discordDirectory listGroups
           (Demo.listing [Demo.general; Demo.generalDev; Demo.random])
           eq_refl eq_refl eq_refl).
Defined.

Lemma resolve_random_demo :
  resolveMessagingTarget Demo.cfg1 "discord" "random" None None (Demo.start 0)
  = (Normal (ResolveOk {| rt_to := "channel:100000000000000003";
                          rt_kind := trk_group;
                          rt_display := Some "random";
                          rt_source := from_directory |}),
     (resolveMessagingTarget Demo.cfg1 "discord" "random" None None
        (Demo.start 0)).2).
Proof. apply pair_from_fst. vm_compute. reflexivity. Qed.

Lemma lookup_random_demo :
  getDirectoryEntries Demo.cfg1 "discord" None k_group (Some "random") true
    (Demo.start 0)
  = (Normal [Demo.general; Demo.generalDev; Demo.random],
     (getDirectoryEntries Demo.cfg1 "discord" None k_group (Some "random") true
        (Demo.start 0)).2).
Proof. apply pair_from_fst. vm_compute. reflexivity. Qed.

(** The name [random] resolves through the directory. *)
Lemma resolution_result_shape_witness :
  trk_group = detectTargetKind "random" None
  /\ (@None TargetResolveKind <> None -> Some trk_group = None)
  /\ exists entry,
      matchesDirectoryEntry "discord" entry "random" = true
      /\ "channel:100000000000000003" = normalizeDirectoryEntryId "discord" entry.
Proof.
  exact (resolution_result_shape (E := Demo.externals)
           Demo.cfg1 "discord" "random" None None (Demo.start 0) _ _
           resolve_random_demo).
Defined.

Lemma lookup_result_by_match_count_witness :
  resolveMessagingTarget Demo.cfg1 "discord" "random" None None (Demo.start 0)
  = (Normal (ResolveOk
               {| rt_to := normalizeDirectoryEntryId "discord" Demo.random;
                  rt_kind := detectTargetKind "random" None;
                  rt_display :=
                    Some (default (default (stripTargetPrefixes (entry_id Demo.random))
                                     (entry_handle Demo.random))
                            (entry_name Demo.random));
                  rt_source := from_directory |}),
     (getDirectoryEntries Demo.cfg1 "discord" None k_group (Some "random") true
        (Demo.start 0)).2).
Proof.
  refine (proj2 (proj2 (lookup_result_by_match_count (E := Demo.externals)
                          Demo.cfg1 "discord" "random" None None (Demo.start 0)
                          [Demo.general; Demo.generalDev; Demo.random] _
                          eq_refl eq_refl lookup_random_demo))
            Demo.random _).
  vm_compute. reflexivity.
Defined.

(** [#C12345678] and [@U12345678] on slack. *)
Lemma slack_shorthand_keeps_case_witness :
  resolveMessagingTarget Demo.cfg1 "slack" "#C12345678" None None (Demo.start 0)
  = (Normal (ResolveOk {| rt_to := "channel:C12345678"; rt_kind := trk_group;
                          rt_display := Some "C12345678";
                          rt_source := from_normalized |}), Demo.start 0).
Proof.
  refine (proj1 (slack_shorthand_keeps_case (E := Demo.externals)
                   Demo.cfg1 "#C12345678" None (Demo.start 0) "C12345678"
                   eq_refl _) _).
  - vm_compute. reflexivity.
  - vm_compute. reflexivity.
Defined.

(** The group [random] of discord and the query [RANDOM]. *)
Lemma matching_ignores_query_case_witness :
  matchesDirectoryEntry "discord" Demo.random (Js.toLowerCase "RANDOM")
  = matchesDirectoryEntry "discord" Demo.random "RANDOM".
Proof.
  apply (matching_ignores_query_case (E := Demo.externals)
           "discord" Demo.random "RANDOM").
  - vm_compute. reflexivity.
  - vm_compute. reflexivity.
Defined.

Example upper_case_query_matches :
  matchesDirectoryEntry "discord" Demo.random "RANDOM" = true
  /\ matchesDirectoryEntry "discord" Demo.random "random" = true
  /\ matchesDirectoryEntry "discord" Demo.general "RANDOM" = false.
Proof. vm_compute. repeat split. Qed.

(** An iMessage handle: the channel has no identifier rule. *)
Lemma channels_without_rule_take_any_target_witness :
  resolveMessagingTarget Demo.cfg1 "imessage" "imessage:+15551234567" None None
    (Demo.start 0)
  = (Normal (ResolveOk
               {| rt_to := default (Js.trim "imessage:+15551234567") None;
                  rt_kind := detectTargetKind (Js.trim "imessage:+15551234567") None;
                  rt_display :=
                    Some (stripTargetPrefixes (Js.trim "imessage:+15551234567"));
                  rt_source := from_normalized |}), Demo.start 0).
Proof.
  apply (channels_without_rule_take_any_target (E := Demo.externals)
           Demo.cfg1 "imessage" "imessage:+15551234567" None None (Demo.start 0)).
  - intros Hin. repeat (apply elem_of_cons in Hin as [Hin|Hin]; [discriminate Hin|]).
    by apply elem_of_nil in Hin.
  - vm_compute. reflexivity.
  - vm_compute. reflexivity.
Defined.

End ResolverRuns.

Section OutageRuns.
#[local] Existing Instance Outage.externals.
Import DirectoryCache.

Lemma outage_miss :
  get (dateNow (st_world (Outage.start 0)))
      (directoryKey "discord" None k_group src_cache) Demo.cfg1
      (st_cache (Outage.start 0))
  = (None,
     (get 0 (directoryKey "discord" None k_group src_cache) Demo.cfg1
        (create CACHE_TTL_MS)).2).
Proof. apply pair_from_fst. vm_compute. reflexivity. Qed.

Lemma outage_listing :
  let c1 :=
    (get 0 (directoryKey "discord" None k_group src_cache) Demo.cfg1
       (create CACHE_TTL_MS)).2 in
  listDirectoryEntries Demo.cfg1 "discord" None k_group (Some "random") src_cache
    (setCache c1 (Outage.start 0))
  = (Throw "directory unavailable",
     (listDirectoryEntries Demo.cfg1 "discord" None k_group (Some "random") src_cache
        (setCache c1 (Outage.start 0))).2).
Proof. intros c1. apply pair_from_fst. vm_compute. reflexivity. Qed.

(** With the directory out of order, a lookup and a resolution of a name
    throw its error. *)
Lemma directory_errors_propagate_witness :
  let c1 :=
    (get 0 (directoryKey "discord" None k_group src_cache) Demo.cfg1
       (create CACHE_TTL_MS)).2 in
  let s2 :=
    (listDirectoryEntries Demo.cfg1 "discord" None k_group (Some "random") src_cache
       (setCache c1 (Outage.start 0))).2 in
  getDirectoryEntries Demo.cfg1 "discord" None k_group (Some "random") true
    (Outage.start 0)
  = (Throw "directory unavailable", s2)
  /\ cache (st_cache s2) !! directoryKey "discord" None k_group src_cache = None
  /\ resolveMessagingTarget Demo.cfg1 "discord" "random" None None (Outage.start 0)
     = (Throw "directory unavailable", s2).
Proof.
  intros c1 s2.
  destruct (directory_errors_propagate (E := Outage.externals)
              Demo.cfg1 "discord" None k_group (Some "random") true (Outage.start 0)
              c1 "directory unavailable" s2 outage_miss outage_listing)
    as (Hlookup & Hcache & Hresolve).
  split; [exact Hlookup|]. split; [exact Hcache|].
  apply (Hresolve "random" None).
  - vm_compute. reflexivity.
  - vm_compute. reflexivity.
  - reflexivity.
  - vm_compute. reflexivity.
  - reflexivity.
Defined.

End OutageRuns.

Section RunnerRuns.
#[local] Existing Instance Demo.externals.

(** A send to a discord identifier. *)
Lemma single_action_calls_one_service_witness :
  let input := Demo.request a_send Demo.sendParams None in
  exists lookups,
    Forall directoryEvent lookups
    /\ (st_log (runMessageAction input (Demo.start 0)).2
        = (lookups ++ st_log (Demo.start 0))%list
        \/ exists call,
             serviceCallOf input call
             /\ st_log (runMessageAction input (Demo.start 0)).2
                = (call :: lookups ++ st_log (Demo.start 0))%list).
Proof.
  intros input.
  apply (single_action_calls_one_service (E := Demo.externals) input (Demo.start 0)).
  discriminate.
Defined.

(** The broadcast of [Demo], as a dry run. *)
Lemma dry_run_stays_dry_witness :
  let input := Demo.request a_broadcast Demo.broadcastParams (Some true) in
  exists new,
    st_log (runMessageAction input (Demo.start 0)).2
    = (new ++ st_log (Demo.start 0))%list
    /\ Forall dryRunEvent new.
Proof.
  intros input.
  exact (dry_run_stays_dry (E := Demo.externals) input eq_refl (Demo.start 0)).
Defined.

(** A poll with one option is refused; a poll with three options that
    allows several selections reaches the poll service. *)
Lemma poll_needs_two_options_witness :
  handlePollAction (Demo.context a_poll Scenarios.pollOne false) (Demo.start 0)
  = (Throw "pollOption requires at least two values", Demo.start 0).
Proof.
  apply (proj1 (poll_needs_two_options (E := Demo.externals)
                  (Demo.context a_poll Scenarios.pollOne false) (Demo.start 0))
           (Some "123456789") (Some "Lunch?") (Some ["pizza"])).
  - vm_compute. reflexivity.
  - vm_compute. reflexivity.
  - vm_compute. reflexivity.
  - simpl. lia.
Defined.

Lemma action_target_nobody_demo :
  resolveActionTarget Demo.cfg1 "discord" a_send Scenarios.toNobody None (Demo.start 0)
  = (Throw ("Unknown target " +:+ dquote +:+ "nobody" +:+ dquote +:+ " for discord."),
     (resolveActionTarget Demo.cfg1 "discord" a_send Scenarios.toNobody None
        (Demo.start 0)).2).
Proof. apply pair_from_fst. vm_compute. reflexivity. Qed.

(** A [to] that names nobody on discord. *)
Lemma action_target_errors_come_from_resolution_witness :
  let e := "Unknown target " +:+ dquote +:+ "nobody" +:+ dquote +:+ " for discord." in
  let s' :=
    (resolveActionTarget Demo.cfg1 "discord" a_send Scenarios.toNobody None
       (Demo.start 0)).2 in
  exists input kind s0,
    (kind = None \/ kind = Some trk_group)
    /\ (resolveChannelTarget Demo.cfg1 "discord" input None kind s0 = (Throw e, s')
        \/ exists candidates,
             resolveChannelTarget Demo.cfg1 "discord" input None kind s0
             = (Normal (ResolveFail e candidates), s')).
Proof.
  intros e s'.
  exact (action_target_errors_come_from_resolution (E := Demo.externals)
           Demo.cfg1 "discord" a_send Scenarios.toNobody None (Demo.start 0) e s'
           action_target_nobody_demo).
Defined.

Lemma action_target_identifier_demo :
  resolveActionTarget Demo.cfg1 "discord" a_send Scenarios.toIdentifier None
    (Demo.start 0)
  = (Normal (<["to" := VStr "123456789"]> Scenarios.toIdentifier),
     (resolveActionTarget Demo.cfg1 "discord" a_send Scenarios.toIdentifier None
        (Demo.start 0)).2).
Proof. apply pair_from_fst. vm_compute. reflexivity. Qed.

(** A [to] with blanks around an identifier: the message is left alone. *)
Lemma action_target_rewrites_two_keys_witness :
  (<["to" := VStr "123456789"]> Scenarios.toIdentifier : Params) !! "message"
  = Scenarios.toIdentifier !! "message"
  /\ exists target s1,
      resolveChannelTarget Demo.cfg1 "discord" (Js.trim " 123456789 ") None None
        (Demo.start 0)
      = (Normal (ResolveOk target), s1)
      /\ (<["to" := VStr "123456789"]> Scenarios.toIdentifier : Params) !! "to"
         = Some (VStr (rt_to target)).
Proof.
  destruct (action_target_rewrites_two_keys (E := Demo.externals)
              Demo.cfg1 "discord" a_send Scenarios.toIdentifier None (Demo.start 0)
              _ _ action_target_identifier_demo)
    as (Hother & _ & _ & Hto & _).
  split.
  - apply Hother; discriminate.
  - apply (Hto " 123456789 "); vm_compute; reflexivity.
Defined.

Lemma broadcast_demo_result :
  (runMessageAction Demo.broadcastRequest (Demo.start 0)).1
  = Normal
      (RunBroadcast "discord" hb_core
         [{| bo_channel := "discord"; bo_to := "123456789"; bo_ok := true;
             bo_error := None;
             bo_result := Some {| obj_fields := [("ok", VBool true)] |} |};
          {| bo_channel := "discord"; bo_to := "nobody"; bo_ok := false;
             bo_error :=
               Some ("Unknown target " +:+ dquote +:+ "nobody" +:+ dquote
                       +:+ " for discord.");
             bo_result := None |};
          {| bo_channel := "slack"; bo_to := "123456789"; bo_ok := true;
             bo_error := None;
             bo_result := Some {| obj_fields := [("ok", VBool true)] |} |};
          {| bo_channel := "slack"; bo_to := "nobody"; bo_ok := false;
             bo_error :=
               Some ("Unknown target " +:+ dquote +:+ "nobody" +:+ dquote
                       +:+ " for slack.");
             bo_result := None |}]
         false).
Proof. vm_compute. reflexivity. Qed.

(** The broadcast of [Demo] reports four outcomes, the first on discord. *)
Lemma broadcast_reports_an_outcome_witness :
  exists channel handledBy first rest dryRun,
    RunBroadcast "discord" hb_core
      [{| bo_channel := "discord"; bo_to := "123456789"; bo_ok := true;
          bo_error := None;
          bo_result := Some {| obj_fields := [("ok", VBool true)] |} |};
       {| bo_channel := "discord"; bo_to := "nobody"; bo_ok := false;
          bo_error :=
            Some ("Unknown target " +:+ dquote +:+ "nobody" +:+ dquote
                    +:+ " for discord.");
          bo_result := None |};
       {| bo_channel := "slack"; bo_to := "123456789"; bo_ok := true;
          bo_error := None;
          bo_result := Some {| obj_fields := [("ok", VBool true)] |} |};
       {| bo_channel := "slack"; bo_to := "nobody"; bo_ok := false;
          bo_error :=
            Some ("Unknown target " +:+ dquote +:+ "nobody" +:+ dquote
                    +:+ " for slack.");
          bo_result := None |}]
      false
    = RunBroadcast channel handledBy (first :: rest) dryRun
    /\ bo_channel first = channel.
Proof.
  exact (broadcast_reports_an_outcome (E := Demo.externals)
           Demo.broadcastRequest (Demo.start 0) _ eq_refl broadcast_demo_result).
Defined.

Lemma send_demo_result :
  (runMessageAction (Demo.request a_send Demo.sendParams (Some false))
     (Demo.start 0)).1
  = Normal (RunSend "discord" (Some "123456789") hb_core (VObj [("ok", VBool true)])
              None (Some {| obj_fields := [("ok", VBool true)] |}) false).
Proof. vm_compute. reflexivity. Qed.

(** A live send returns a result of kind [send] that is not a dry run. *)
Lemma result_kind_follows_action_witness :
  let r :=
    RunSend "discord" (Some "123456789") hb_core (VObj [("ok", VBool true)])
      None (Some {| obj_fields := [("ok", VBool true)] |}) false in
  resultOfAction a_send r
  /\ (forall flag, Some false = Some flag -> resultDryRun r = flag).
Proof.
  intros r.
  exact (result_kind_follows_action (E := Demo.externals)
           (Demo.request a_send Demo.sendParams (Some false)) (Demo.start 0) r
           send_demo_result).
Defined.

End RunnerRuns.

Section TargetRuns.
Import OutboundTargets.
#[local] Existing Instance TargetDemo.externals.

(** A telegram destination with blanks around it. *)
Lemma outbound_target_accepted_witness :
  "telegram" <> INTERNAL_MESSAGE_CHANNEL
  /\ exists plugin,
      getChannelPlugin "telegram" = Some plugin
      /\ (plugin_resolveTarget plugin = None ->
          exists raw, Some " 4242 " = Some raw /\ "4242" = Js.trim raw
                      /\ Js.truthy "4242" = true)
      /\ (forall resolveTarget,
            plugin_resolveTarget plugin = Some resolveTarget ->
            exists args,
              resolveTarget args = TargetOk "4242"
              /\ ra_to args = Some " 4242 "
              /\ ra_cfg args = Some Demo.cfg1
              /\ ra_accountId args = None
              /\ ra_mode args = default "explicit" (Some "explicit")
              /\ (forall allowFrom, @None (list string) = Some allowFrom ->
                                    ra_allowFrom args = Some allowFrom)).
Proof.
  apply (outbound_target_accepted (TE := TargetDemo.externals)
           (heartbeatRequest Demo.cfg1 "telegram" " 4242 " None "explicit") "4242").
  vm_compute. reflexivity.
Defined.

(** A heartbeat aimed at whatsapp, in a session whose last message came
    from telegram. *)
Lemma heartbeat_elsewhere_needs_a_destination_witness :
  resolveHeartbeatDeliveryTarget Demo.cfg1 (Some TargetDemo.session)
    (Some {| hb_target := Some "whatsapp"; hb_to := None |})
  = noTarget "no-target".
Proof.
  apply (heartbeat_elsewhere_needs_a_destination (TE := TargetDemo.externals)
           Demo.cfg1 (Some TargetDemo.session)
           (Some {| hb_target := Some "whatsapp"; hb_to := None |})
           "whatsapp" "whatsapp").
  - reflexivity.
  - discriminate.
  - discriminate.
  - vm_compute. reflexivity.
  - reflexivity.
  - discriminate.
  - discriminate.
  - vm_compute. discriminate.
  - reflexivity.
Defined.

End TargetRuns.

(** ** The service calls of a broadcast *)

Section BroadcastCalls.
Context `{E : Externals}.

Lemma single_send_events broadcast input :
  in_action input = a_send ->
  logsOnly (broadcastEvent (in_cfg input)) (runMessageActionWith broadcast input).
Proof.
  intros Hsend s.
  assert (in_action input <> a_broadcast) as Hb by (rewrite Hsend; discriminate).
  destruct (run_prefix broadcast input s Hb)
    as (lookups & Hdir & [(e & s' & -> & Hlog)
                         | (ctx & s1 & -> & Hlog & Hin & Hcfg & Hflag)]).
  all: assert (Forall (broadcastEvent (in_cfg input)) lookups) as Hlookups
      by (eapply Forall_impl; [exact Hdir|];
          intros []; unfold directoryEvent; simpl; [done|discriminate..]).
  { by exists lookups. }
  destruct (decide (in_action input = a_send)) as [_|Hn]; [|done].
  pose proof (handleSendAction_log ctx s1) as Hh; cbv zeta in Hh.
  destruct Hh as [[_ Hl] | (args & Hl & Hc & _)].
  - exists lookups. by rewrite Hl.
  - exists (EvSend args :: lookups). rewrite Hl, Hlog. split; [done|].
    constructor; [|done]. simpl. congruence.
Qed.

(** X23.  A broadcast calls no service but the send service: whatever it
    adds to the log is a directory listing or a call of the send service
    under the configuration of the request; the poll service and the
    plugin dispatcher are not called. *)
Theorem broadcast_only_sends input :
  in_action input = a_broadcast ->
  logsOnly (broadcastEvent (in_cfg input)) (runMessageAction input).
Proof.
  intros Hb. unfold runMessageAction, runMessageActionWith. cbv zeta.
  apply logsOnly_bind; [apply logsOnly_lift|]. intros params.
  destruct (decide (in_action input = a_broadcast)) as [_|Hn]; [|done].
  unfold handleBroadcastAction, handleBroadcastActionWith.
  apply logsOnly_bind; [apply broadcastPlan_logsOnly|].
  intros [rawTargets targetChannels].
  apply logsOnly_bind; [|intros; apply logsOnly_ret].
  unfold broadcastLoop. apply logsOnly_forOf. intros acc targetChannel.
  apply logsOnly_forOf. intros acc' target.
  apply logsOnly_bind; [|intros; apply logsOnly_ret].
  unfold broadcastPair. apply logsOnly_tryCatch; [|intros; apply logsOnly_ret].
  apply logsOnly_bind.
  { eapply logsOnly_mono; [|apply resolveMessagingTarget_logsOnly].
    intros []; unfold directoryEvent; simpl; [done|discriminate..]. }
  intros [resolved|err candidates]; [|apply logsOnly_throw].
  apply logsOnly_bind; [|intros; apply logsOnly_ret].
  match goal with
  | |- logsOnly _ (runSingleAction ?nested) =>
      exact (single_send_events _ nested eq_refl)
  end.
Qed.

End BroadcastCalls.

Section BroadcastRuns.
#[local] Existing Instance Demo.externals.

(** The broadcast of [Demo]. *)
Lemma broadcast_only_sends_witness :
  exists new,
    st_log (runMessageAction Demo.broadcastRequest (Demo.start 0)).2
    = (new ++ st_log (Demo.start 0))%list
    /\ Forall (broadcastEvent Demo.cfg1) new.
Proof.
  exact (broadcast_only_sends (E := Demo.externals) Demo.broadcastRequest eq_refl
           (Demo.start 0)).
Defined.

End BroadcastRuns.
